(** * Mama AI: a shallow embedding of the voice-chat session manager
      (src/components/LiveChat.tsx) and of the FLAMES game
      (the FlamesGame component), with the properties of the
      specification stated and settled against them. *)

From Stdlib Require Import String Ascii List Bool Arith NArith ZArith Lia.
From Stdlib Require Import DecimalString.
From Stdlib Require Import Permutation.
Import ListNotations.
Local Open Scope string_scope.
Local Open Scope nat_scope.

(** ** Strings *)

Module Js.

(** [hay.includes(needle)] *)
Fixpoint includes (needle hay : string) : bool :=
  String.prefix needle hay
  || match hay with
     | EmptyString => false
     | String _ rest => includes needle rest
     end.

(** ASCII part of [String.prototype.toLowerCase]. *)
Definition lowerAscii (c : ascii) : ascii :=
  let n := nat_of_ascii c in
  if (65 <=? n) && (n <=? 90) then ascii_of_nat (n + 32) else c.

Fixpoint toLowerCase (s : string) : string :=
  match s with
  | EmptyString => EmptyString
  | String c rest => String (lowerAscii c) (toLowerCase rest)
  end.

(** The text of a number inside a template literal. *)
Definition ofNat (n : nat) : string := NilEmpty.string_of_uint (Nat.to_uint n).

Definition dquote : string := String (ascii_of_nat 34) EmptyString.
Definition nl : string := String (ascii_of_nat 10) EmptyString.

(** A string is truthy when it is not empty. *)
Definition truthy (s : string) : bool :=
  match s with EmptyString => false | _ => true end.

End Js.

(** ** The FLAMES game (FlamesGame component) *)

Module Flames.

(** Names are JavaScript strings: sequences of UTF-16 code units. *)
Definition CodeUnit := N.
Definition JsString := list CodeUnit.

Definition star : CodeUnit := 42%N.

(** ECMAScript WhiteSpace and LineTerminator, what [trim] strips and [\s]
    matches. *)
Definition isWhiteSpace (c : CodeUnit) : bool :=
  existsb (N.eqb c)
    [9; 10; 11; 12; 13; 32; 160; 5760; 8232; 8233; 8239; 8287; 12288; 65279]%N
  || ((8192 <=? c)%N && (c <=? 8202)%N).

Fixpoint trimStart (s : JsString) : JsString :=
  match s with
  | [] => []
  | c :: rest => if isWhiteSpace c then trimStart rest else s
  end.

Definition trim (s : JsString) : JsString :=
  rev (trimStart (rev (trimStart s))).

(** [s.replace(/\s+/g, '')] *)
Definition removeSpaces (s : JsString) : JsString :=
  filter (fun c => negb (isWhiteSpace c)) s.

(** [arr.indexOf(c)]: [None] stands for -1. *)
Fixpoint indexOfFrom (c : CodeUnit) (arr : list CodeUnit) (i : nat) : option nat :=
  match arr with
  | [] => None
  | x :: rest => if N.eqb x c then Some i else indexOfFrom c rest (S i)
  end.

Definition indexOf (c : CodeUnit) (arr : list CodeUnit) : option nat :=
  indexOfFrom c arr 0.

(** [arr[i] = x] for an index inside the array. *)
Fixpoint setAt {A : Type} (i : nat) (x : A) (arr : list A) : list A :=
  match arr, i with
  | [], _ => []
  | _ :: rest, O => x :: rest
  | y :: rest, S j => y :: setAt j x rest
  end.

(** [arr.splice(i, 1)] for its effect on the array. *)
Fixpoint splice1 {A : Type} (i : nat) (arr : list A) : list A :=
  match arr, i with
  | [], _ => []
  | _ :: rest, O => rest
  | y :: rest, S j => y :: splice1 j rest
  end.

(** The loop that marks common characters: [todo] iterations are left and
    [i] is the loop index. *)
Fixpoint removeCommonFrom (todo i : nat) (n1 n2 : list CodeUnit)
  : list CodeUnit * list CodeUnit :=
  match todo with
  | O => (n1, n2)
  | S todo' =>
      match nth_error n1 i with
      | None => (n1, n2)
      | Some c =>
          match indexOf c n2 with
          | Some index =>
              removeCommonFrom todo' (S i) (setAt i star n1) (setAt index star n2)
          | None => removeCommonFrom todo' (S i) n1 n2
          end
      end
  end.

Definition removeCommon (n1 n2 : list CodeUnit) :=
  removeCommonFrom (length n1) 0 n1 n2.

Definition notStar (c : CodeUnit) : bool := negb (N.eqb c star).

Definition flames : list string :=
  ["Friends"; "Lovers"; "Affection"; "Marriage"; "Enemies"; "Siblings"].

Definition descriptions : list string :=
  ["A solid friendship is the foundation of everything good.";
   "Passion is in the air! A romantic connection.";
   "There is a sweet fondness and liking between you two.";
   "Destiny points towards a lifelong commitment.";
   "Uh oh! You might rub each other the wrong way.";
   "A bond as deep as family, or soulmates in disguise."].

Definition splitFlames : list string := ["F"; "L"; "A"; "M"; "E"; "S"].

(** One round of the [while] body: the new index and the array after the
    splice. *)
Definition eliminationRound (count idx : nat) (activeFlames : list string)
  : nat * list string :=
  let idx' := (idx + count - 1) mod length activeFlames in
  (idx', splice1 idx' activeFlames).

(** [while (activeFlames.length > 1) { ... }], with the number of rounds it
    may take bounded by [fuel]; [None] when the bound is hit. *)
Fixpoint eliminate (fuel count idx : nat) (activeFlames : list string)
  : option (list string) :=
  if 1 <? length activeFlames then
    match fuel with
    | O => None
    | S fuel' =>
        let '(idx', rest) := eliminationRound count idx activeFlames in
        eliminate fuel' count idx' rest
    end
  else Some activeFlames.

Record FlamesResult := {
  status : string;
  description : string;
  score : nat
}.

Inductive Run (A : Type) :=
| Done (a : A)
| OutOfFuel.
Arguments Done {A} a.
Arguments OutOfFuel {A}.

(** [descriptions[i]] *)
Definition descriptionAt (i : nat) : string := nth i descriptions "undefined".

(** The [switch] on [finalChar]; [None] is [undefined]. *)
Definition classify (finalChar : option string) (count : nat) : FlamesResult :=
  match finalChar with
  | Some "F" => {| status := "Friends"; description := descriptionAt 0; score := count |}
  | Some "L" => {| status := "Lovers"; description := descriptionAt 1; score := count |}
  | Some "A" => {| status := "Affection"; description := descriptionAt 2; score := count |}
  | Some "M" => {| status := "Marriage"; description := descriptionAt 3; score := count |}
  | Some "E" => {| status := "Enemies"; description := descriptionAt 4; score := count |}
  | Some "S" => {| status := "Siblings"; description := descriptionAt 5; score := count |}
  | _ => {| status := "Unknown"; description := "The stars are confused."; score := count |}
  end.

Section Calculate.

(** [String.prototype.toLowerCase] is the Unicode-aware built-in; the
    game's outcome is established for whatever it returns. *)
Variable toLowerCase : JsString -> JsString.

Definition letters (name : JsString) : list CodeUnit :=
  removeSpaces (toLowerCase name).

Definition overlapCount (name1 name2 : JsString) : nat :=
  let '(n1, n2) := removeCommon (letters name1) (letters name2) in
  length (filter notStar n1) + length (filter notStar n2).

(** [calculateFlames]: [Done None] is the early [return] that leaves the
    result untouched, [Done (Some r)] is [setResult(r)]. *)
Definition calculateFlames (fuel : nat) (name1 name2 : JsString)
  : Run (option FlamesResult) :=
  match trim name1, trim name2 with
  | [], _ => Done None
  | _, [] => Done None
  | _, _ =>
      let count := overlapCount name1 name2 in
      if 0 <? count then
        match eliminate fuel count 0 splitFlames with
        | None => OutOfFuel
        | Some activeFlames =>
            Done (Some (classify (nth_error activeFlames 0) count))
        end
      else Done (Some (classify (Some "S") count))
  end.

End Calculate.

(** Lower-casing of names written in ASCII, for running the game. *)
Definition toLowerCaseAscii (s : JsString) : JsString :=
  map (fun c => if ((65 <=? c) && (c <=? 90))%N then (c + 32)%N else c) s.

Fixpoint ofString (s : string) : JsString :=
  match s with
  | EmptyString => []
  | String c rest => N_of_ascii c :: ofString rest
  end.

End Flames.

(** ** The voice-chat session (src/components/LiveChat.tsx) *)

Module LiveChat.

Inductive Language := English | Hindi | Tamil | Telugu | Malayalam | Kannada.
Inductive Mode := mama | love.

Definition LANGUAGES : list Language :=
  [English; Hindi; Tamil; Telugu; Malayalam; Kannada].
Definition MAX_RETRIES : nat := 3.
Definition RETRY_DELAY_MS : N := 2000.

(** The text a language value is: what [${lang}] prints. *)
Definition languageText (lang : Language) : string :=
  match lang with
  | English => "English"
  | Hindi => "Hindi"
  | Tamil => "Tamil"
  | Telugu => "Telugu"
  | Malayalam => "Malayalam"
  | Kannada => "Kannada"
  end.

Definition modeText (mode : Mode) : string :=
  match mode with mama => "mama" | love => "love" end.

(** *** Errors *)

(** A thrown value: [message] is [err.message] ([None] when undefined) and
    [text] is what [err.toString()] returns. *)
Record JsError := {
  message : option string;
  text : string
}.

Definition mkError (msg : string) : JsError :=
  {| message := Some msg; text := "Error: " ++ msg |}.

Definition getFriendlyErrorMessage (err : JsError) : string :=
  let raw := match message err with
             | Some m => if Js.truthy m then m else text err
             | None => text err
             end in
  let msg := Js.toLowerCase raw in
  if Js.includes "401" msg || Js.includes "unauthenticated" msg
     || Js.includes "api key" msg
  then "Authentication failed. Please check your API Key configuration."
  else if Js.includes "403" msg || Js.includes "permission denied" msg
  then "Access denied. Your API Key may not have permission to use this model."
  else if Js.includes "503" msg || Js.includes "unavailable" msg
          || Js.includes "overloaded" msg
  then "Service is temporarily unavailable. Please try again later."
  else if Js.includes "network" msg || Js.includes "fetch" msg
          || Js.includes "failed to fetch" msg
  then "Network error. Please check your internet connection."
  else if Js.includes "microphone" msg || Js.includes "media device" msg
  then "Microphone access denied or not found."
  else "Connection error: " ++ msg.

(** The classification in the [catch] of [connectWithRetry]. *)
Definition isFatal (err : JsError) : bool :=
  match message err with
  | None => false
  | Some m =>
      Js.includes "401" m || Js.includes "API key" m
      || Js.includes "Permission denied" m
  end.

(** *** Session configuration *)

Definition getSystemInstruction (language : Language) (mode : Mode) : string :=
  let lang := languageText language in
  match mode with
  | mama =>
      Js.nl
      ++ "        You are " ++ Js.dquote ++ "Mama" ++ Js.dquote
      ++ ", a wise, warm, and caring Indian man (like a supportive uncle or grandfather). "
      ++ Js.nl
      ++ "        You speak " ++ lang ++ ". " ++ Js.nl
      ++ "        Your tone is grounded, respectful, and wise. " ++ Js.nl
      ++ "        You give empathetic advice on life, personal growth, and general ideas."
      ++ Js.nl
      ++ "        CRITICAL: Your voice is MALE. Speak ONLY in " ++ lang
      ++ ". Be a good listener." ++ Js.nl
      ++ "      "
  | love =>
      Js.nl
      ++ "        You are " ++ Js.dquote ++ "Priya" ++ Js.dquote
      ++ ", a sweet, realistic Indian girl. " ++ Js.nl
      ++ "        You are helping the user practice " ++ Js.dquote ++ "Love Speaking"
      ++ Js.dquote ++ " or simply having a romantic, affectionate conversation."
      ++ Js.nl
      ++ "        You speak " ++ lang ++ "." ++ Js.nl
      ++ "        Your tone is soft, slightly shy but engaging, and very affectionate."
      ++ Js.nl
      ++ "        CRITICAL: Your voice is FEMALE. Speak ONLY in " ++ lang
      ++ ". Act like a loving partner or girlfriend." ++ Js.nl
      ++ "      "
  end.

Definition voiceNameOf (mode : Mode) : string :=
  match mode with mama => "Puck" | love => "Kore" end.

(** The [config] object handed to [live.connect]. *)
Record SessionConfig := {
  systemInstruction : string;
  voiceName : string
}.

Definition sessionConfig (lang : Language) (mode : Mode) : SessionConfig :=
  {| systemInstruction := getSystemInstruction lang mode;
     voiceName := voiceNameOf mode |}.

(** *** The audio timeline *)

(** Audio times ([currentTime], [duration], the playback cursor) are
    JavaScript numbers.  The scheduler only compares and adds them, so it
    is modelled over any ordered timeline with an addition that does not
    go backwards on a non-negative duration. *)
Class Timeline := {
  time : Type;
  tzero : time;
  tadd : time -> time -> time;
  tltb : time -> time -> bool;
  tltb_asym : forall a b, tltb a b = true -> tltb b a = false;
  tle_trans : forall a b c,
    tltb b a = false -> tltb c b = false -> tltb c a = false;
  tadd_nonneg : forall a d, tltb d tzero = false -> tltb (tadd a d) a = false
}.

Definition tle {TL : Timeline} (a b : time) : Prop := tltb b a = false.

Definition tmax {TL : Timeline} (a b : time) : time :=
  if tltb a b then b else a.

Record AudioBuffer {TL : Timeline} := { duration : time }.

(** The helpers imported from ../utils/audio.  [None] is a thrown
    exception. *)
Class AudioUtils {TL : Timeline} := {
  base64ToUint8Array : string -> option (list N);
  decodeAudioData : list N -> option AudioBuffer;
  duration_nonneg : forall bytes buffer,
    decodeAudioData bytes = Some buffer -> tle tzero (duration buffer)
}.

(** *** Browser objects *)

Inductive ContextState := suspended | running | closed.

Record AudioContext := {
  ctxId : nat;
  sampleRate : N;
  state : ContextState
}.

(** A media stream and the ids of its tracks. *)
Record MediaStream := {
  active : bool;
  tracks : list nat
}.

Inductive PromiseState := Pending | Fulfilled | Rejected.

(** The promise returned by one [live.connect] call, with the closure of
    the [connectWithRetry] call that made it and the capture frames whose
    [then] callback waits for it. *)
Record ConnectPromise := {
  pLanguage : Language;
  pMode : Mode;
  pAttempt : nat;
  pState : PromiseState;
  pWaiting : list nat
}.

(** A pending [setTimeout(() => connectWithRetry(attempt + 1), ...)]. *)
Record Timer := {
  tLanguage : Language;
  tMode : Mode;
  tAttempt : nat;
  tDue : N
}.

(** What the component does to the outside world. *)
Inductive Effect {TL : Timeline} :=
| NewGoogleGenAI
| NewAudioContext (id : nat) (rate : N)
| GetUserMedia
| LiveConnect (promise attempt : nat) (config : SessionConfig)
| SetTimeout (attempt : nat) (delay : N)
| ContextClose (id : nat)
| ContextResume (id : nat)
| TrackStop (id : nat)
| CreateNode (id : nat)
| NodeDisconnect (id : nat)
| SourceStart (id : nat) (startAt length : time)
| SourceStop (id : nat)
| SendRealtimeInput (promise frame : nat)
| ConsoleLog (what : string)
| ConsoleWarn (what : string)
| ConsoleError (what : string).

(** *** The component and its surroundings *)

(** React state. *)
Record UiState := {
  connected : bool;
  error : option string;
  isTalking : bool;
  isRetrying : bool;
  selectedLanguage : option Language;
  selectedMode : Mode
}.

(** The [useRef] cells.  Audio nodes and buffer sources are named by their
    ids. *)
Record Refs {TL : Timeline} := {
  inputAudioContextRef : option AudioContext;
  outputAudioContextRef : option AudioContext;
  streamRef : option MediaStream;
  processorRef : option nat;
  inputSourceRef : option nat;
  sessionPromiseRef : option nat;
  nextStartTimeRef : time;
  aiClientRef : bool;
  sourcesRef : list nat;
  userInitiatedDisconnect : bool
}.

(** The browser side: the connect promises (a promise's id is its position),
    the pending timers, the wall clock in milliseconds, the script
    processors that are connected and firing, the ids of the objects whose
    release operation throws (or, for a context, whose [close()] rejects),
    the next fresh object id and the effects so far, each with the clock
    reading, most recent first. *)
Record Browser {TL : Timeline} := {
  promises : list ConnectPromise;
  timers : list Timer;
  clock : N;
  tapped : list nat;
  faulty : list nat;
  nextId : nat;
  trace : list (N * Effect)
}.

Record World {TL : Timeline} := {
  ui : UiState;
  refs : Refs;
  browser : Browser
}.

(** *** Run-to-completion code: state and exceptions *)

Inductive Outcome (A : Type) :=
| Ret (a : A)
| Throw (e : JsError).
Arguments Ret {A} a.
Arguments Throw {A} e.

Definition M {TL : Timeline} (A : Type) : Type := World -> Outcome A * World.

Section Model.

Context {TL : Timeline} {AU : AudioUtils}.

Definition ret {A} (a : A) : M A := fun w => (Ret a, w).

Definition bind {A B} (m : M A) (k : A -> M B) : M B :=
  fun w =>
    match m w with
    | (Ret a, w') => k a w'
    | (Throw e, w') => (Throw e, w')
    end.

Definition throw {A} (e : JsError) : M A := fun w => (Throw e, w).

(** [try { body } catch (e) { handler(e) }] *)
Definition tryCatch {A} (body : M A) (handler : JsError -> M A) : M A :=
  fun w =>
    match body w with
    | (Ret a, w') => (Ret a, w')
    | (Throw e, w') => handler e w'
    end.

Definition exec {A} (m : M A) (w : World) : World := snd (m w).

End Model.

Notation "x <- m ;; k" := (bind m (fun x => k))
  (at level 61, m at next level, right associativity).
Notation "m ;; k" := (bind m (fun _ => k))
  (at level 61, right associativity).

(** What the environment answers to one [startSession]: the value of
    [process.env.API_KEY], the state a new audio context starts in and the
    result of [getUserMedia]. *)
Record StartEnv := {
  apiKey : option string;
  ctxInitial : ContextState;
  userMedia : JsError + MediaStream
}.

(** The parts of a [LiveServerMessage] the component reads:
    [serverContent?.modelTurn?.parts?.[0]?.inlineData?.data] and
    [serverContent?.interrupted]. *)
Record LiveServerMessage := {
  inlineData : option string;
  interrupted : bool
}.

Section Component.

Context {TL : Timeline} {AU : AudioUtils}.

(** **** Field updates *)

Definition getUi : M UiState := fun w => (Ret (ui w), w).
Definition readRef {A} (cell : Refs -> A) : M A := fun w => (Ret (cell (refs w)), w).
Definition getBrowser : M Browser := fun w => (Ret (browser w), w).

Definition modifyUi (f : UiState -> UiState) : M unit :=
  fun w => (Ret tt, {| ui := f (ui w); refs := refs w; browser := browser w |}).
Definition modifyRefs (f : Refs -> Refs) : M unit :=
  fun w => (Ret tt, {| ui := ui w; refs := f (refs w); browser := browser w |}).
Definition modifyBrowser (f : Browser -> Browser) : M unit :=
  fun w => (Ret tt, {| ui := ui w; refs := refs w; browser := f (browser w) |}).

Definition setConnected (v : bool) : M unit :=
  modifyUi (fun u =>
    {| connected := v; error := error u; isTalking := isTalking u;
       isRetrying := isRetrying u; selectedLanguage := selectedLanguage u;
       selectedMode := selectedMode u |}).
Definition setError (v : option string) : M unit :=
  modifyUi (fun u =>
    {| connected := connected u; error := v; isTalking := isTalking u;
       isRetrying := isRetrying u; selectedLanguage := selectedLanguage u;
       selectedMode := selectedMode u |}).
Definition setIsTalking (v : bool) : M unit :=
  modifyUi (fun u =>
    {| connected := connected u; error := error u; isTalking := v;
       isRetrying := isRetrying u; selectedLanguage := selectedLanguage u;
       selectedMode := selectedMode u |}).
Definition setIsRetrying (v : bool) : M unit :=
  modifyUi (fun u =>
    {| connected := connected u; error := error u; isTalking := isTalking u;
       isRetrying := v; selectedLanguage := selectedLanguage u;
       selectedMode := selectedMode u |}).
Definition setSelectedLanguage (v : option Language) : M unit :=
  modifyUi (fun u =>
    {| connected := connected u; error := error u; isTalking := isTalking u;
       isRetrying := isRetrying u; selectedLanguage := v;
       selectedMode := selectedMode u |}).
Definition setSelectedMode (v : Mode) : M unit :=
  modifyUi (fun u =>
    {| connected := connected u; error := error u; isTalking := isTalking u;
       isRetrying := isRetrying u; selectedLanguage := selectedLanguage u;
       selectedMode := v |}).

Definition putInputAudioContextRef (v : option AudioContext) : M unit :=
  modifyRefs (fun r =>
    {| inputAudioContextRef := v;
       outputAudioContextRef := outputAudioContextRef r;
       streamRef := streamRef r; processorRef := processorRef r;
       inputSourceRef := inputSourceRef r;
       sessionPromiseRef := sessionPromiseRef r;
       nextStartTimeRef := nextStartTimeRef r; aiClientRef := aiClientRef r;
       sourcesRef := sourcesRef r;
       userInitiatedDisconnect := userInitiatedDisconnect r |}).
Definition putOutputAudioContextRef (v : option AudioContext) : M unit :=
  modifyRefs (fun r =>
    {| inputAudioContextRef := inputAudioContextRef r;
       outputAudioContextRef := v;
       streamRef := streamRef r; processorRef := processorRef r;
       inputSourceRef := inputSourceRef r;
       sessionPromiseRef := sessionPromiseRef r;
       nextStartTimeRef := nextStartTimeRef r; aiClientRef := aiClientRef r;
       sourcesRef := sourcesRef r;
       userInitiatedDisconnect := userInitiatedDisconnect r |}).
Definition putStreamRef (v : option MediaStream) : M unit :=
  modifyRefs (fun r =>
    {| inputAudioContextRef := inputAudioContextRef r;
       outputAudioContextRef := outputAudioContextRef r;
       streamRef := v; processorRef := processorRef r;
       inputSourceRef := inputSourceRef r;
       sessionPromiseRef := sessionPromiseRef r;
       nextStartTimeRef := nextStartTimeRef r; aiClientRef := aiClientRef r;
       sourcesRef := sourcesRef r;
       userInitiatedDisconnect := userInitiatedDisconnect r |}).
Definition putProcessorRef (v : option nat) : M unit :=
  modifyRefs (fun r =>
    {| inputAudioContextRef := inputAudioContextRef r;
       outputAudioContextRef := outputAudioContextRef r;
       streamRef := streamRef r; processorRef := v;
       inputSourceRef := inputSourceRef r;
       sessionPromiseRef := sessionPromiseRef r;
       nextStartTimeRef := nextStartTimeRef r; aiClientRef := aiClientRef r;
       sourcesRef := sourcesRef r;
       userInitiatedDisconnect := userInitiatedDisconnect r |}).
Definition putInputSourceRef (v : option nat) : M unit :=
  modifyRefs (fun r =>
    {| inputAudioContextRef := inputAudioContextRef r;
       outputAudioContextRef := outputAudioContextRef r;
       streamRef := streamRef r; processorRef := processorRef r;
       inputSourceRef := v;
       sessionPromiseRef := sessionPromiseRef r;
       nextStartTimeRef := nextStartTimeRef r; aiClientRef := aiClientRef r;
       sourcesRef := sourcesRef r;
       userInitiatedDisconnect := userInitiatedDisconnect r |}).
Definition putSessionPromiseRef (v : option nat) : M unit :=
  modifyRefs (fun r =>
    {| inputAudioContextRef := inputAudioContextRef r;
       outputAudioContextRef := outputAudioContextRef r;
       streamRef := streamRef r; processorRef := processorRef r;
       inputSourceRef := inputSourceRef r;
       sessionPromiseRef := v;
       nextStartTimeRef := nextStartTimeRef r; aiClientRef := aiClientRef r;
       sourcesRef := sourcesRef r;
       userInitiatedDisconnect := userInitiatedDisconnect r |}).
Definition putNextStartTimeRef (v : time) : M unit :=
  modifyRefs (fun r =>
    {| inputAudioContextRef := inputAudioContextRef r;
       outputAudioContextRef := outputAudioContextRef r;
       streamRef := streamRef r; processorRef := processorRef r;
       inputSourceRef := inputSourceRef r;
       sessionPromiseRef := sessionPromiseRef r;
       nextStartTimeRef := v; aiClientRef := aiClientRef r;
       sourcesRef := sourcesRef r;
       userInitiatedDisconnect := userInitiatedDisconnect r |}).
Definition putAiClientRef (v : bool) : M unit :=
  modifyRefs (fun r =>
    {| inputAudioContextRef := inputAudioContextRef r;
       outputAudioContextRef := outputAudioContextRef r;
       streamRef := streamRef r; processorRef := processorRef r;
       inputSourceRef := inputSourceRef r;
       sessionPromiseRef := sessionPromiseRef r;
       nextStartTimeRef := nextStartTimeRef r; aiClientRef := v;
       sourcesRef := sourcesRef r;
       userInitiatedDisconnect := userInitiatedDisconnect r |}).
Definition putSourcesRef (v : list nat) : M unit :=
  modifyRefs (fun r =>
    {| inputAudioContextRef := inputAudioContextRef r;
       outputAudioContextRef := outputAudioContextRef r;
       streamRef := streamRef r; processorRef := processorRef r;
       inputSourceRef := inputSourceRef r;
       sessionPromiseRef := sessionPromiseRef r;
       nextStartTimeRef := nextStartTimeRef r; aiClientRef := aiClientRef r;
       sourcesRef := v;
       userInitiatedDisconnect := userInitiatedDisconnect r |}).
Definition putUserInitiatedDisconnect (v : bool) : M unit :=
  modifyRefs (fun r =>
    {| inputAudioContextRef := inputAudioContextRef r;
       outputAudioContextRef := outputAudioContextRef r;
       streamRef := streamRef r; processorRef := processorRef r;
       inputSourceRef := inputSourceRef r;
       sessionPromiseRef := sessionPromiseRef r;
       nextStartTimeRef := nextStartTimeRef r; aiClientRef := aiClientRef r;
       sourcesRef := sourcesRef r;
       userInitiatedDisconnect := v |}).

Definition withPromises (v : list ConnectPromise) (b : Browser) : Browser :=
  {| promises := v; timers := timers b; clock := clock b; tapped := tapped b;
     faulty := faulty b; nextId := nextId b; trace := trace b |}.
Definition withTimers (v : list Timer) (b : Browser) : Browser :=
  {| promises := promises b; timers := v; clock := clock b; tapped := tapped b;
     faulty := faulty b; nextId := nextId b; trace := trace b |}.
Definition withClock (v : N) (b : Browser) : Browser :=
  {| promises := promises b; timers := timers b; clock := v; tapped := tapped b;
     faulty := faulty b; nextId := nextId b; trace := trace b |}.
Definition withTapped (v : list nat) (b : Browser) : Browser :=
  {| promises := promises b; timers := timers b; clock := clock b; tapped := v;
     faulty := faulty b; nextId := nextId b; trace := trace b |}.
Definition withNextId (v : nat) (b : Browser) : Browser :=
  {| promises := promises b; timers := timers b; clock := clock b;
     tapped := tapped b; faulty := faulty b; nextId := v; trace := trace b |}.
Definition withTrace (v : list (N * Effect)) (b : Browser) : Browser :=
  {| promises := promises b; timers := timers b; clock := clock b;
     tapped := tapped b; faulty := faulty b; nextId := nextId b; trace := v |}.

(** **** Primitive operations *)

Definition emit (e : Effect) : M unit :=
  modifyBrowser (fun b => withTrace ((clock b, e) :: trace b) b).

Definition fresh : M nat :=
  b <- getBrowser ;;
  modifyBrowser (withNextId (S (nextId b))) ;;
  ret (nextId b).

Definition isFaulty (id : nat) : M bool :=
  b <- getBrowser ;;
  ret (existsb (Nat.eqb id) (faulty b)).

Fixpoint forEach {A} (items : list A) (f : A -> M unit) : M unit :=
  match items with
  | [] => ret tt
  | x :: rest => f x ;; forEach rest f
  end.

Definition removeId (id : nat) (ids : list nat) : list nat :=
  filter (fun x => negb (Nat.eqb x id)) ids.

(** [set.add(id)] on a set kept in insertion order. *)
Definition addId (id : nat) (ids : list nat) : list nat :=
  if existsb (Nat.eqb id) ids then ids else ids ++ [id].

(** [ctx.close().catch(console.error)] *)
Definition closeContext (ctx : AudioContext) : M unit :=
  emit (ContextClose (ctxId ctx)) ;;
  bad <- isFaulty (ctxId ctx) ;;
  if bad then emit (ConsoleError "close rejected") else ret tt.

(** [track.stop()] *)
Definition trackStop (id : nat) : M unit :=
  emit (TrackStop id) ;;
  bad <- isFaulty id ;;
  if bad then throw (mkError "track stop failed") else ret tt.

(** [node.disconnect()]: a disconnected script processor stops firing. *)
Definition nodeDisconnect (id : nat) : M unit :=
  emit (NodeDisconnect id) ;;
  bad <- isFaulty id ;;
  if bad then throw (mkError "disconnect failed")
  else modifyBrowser (fun b => withTapped (removeId id (tapped b)) b).

(** [source.stop()] *)
Definition sourceStop (id : nat) : M unit :=
  emit (SourceStop id) ;;
  bad <- isFaulty id ;;
  if bad then throw (mkError "InvalidStateError") else ret tt.

Definition isClosed (ctx : AudioContext) : bool :=
  match state ctx with closed => true | _ => false end.

Definition isSuspended (ctx : AudioContext) : bool :=
  match state ctx with suspended => true | _ => false end.

(** **** [stopSession] *)

Definition stopSession : M unit :=
  putUserInitiatedDisconnect true ;;
  (* Close Audio Contexts *)
  inputCtx <- readRef inputAudioContextRef ;;
  match inputCtx with
  | Some ctx => if isClosed ctx then ret tt else closeContext ctx
  | None => ret tt
  end ;;
  outputCtx <- readRef outputAudioContextRef ;;
  match outputCtx with
  | Some ctx => if isClosed ctx then ret tt else closeContext ctx
  | None => ret tt
  end ;;
  (* Stop Media Stream Tracks *)
  stream <- readRef streamRef ;;
  match stream with
  | Some s => forEach (tracks s) trackStop
  | None => ret tt
  end ;;
  (* Disconnect Nodes *)
  tryCatch
    (processor <- readRef processorRef ;;
     match processor with
     | Some node => nodeDisconnect node
     | None => ret tt
     end ;;
     inputSource <- readRef inputSourceRef ;;
     match inputSource with
     | Some node => nodeDisconnect node
     | None => ret tt
     end)
    (fun _ => emit (ConsoleWarn "Error disconnecting audio nodes:")) ;;
  (* Stop all currently playing audio sources *)
  sources <- readRef sourcesRef ;;
  forEach sources (fun source => tryCatch (sourceStop source) (fun _ => ret tt)) ;;
  putSourcesRef [] ;;
  (* Reset Refs *)
  putInputAudioContextRef None ;;
  putOutputAudioContextRef None ;;
  putStreamRef None ;;
  putProcessorRef None ;;
  putSessionPromiseRef None ;;
  putNextStartTimeRef tzero ;;
  (* Reset UI State *)
  setConnected false ;;
  setIsTalking false ;;
  setIsRetrying false.

(** **** [connectWithRetry] *)

(** The texts of its two console messages. *)
Definition startingSessionText (lang : Language) (mode : Mode) (attempt : nat)
  : string :=
  "Starting session (Attempt " ++ Js.ofNat (attempt + 1) ++ "): Mode="
  ++ modeText mode ++ ", Voice=" ++ voiceNameOf mode ++ ", Lang="
  ++ languageText lang.

Definition attemptFailedText (attempt : nat) : string :=
  "Connection attempt " ++ Js.ofNat (attempt + 1) ++ " failed:".

(** [setTimeout(() => connectWithRetry(attempt), delay)], the callback
    keeping the closure it was made in. *)
Definition setTimeout (lang : Language) (mode : Mode) (attempt : nat) (delay : N)
  : M unit :=
  emit (SetTimeout attempt delay) ;;
  modifyBrowser (fun b =>
    withTimers (timers b ++ [{| tLanguage := lang; tMode := mode;
                                tAttempt := attempt;
                                tDue := (clock b + delay)%N |}]) b).

(** [aiClientRef.current!.live.connect({...})]: a new pending promise;
    without a client the member access throws. *)
Definition liveConnect (lang : Language) (mode : Mode) (attempt : nat)
           (config : SessionConfig) : M nat :=
  client <- readRef aiClientRef ;;
  if client then
    b <- getBrowser ;;
    let promise := length (promises b) in
    modifyBrowser (withPromises
      (promises b ++ [{| pLanguage := lang; pMode := mode; pAttempt := attempt;
                         pState := Pending; pWaiting := [] |}])) ;;
    emit (LiveConnect promise attempt config) ;;
    ret promise
  else
    throw {| message := Some "Cannot read properties of null (reading 'live')";
             text := "TypeError: Cannot read properties of null (reading 'live')" |}.

(** The [catch] block of [connectWithRetry]. *)
Definition connectWithRetry_catch (lang : Language) (mode : Mode) (attempt : nat)
           (err : JsError) : M unit :=
  emit (ConsoleError (attemptFailedText attempt)) ;;
  userStopped <- readRef userInitiatedDisconnect ;;
  if negb (isFatal err) && (attempt <? MAX_RETRIES) && negb userStopped then
    setTimeout lang mode (attempt + 1) RETRY_DELAY_MS
  else
    setIsRetrying false ;;
    setError (Some (getFriendlyErrorMessage err)) ;;
    stopSession.

(** [connectWithRetry(attempt)] up to its [await sessionPromise]; [lang]
    and [mode] are the [selectedLanguage] and [selectedMode] of the
    closure.  The rejection of the promise is delivered later, to
    [connectWithRetry_catch]. *)
Definition connectWithRetry (lang : Language) (mode : Mode) (attempt : nat)
  : M unit :=
  tryCatch
    ((if 0 <? attempt then
        setIsRetrying true ;;
        setError (Some ("Connection lost. Retrying... (" ++ Js.ofNat attempt
                        ++ "/" ++ Js.ofNat MAX_RETRIES ++ ")"))
      else ret tt) ;;
     let voiceName := match mode with mama => "Puck" | love => "Kore" end in
     let instruction := getSystemInstruction lang mode in
     emit (ConsoleLog (startingSessionText lang mode attempt)) ;;
     sessionPromise <-
       liveConnect lang mode attempt
         {| systemInstruction := instruction; voiceName := voiceName |} ;;
     putSessionPromiseRef (Some sessionPromise))
    (connectWithRetry_catch lang mode attempt).

(** **** [startSession] *)

Definition newAudioContext (rate : N) (initial : ContextState)
  : M AudioContext :=
  id <- fresh ;;
  emit (NewAudioContext id rate) ;;
  ret {| ctxId := id; sampleRate := rate; state := initial |}.

Definition getUserMedia (env : StartEnv) : M MediaStream :=
  emit GetUserMedia ;;
  match userMedia env with
  | inl err => throw err
  | inr stream => ret stream
  end.

(** The [catch] block of [startSession]. *)
Definition startSession_catch (e : JsError) : M unit :=
  emit (ConsoleError "Setup Error:") ;;
  setError (Some (getFriendlyErrorMessage e)) ;;
  stopSession.

(** [startSession()], run through the [getUserMedia] await up to the
    await inside [connectWithRetry(0)]. *)
Definition startSession (env : StartEnv) : M unit :=
  u <- getUi ;;
  match selectedLanguage u with
  | None => setError (Some "Please select a language first.")
  | Some lang =>
      setError None ;;
      putUserInitiatedDisconnect false ;;
      tryCatch
        (match apiKey env with
         | Some key =>
             if Js.truthy key then ret tt
             else throw (mkError "API Key is missing. Please check your .env file, environment variables, or application configuration.")
         | None => throw (mkError "API Key is missing. Please check your .env file, environment variables, or application configuration.")
         end ;;
         (* Initialize SDK *)
         emit NewGoogleGenAI ;;
         putAiClientRef true ;;
         (* Initialize Audio Contexts *)
         inputCtx <- readRef inputAudioContextRef ;;
         match inputCtx with
         | None =>
             ctx <- newAudioContext 16000%N (ctxInitial env) ;;
             putInputAudioContextRef (Some ctx)
         | Some _ => ret tt
         end ;;
         outputCtx <- readRef outputAudioContextRef ;;
         match outputCtx with
         | None =>
             ctx <- newAudioContext 24000%N (ctxInitial env) ;;
             putOutputAudioContextRef (Some ctx)
         | Some _ => ret tt
         end ;;
         (* Get User Media *)
         stream <- readRef streamRef ;;
         (if match stream with Some s => active s | None => false end
          then ret tt
          else s <- getUserMedia env ;; putStreamRef (Some s)) ;;
         (* Start Connection Loop *)
         connectWithRetry lang (selectedMode u) 0)
        startSession_catch
  end.

(** **** The callbacks of a connection *)

(** [ctx.resume()] when the context in the cell is suspended. *)
Definition resumeIfSuspended (cell : Refs -> option AudioContext)
           (put : option AudioContext -> M unit) : M unit :=
  current <- readRef cell ;;
  match current with
  | Some ctx =>
      if isSuspended ctx then
        emit (ContextResume (ctxId ctx)) ;;
        put (Some {| ctxId := ctxId ctx; sampleRate := sampleRate ctx;
                     state := running |})
      else ret tt
  | None => ret tt
  end.

(** [createMediaStreamSource] and [createScriptProcessor]. *)
Definition createNode : M nat :=
  id <- fresh ;;
  emit (CreateNode id) ;;
  ret id.

Definition onopen : M unit :=
  emit (ConsoleLog "Gemini Live Connected") ;;
  setConnected true ;;
  setIsRetrying false ;;
  setError None ;;
  (* Resume contexts if suspended *)
  resumeIfSuspended inputAudioContextRef putInputAudioContextRef ;;
  resumeIfSuspended outputAudioContextRef putOutputAudioContextRef ;;
  inputCtx <- readRef inputAudioContextRef ;;
  stream <- readRef streamRef ;;
  match inputCtx, stream with
  | Some _, Some _ =>
      (* Setup Input Pipeline *)
      tryCatch
        (inputSource <- readRef inputSourceRef ;;
         match inputSource with
         | Some node => nodeDisconnect node
         | None => ret tt
         end ;;
         processor <- readRef processorRef ;;
         match processor with
         | Some node => nodeDisconnect node
         | None => ret tt
         end)
        (fun _ => ret tt) ;;
      source <- createNode ;;
      putInputSourceRef (Some source) ;;
      processor <- createNode ;;
      putProcessorRef (Some processor) ;;
      (* processor.onaudioprocess = ...; source.connect(processor);
         processor.connect(destination) *)
      modifyBrowser (fun b => withTapped (addId processor (tapped b)) b)
  | _, _ => ret tt
  end.

Definition setPromise (promise : nat) (p : ConnectPromise) : M unit :=
  modifyBrowser (fun b => withPromises (Flames.setAt promise p (promises b)) b).

(** [sessionPromiseRef.current?.then(session =>
    session.sendRealtimeInput({ media })).catch(() => {})] *)
Definition thenSend (promise frame : nat) : M unit :=
  b <- getBrowser ;;
  match nth_error (promises b) promise with
  | Some p =>
      match pState p with
      | Fulfilled => emit (SendRealtimeInput promise frame)
      | Rejected => ret tt
      | Pending =>
          setPromise promise
            {| pLanguage := pLanguage p; pMode := pMode p;
               pAttempt := pAttempt p; pState := Pending;
               pWaiting := pWaiting p ++ [frame] |}
      end
  | None => ret tt
  end.

(** [processor.onaudioprocess]; [frame] names the window of samples. *)
Definition onaudioprocess (frame : nat) : M unit :=
  sessionPromise <- readRef sessionPromiseRef ;;
  match sessionPromise with
  | Some promise => thenSend promise frame
  | None => ret tt
  end.

(** The listener for [ended] that [onmessage] puts on a source. *)
Definition onended (source : nat) : M unit :=
  sources <- readRef sourcesRef ;;
  putSourcesRef (removeId source sources) ;;
  sources' <- readRef sourcesRef ;;
  if length sources' =? 0 then setIsTalking false else ret tt.

(** [onmessage]; [currentTime] is the reading of [outputCtx.currentTime].
    [decodeAudioData] builds the buffer from the bytes and waits on nothing,
    so the [await] on it resumes before any other event is handled and the
    callback is one step. *)
Definition onmessage (currentTime : time) (msg : LiveServerMessage) : M unit :=
  outputCtx <- readRef outputAudioContextRef ;;
  match outputCtx with
  | None => ret tt
  | Some _ =>
      match inlineData msg with
      | Some base64Audio =>
          if Js.truthy base64Audio then
            setIsTalking true ;;
            next <- readRef nextStartTimeRef ;;
            (if tltb next currentTime then putNextStartTimeRef currentTime
             else ret tt) ;;
            tryCatch
              (match base64ToUint8Array base64Audio with
               | None => throw (mkError "invalid base64")
               | Some audioData =>
                   match decodeAudioData audioData with
                   | None => throw (mkError "invalid audio data")
                   | Some audioBuffer =>
                       source <- fresh ;;
                       startAt <- readRef nextStartTimeRef ;;
                       emit (SourceStart source startAt (duration audioBuffer)) ;;
                       putNextStartTimeRef (tadd startAt (duration audioBuffer)) ;;
                       sources <- readRef sourcesRef ;;
                       putSourcesRef (addId source sources)
                   end
               end)
              (fun _ => emit (ConsoleError "Audio decode error:"))
          else ret tt
      | None => ret tt
      end ;;
      if interrupted msg then
        emit (ConsoleLog "Model interrupted") ;;
        sources <- readRef sourcesRef ;;
        forEach sources (fun src => tryCatch (sourceStop src) (fun _ => ret tt)) ;;
        putSourcesRef [] ;;
        putNextStartTimeRef tzero ;;
        setIsTalking false
      else ret tt
  end.

Definition onclose : M unit :=
  emit (ConsoleLog "Gemini Live Closed") ;;
  setConnected false ;;
  setIsTalking false.

Definition onerror : M unit :=
  emit (ConsoleError "Gemini Live WebSocket Error:").

(** **** The event loop *)

(** The connect promise [promise] is fulfilled: the frames waiting on it
    are sent; the [await] in [connectWithRetry] returns and the function
    ends. *)
Definition connectFulfilled (promise : nat) : M unit :=
  b <- getBrowser ;;
  match nth_error (promises b) promise with
  | Some p =>
      match pState p with
      | Pending =>
          setPromise promise
            {| pLanguage := pLanguage p; pMode := pMode p;
               pAttempt := pAttempt p; pState := Fulfilled; pWaiting := [] |} ;;
          forEach (pWaiting p) (fun frame => emit (SendRealtimeInput promise frame))
      | _ => ret tt
      end
  | None => ret tt
  end.

(** The connect promise [promise] is rejected with [err]: the [await] in
    [connectWithRetry] throws into its [catch].  The call for attempt 0
    is awaited inside the [try] of [startSession]; the later ones are
    started by timers. *)
Definition connectRejected (promise : nat) (err : JsError) : M unit :=
  b <- getBrowser ;;
  match nth_error (promises b) promise with
  | Some p =>
      match pState p with
      | Pending =>
          setPromise promise
            {| pLanguage := pLanguage p; pMode := pMode p;
               pAttempt := pAttempt p; pState := Rejected; pWaiting := [] |} ;;
          if pAttempt p =? 0 then
            tryCatch
              (connectWithRetry_catch (pLanguage p) (pMode p) (pAttempt p) err)
              startSession_catch
          else connectWithRetry_catch (pLanguage p) (pMode p) (pAttempt p) err
      | _ => ret tt
      end
  | None => ret tt
  end.

(** The oldest pending timer fires, at its due time at the earliest. *)
Definition timerFired : M unit :=
  b <- getBrowser ;;
  match timers b with
  | [] => ret tt
  | t :: rest =>
      modifyBrowser (fun b => withClock (N.max (clock b) (tDue t))
                                (withTimers rest b)) ;;
      connectWithRetry (tLanguage t) (tMode t) (tAttempt t)
  end.

(** Time passes. *)
Definition elapse (ms : N) : M unit :=
  modifyBrowser (fun b => withClock (clock b + ms)%N b).

Inductive Event :=
| SelectLanguage (lang : Language)
| SelectMode (mode : Mode)
| StartConversation (env : StartEnv)
| EndCall
| Elapse (ms : N)
| TimerFired
| ConnectFulfilled (promise : nat)
| ConnectRejected (promise : nat) (err : JsError)
| Open
| Message (currentTime : time) (msg : LiveServerMessage)
| Close
| Error
| AudioProcess (processor frame : nat)
| Ended (source : nat).

Definition handle (ev : Event) : M unit :=
  match ev with
  | SelectLanguage lang => setSelectedLanguage (Some lang)
  | SelectMode mode => setSelectedMode mode
  | StartConversation env => startSession env
  | EndCall => stopSession
  | Elapse ms => elapse ms
  | TimerFired => timerFired
  | ConnectFulfilled promise => connectFulfilled promise
  | ConnectRejected promise err => connectRejected promise err
  | Open => onopen
  | Message currentTime msg => onmessage currentTime msg
  | Close => onclose
  | Error => onerror
  | AudioProcess processor frame =>
      b <- getBrowser ;;
      if existsb (Nat.eqb processor) (tapped b) then onaudioprocess frame
      else ret tt
  | Ended source => onended source
  end.

(** The events are handled one after the other; an exception that escapes
    a handler does not stop the loop. *)
Fixpoint run (events : list Event) (w : World) : World :=
  match events with
  | [] => w
  | ev :: rest => run rest (exec (handle ev) w)
  end.

(** The component when it is mounted. *)
Definition initial (bad : list nat) : World :=
  {| ui := {| connected := false; error := None; isTalking := false;
              isRetrying := false; selectedLanguage := None;
              selectedMode := mama |};
     refs := {| inputAudioContextRef := None; outputAudioContextRef := None;
                streamRef := None; processorRef := None;
                inputSourceRef := None; sessionPromiseRef := None;
                nextStartTimeRef := tzero; aiClientRef := false;
                sourcesRef := []; userInitiatedDisconnect := false |};
     browser := {| promises := []; timers := []; clock := 0%N; tapped := [];
                   faulty := bad; nextId := 0; trace := [] |} |}.

End Component.

(** *** Observations on a world *)

(** The connection attempts made so far, oldest first: the clock reading and
    the attempt number of every [live.connect] call. *)
Definition connectAttempts {TL : Timeline} (w : World) : list (N * nat) :=
  flat_map (fun entry =>
              match snd entry with
              | LiveConnect _ attempt _ => [(fst entry, attempt)]
              | _ => []
              end)
           (rev (trace (browser w))).

(** The effects of [w'] that [w] did not have yet, most recent first. *)
Definition effectsSince {TL : Timeline} (w w' : World) : list Effect :=
  map snd (firstn (length (trace (browser w')) - length (trace (browser w)))
                  (trace (browser w'))).

Arguments effectsSince : simpl never.

(** The effects that release a resource or report on it. *)
Definition isRelease {TL : Timeline} (e : Effect) : bool :=
  match e with
  | ContextClose _ | TrackStop _ | NodeDisconnect _ | SourceStop _
  | ConsoleWarn _ | ConsoleError _ => true
  | _ => false
  end.

(** From [w] to [w'] nothing happened but release operations: the React
    state and the refs are as they were, no promise, timer or object was
    made, no processor was attached. *)
Definition releaseStep {TL : Timeline} (w w' : World) : Prop :=
  ui w' = ui w
  /\ refs w' = refs w
  /\ promises (browser w') = promises (browser w)
  /\ timers (browser w') = timers (browser w)
  /\ clock (browser w') = clock (browser w)
  /\ faulty (browser w') = faulty (browser w)
  /\ nextId (browser w') = nextId (browser w)
  /\ incl (tapped (browser w')) (tapped (browser w))
  /\ exists released,
       trace (browser w') = (released ++ trace (browser w))%list
       /\ forallb isRelease (map snd released) = true.

(** No track of the stream held in [streamRef] fails to stop. *)
Definition tracksStop {TL : Timeline} (w : World) : Prop :=
  forall stream track,
    streamRef (refs w) = Some stream ->
    In track (tracks stream) ->
    existsb (Nat.eqb track) (faulty (browser w)) = false.

(** [m] does nothing but release operations, whatever the world. *)
Definition Releases {TL : Timeline} {A : Type} (m : M A) : Prop :=
  forall w, releaseStep w (snd (m w)).

(** [m] never throws. *)
Definition Returns {TL : Timeline} {A : Type} (m : M A) : Prop :=
  forall w, exists a, fst (m w) = Ret a.

(** The connect promise of attempt [attempt] is pending and is the one in
    [sessionPromiseRef]; no timer is pending, the user has not stopped, and
    the tracks of the stream can be stopped. *)
Definition attemptInFlight {TL : Timeline} (w : World) (lang : Language)
           (mode : Mode) (attempt : nat) : Prop :=
  (exists promise waiting,
     sessionPromiseRef (refs w) = Some promise
     /\ nth_error (promises (browser w)) promise
        = Some {| pLanguage := lang; pMode := mode; pAttempt := attempt;
                  pState := Pending; pWaiting := waiting |})
  /\ timers (browser w) = []
  /\ userInitiatedDisconnect (refs w) = false
  /\ aiClientRef (refs w) = true
  /\ tracksStop w.

(** *** Scenarios *)

(** How one connection attempt ends, [latency] milliseconds after it was
    made. *)
Inductive Attempt :=
| Opens (latency : N)
| Fails (latency : N) (err : JsError).

Section Scenarios.

Context {TL : Timeline} {AU : AudioUtils}.

(** The connection attempt in flight ends as the first outcome says; when the
    component answers a failure with a retry timer, the timer fires and the
    next attempt ends as the next outcome says. *)
Fixpoint settle (outcomes : list Attempt) (w : World) : World :=
  match outcomes with
  | [] => w
  | outcome :: rest =>
      match sessionPromiseRef (refs w) with
      | None => w
      | Some promise =>
          match outcome with
          | Opens latency =>
              run [Elapse latency; Open; ConnectFulfilled promise] w
          | Fails latency err =>
              let w' := run [Elapse latency; ConnectRejected promise err] w in
              match timers (browser w') with
              | [] => w'
              | _ :: _ => settle rest (run [TimerFired] w')
              end
          end
      end
  end.

(** A session started from a freshly mounted component. *)
Definition started (bad : list nat) (lang : Language) (mode : Mode)
           (env : StartEnv) : World :=
  run [SelectLanguage lang; SelectMode mode; StartConversation env] (initial bad).

(** One scheduled buffer: the clock reading when its message arrived, the
    cursor before and after, the time given to [source.start] and the
    duration of the buffer. *)
Record Slot := {
  slotNow : time;
  cursorBefore : time;
  slotStart : time;
  slotLength : time;
  cursorAfter : time
}.

Definition audioMessage (base64Audio : string) : LiveServerMessage :=
  {| inlineData := Some base64Audio; interrupted := false |}.

Definition interruption : LiveServerMessage :=
  {| inlineData := None; interrupted := true |}.

(** The audio messages arrive one after the other, each with the reading of
    the output clock at its arrival; the slots are those of the buffers that
    were started. *)
Fixpoint schedule (arrivals : list (time * string)) (w : World)
  : list Slot * World :=
  match arrivals with
  | [] => ([], w)
  | (now, base64Audio) :: rest =>
      let w' := exec (onmessage now (audioMessage base64Audio)) w in
      let '(slots, final) := schedule rest w' in
      match effectsSince w w' with
      | SourceStart _ startAt len :: _ =>
          ({| slotNow := now; cursorBefore := nextStartTimeRef (refs w);
              slotStart := startAt; slotLength := len;
              cursorAfter := nextStartTimeRef (refs w') |} :: slots, final)
      | _ => (slots, final)
      end
  end.

End Scenarios.

(** The slots follow one another from the cursor [cursor]: each starts at
    the later of the cursor and its clock reading, and moves the cursor to
    its end. *)
Fixpoint chained {TL : Timeline} (cursor : time) (slots : list Slot) : Prop :=
  match slots with
  | [] => True
  | s :: rest =>
      cursorBefore s = cursor
      /\ slotStart s = tmax cursor (slotNow s)
      /\ cursorAfter s = tadd (slotStart s) (slotLength s)
      /\ chained (cursorAfter s) rest
  end.


(** *** A timeline and the audio helpers to run the component on *)

(** Time counted in sample frames of the 24 kHz output context. *)
Definition frameTimeline : Timeline.
Proof.
  refine {| time := Z; tzero := 0%Z; tadd := Z.add; tltb := Z.ltb |}.
  - intros a b H. apply Z.ltb_lt in H. apply Z.ltb_ge. lia.
  - intros a b c H1 H2. apply Z.ltb_ge in H1, H2. apply Z.ltb_ge. lia.
  - intros a d H. apply Z.ltb_ge in H. apply Z.ltb_ge. lia.
Defined.

(** The value of one base64 character. *)
Definition sextet (c : ascii) : option N :=
  let n := N_of_ascii c in
  if ((65 <=? n) && (n <=? 90))%N then Some (n - 65)%N
  else if ((97 <=? n) && (n <=? 122))%N then Some (n - 71)%N
  else if ((48 <=? n) && (n <=? 57))%N then Some (n + 4)%N
  else if (n =? 43)%N then Some 62%N
  else if (n =? 47)%N then Some 63%N
  else None.

Fixpoint isPadding (s : string) : bool :=
  match s with
  | EmptyString => true
  | String c rest => (N_of_ascii c =? 61)%N && isPadding rest
  end.

Fixpoint sextets (s : string) : option (list N) :=
  match s with
  | EmptyString => Some []
  | String c rest =>
      match sextet c with
      | Some v => option_map (cons v) (sextets rest)
      | None => if isPadding s then Some [] else None
      end
  end.

Fixpoint octets (values : list N) : option (list N) :=
  match values with
  | a :: b :: c :: d :: rest =>
      option_map
        (fun tail => (a * 4 + b / 16) :: ((b mod 16) * 16 + c / 4)
                       :: ((c mod 4) * 64 + d) :: tail)%N
        (octets rest)
  | [a; b; c] => Some [(a * 4 + b / 16); ((b mod 16) * 16 + c / 4)]%N
  | [a; b] => Some [(a * 4 + b / 16)]%N
  | [_] => None
  | [] => Some []
  end.

(** Modelled from the spec: [base64ToUint8Array] of ../utils/audio, which is
    not among the sources.  The spec calls it the text-safe transport
    encoding, a base64-style text representation of the binary payload that
    round-trips byte for byte. *)
Definition specBase64ToUint8Array (s : string) : option (list N) :=
  match sextets s with
  | Some values => octets values
  | None => None
  end.

(** Modelled from the spec: [decodeAudioData] of ../utils/audio, which is not
    among the sources.  The spec has it read the bytes as little-endian
    16-bit samples into a mono buffer at 24 kHz and fail on a truncated or
    misaligned byte length; the buffer lasts one frame per sample. *)
Definition specDecodeAudioData (bytes : list N) : option (@AudioBuffer frameTimeline) :=
  if Nat.even (length bytes)
  then Some {| duration := Z.of_nat (length bytes / 2) : @time frameTimeline |}
  else None.

Definition specAudioUtils : @AudioUtils frameTimeline.
Proof.
  refine {| base64ToUint8Array := specBase64ToUint8Array;
            decodeAudioData := specDecodeAudioData |}.
  intros bytes buffer H. unfold specDecodeAudioData in H.
  destruct (Nat.even (length bytes)); [|discriminate].
  injection H as <-. unfold tle. cbn. apply Z.ltb_ge. lia.
Defined.

(** A start with a key and a microphone of one track, and two errors a
    connection can fail with. *)
Definition sampleEnv : StartEnv :=
  {| apiKey := Some "test-key"; ctxInitial := suspended;
     userMedia := inr {| active := true; tracks := [7] |} |}.

Definition unavailable : JsError := mkError "503 Service Unavailable".

Definition unauthorized : JsError := mkError "401 Unauthorized".

(** A connected session with nothing playing, three audio messages, and the
    session once their buffers are scheduled. *)
Definition sampleActive (bad : list nat) : @World frameTimeline :=
  @settle frameTimeline specAudioUtils [Opens 5]
          (@started frameTimeline specAudioUtils bad Tamil love sampleEnv).

Definition sampleArrivals : list (@time frameTimeline * string) :=
  [(5%Z, "AAAAAAAA"); (7%Z, "AAAAAAAAAAAAAAAA"); (100%Z, "AAAAAAAA")].

Definition samplePlaying (bad : list nat) : @World frameTimeline :=
  snd (@schedule frameTimeline specAudioUtils sampleArrivals (sampleActive bad)).

End LiveChat.

(** ** The welcome screen (src/components/Welcome.tsx) *)

Module Welcome.

Definition text : string := "Welcome to Mama Ai...".

(** The component between two callbacks: the React state [displayedText],
    the [index] of the effect, whether the interval is still set, the time
    since the mount in milliseconds, the due times of the pending
    [setTimeout(onComplete, 1500)] and how often [onComplete] was called. *)
Record State := {
  displayedText : string;
  index : nat;
  intervalSet : bool;
  clock : N;
  timeouts : list N;
  completions : nat
}.

(** After the mount: the effect has run and set the interval. *)
Definition mounted : State :=
  {| displayedText := ""; index := 0; intervalSet := true; clock := 0;
     timeouts := []; completions := 0 |}.

(** [text.slice(0, n)] *)
Definition slice0 (n : nat) (s : string) : string := String.substring 0 n s.

(** The interval fires, 100 ms after the time before: the callback of
    [setInterval].  A cleared interval does not fire. *)
Definition onInterval (st : State) : State :=
  if intervalSet st then
    let now := (clock st + 100)%N in
    let index' := index st + 1 in
    if index' =? String.length text then
      {| displayedText := slice0 (index st + 1) text; index := index';
         intervalSet := false; clock := now;
         timeouts := timeouts st ++ [(now + 1500)%N];
         completions := completions st |}
    else
      {| displayedText := slice0 (index st + 1) text; index := index';
         intervalSet := true; clock := now;
         timeouts := timeouts st; completions := completions st |}
  else st.

(** The oldest pending timeout fires: [onComplete()]. *)
Definition onTimeout (st : State) : State :=
  match timeouts st with
  | [] => st
  | due :: rest =>
      {| displayedText := displayedText st; index := index st;
         intervalSet := intervalSet st; clock := N.max (clock st) due;
         timeouts := rest; completions := completions st + 1 |}
  end.

(** The cleanup of the effect: [clearInterval(intervalId)]. *)
Definition cleanup (st : State) : State :=
  {| displayedText := displayedText st; index := index st;
     intervalSet := false; clock := clock st;
     timeouts := timeouts st; completions := completions st |}.

(** What happens to the mounted component. *)
Inductive Event := IntervalFired | TimeoutFired | Unmounted.

Definition handle (st : State) (ev : Event) : State :=
  match ev with
  | IntervalFired => onInterval st
  | TimeoutFired => onTimeout st
  | Unmounted => cleanup st
  end.

Definition run (events : list Event) (st : State) : State :=
  fold_left handle events st.

End Welcome.

(** ** The shell (the App component) *)

Module App.

Inductive AppView := WELCOME | CHAT | FLAMES.

Inductive Content := WelcomeContent | LiveChatContent | FlamesGameContent.

Definition renderContent (currentView : AppView) : Content :=
  match currentView with
  | WELCOME => WelcomeContent
  | CHAT => LiveChatContent
  | FLAMES => FlamesGameContent
  end.

(** [currentView !== AppView.WELCOME]: the header and the navigation are
    rendered. *)
Definition showsNavigation (currentView : AppView) : bool :=
  match currentView with WELCOME => false | _ => true end.

(** What can happen to the shell: the welcome screen calls [onComplete], or
    one of the two navigation buttons is clicked.  A button that is not
    rendered cannot be clicked. *)
Inductive Action := WelcomeComplete | ClickVoiceChat | ClickFlamesGame.

Definition step (currentView : AppView) (a : Action) : AppView :=
  match a with
  | WelcomeComplete => CHAT
  | ClickVoiceChat => if showsNavigation currentView then CHAT else currentView
  | ClickFlamesGame => if showsNavigation currentView then FLAMES else currentView
  end.

Definition runActions (actions : list Action) (currentView : AppView) : AppView :=
  fold_left step actions currentView.

End App.

(** ** Devices for the proofs *)

Module WelcomeView.

(** What holds of the welcome screen whatever has happened to it: while
    the interval is set nothing is scheduled or called and the text is not
    finished; at most one completion is scheduled or was called, and then
    the whole text is shown and the interval is cleared. *)
Definition settled (st : Welcome.State) : Prop :=
  (Welcome.intervalSet st = true ->
   Welcome.timeouts st = [] /\ Welcome.completions st = 0
   /\ Welcome.index st < String.length Welcome.text)
  /\ length (Welcome.timeouts st) + Welcome.completions st <= 1
  /\ (0 < length (Welcome.timeouts st) + Welcome.completions st ->
      Welcome.displayedText st = Welcome.text
      /\ Welcome.intervalSet st = false).

End WelcomeView.

Module FlamesOrder.

Import Flames.

(** The loop of [removeCommonFrom] read along the first array. *)
Fixpoint removeCommonAlong (n1 n2 : list CodeUnit)
  : list CodeUnit * list CodeUnit :=
  match n1 with
  | [] => ([], n2)
  | c :: rest =>
      match indexOf c n2 with
      | Some index =>
          let '(r1, r2) := removeCommonAlong rest (setAt index star n2) in
          (star :: r1, r2)
      | None =>
          let '(r1, r2) := removeCommonAlong rest n2 in
          (c :: r1, r2)
      end
  end.

(** The status a result carries, if there is one. *)
Definition statusOf (r : Run (option FlamesResult)) : option string :=
  match r with
  | Done (Some result) => Some (status result)
  | _ => None
  end.

End FlamesOrder.

Module LiveChatView.

Import LiveChat.

(** All the effects that [m] adds to the trace satisfy [P]. *)
Definition Emits {TL : Timeline} {A : Type} (P : Effect -> bool) (m : M A) : Prop :=
  forall w,
    exists new,
      trace (browser (snd (m w))) = (new ++ trace (browser w))%list
      /\ forallb P (map snd new) = true.

Definition isConsole {TL : Timeline} (e : Effect) : bool :=
  match e with
  | ConsoleLog _ | ConsoleWarn _ | ConsoleError _ => true
  | _ => false
  end.

Definition notConnect {TL : Timeline} (e : Effect) : bool :=
  match e with LiveConnect _ _ _ => false | _ => true end.

Definition notSend {TL : Timeline} (e : Effect) : bool :=
  match e with SendRealtimeInput _ _ => false | _ => true end.

(** The events that the connection and the audio graph deliver. *)
Definition isCallback {TL : Timeline} (ev : Event) : bool :=
  match ev with
  | Open | Message _ _ | Close | Error | AudioProcess _ _ | Ended _ => true
  | _ => false
  end.

(** The component holds no session: what [stopSession] leaves in the refs. *)
Definition noSession {TL : Timeline} (w : World) : Prop :=
  inputAudioContextRef (refs w) = None
  /\ outputAudioContextRef (refs w) = None
  /\ streamRef (refs w) = None
  /\ sessionPromiseRef (refs w) = None
  /\ sourcesRef (refs w) = [].

(** The failures that the component itself reports as a problem of
    authentication or of access: the first two branches of
    [getFriendlyErrorMessage]. *)
Definition reportsAuthFailure (err : JsError) : bool :=
  String.eqb (getFriendlyErrorMessage err)
             "Authentication failed. Please check your API Key configuration."
  || String.eqb (getFriendlyErrorMessage err)
                "Access denied. Your API Key may not have permission to use this model.".

(** The stream in [streamRef] is there and active: the test [startSession]
    makes before it asks for the microphone. *)
Definition holdsActiveStream {TL : Timeline} (w : World) : bool :=
  match streamRef (refs w) with Some s => active s | None => false end.

(** What the component renders: the setup screen [if (!connected &&
    !isRetrying)], the session view otherwise. *)
Inductive Screen := SetupScreen | SessionScreen.

Definition screen (u : UiState) : Screen :=
  if negb (connected u) && negb (isRetrying u) then SetupScreen
  else SessionScreen.

(** The text of the status line of the session view. *)
Definition statusLine (u : UiState) : string :=
  let shown := match error u with
               | Some e => Js.truthy e
               | None => false
               end in
  let e := match error u with Some e => e | None => EmptyString end in
  if isRetrying u then
    "Reconnecting... " ++ (if shown then "(" ++ e ++ ")" else EmptyString)
  else if shown then e
  else "Tap " ++ Js.dquote ++ "End Call" ++ Js.dquote ++ " to finish".

(** The events the rendered controls let the user cause: the language and
    mode buttons and the start button (disabled without a language) are on
    the setup screen, the End Call button is on the session view. *)
Definition offered {TL : Timeline} (u : UiState) (ev : Event) : bool :=
  match ev, screen u with
  | SelectLanguage _, SetupScreen => true
  | SelectMode _, SetupScreen => true
  | StartConversation _, SetupScreen =>
      match selectedLanguage u with Some _ => true | None => false end
  | EndCall, SessionScreen => true
  | _, _ => false
  end.

End LiveChatView.

(** * Properties *)

Module ErrorFacts.

Import LiveChat.

Lemma prefix_toLowerCase (needle hay : string) :
  String.prefix needle hay = true ->
  String.prefix (Js.toLowerCase needle) (Js.toLowerCase hay) = true.
Proof.
  revert needle. induction hay as [|b hay IH]; intros needle Hprefix.
  - destruct needle; [reflexivity | discriminate].
  - destruct needle as [|a needle]; [reflexivity|].
    simpl in Hprefix. destruct (ascii_dec a b) as [->|]; [|discriminate].
    cbn [Js.toLowerCase String.prefix].
    destruct (ascii_dec (Js.lowerAscii b) (Js.lowerAscii b)); [|contradiction].
    apply IH, Hprefix.
Qed.

(** Lower-casing the text keeps what it contains, lower-cased. *)
Lemma includes_toLowerCase (needle hay : string) :
  Js.includes needle hay = true ->
  Js.includes (Js.toLowerCase needle) (Js.toLowerCase hay) = true.
Proof.
  induction hay as [|b hay IH]; intros Hin.
  - cbn [Js.includes] in Hin. rewrite orb_false_r in Hin.
    apply prefix_toLowerCase in Hin.
    cbn [Js.includes Js.toLowerCase] in *. rewrite Hin. reflexivity.
  - cbn [Js.includes] in Hin. apply orb_prop in Hin.
    cbn [Js.includes Js.toLowerCase]. apply orb_true_intro.
    destruct Hin as [Hin|Hin].
    + left. exact (prefix_toLowerCase _ _ Hin).
    + right. apply IH, Hin.
Qed.

(** What the retry loop takes for fatal, the component reports as a problem
    of authentication or of access. *)
Lemma fatal_reportsAuthFailure (err : JsError) :
  isFatal err = true -> LiveChatView.reportsAuthFailure err = true.
Proof.
  unfold isFatal, LiveChatView.reportsAuthFailure, getFriendlyErrorMessage.
  destruct (message err) as [m|]; [|discriminate].
  intros Hfatal.
  assert (Htruthy : Js.truthy m = true) by (destruct m; [discriminate | reflexivity]).
  rewrite Htruthy. cbv zeta.
  pose proof (includes_toLowerCase "401" m) as H401.
  pose proof (includes_toLowerCase "API key" m) as Hkey.
  pose proof (includes_toLowerCase "Permission denied" m) as Hdenied.
  change (Js.toLowerCase "401") with "401" in H401.
  change (Js.toLowerCase "API key") with "api key" in Hkey.
  change (Js.toLowerCase "Permission denied") with "permission denied" in Hdenied.
  destruct (Js.includes "401" (Js.toLowerCase m)
            || Js.includes "unauthenticated" (Js.toLowerCase m)
            || Js.includes "api key" (Js.toLowerCase m)) eqn:Hauth;
    [reflexivity|].
  apply orb_false_elim in Hauth. destruct Hauth as [Hauth Hnokey].
  apply orb_false_elim in Hauth. destruct Hauth as [Hno401 _].
  apply orb_prop in Hfatal. destruct Hfatal as [Hfatal|Hfatal].
  - apply orb_prop in Hfatal. destruct Hfatal as [Hfatal|Hfatal].
    + rewrite (H401 Hfatal) in Hno401. discriminate.
    + rewrite (Hkey Hfatal) in Hnokey. discriminate.
  - rewrite (Hdenied Hfatal), orb_true_r. reflexivity.
Qed.

(** A failure that is not reported so is not fatal to the retry loop. *)
Lemma transient_not_fatal (err : JsError) :
  LiveChatView.reportsAuthFailure err = false -> isFatal err = false.
Proof.
  intros Hnot. destruct (isFatal err) eqn:Hfatal; [|reflexivity].
  rewrite (fatal_reportsAuthFailure err Hfatal) in Hnot. discriminate.
Qed.

End ErrorFacts.

(** ** The FLAMES game *)

Module FlamesFacts.

Import Flames.

Lemma splice1_length {A : Type} (i : nat) (arr : list A) :
  i < length arr -> S (length (splice1 i arr)) = length arr.
Proof.
  revert i. induction arr as [|x rest IH]; intros i Hi; simpl in *.
  - lia.
  - destruct i as [|j]; simpl; [reflexivity|].
    rewrite IH by lia. reflexivity.
Qed.

Lemma splice1_In {A : Type} (i : nat) (arr : list A) (x : A) :
  In x (splice1 i arr) -> In x arr.
Proof.
  revert i. induction arr as [|y rest IH]; intros i Hx.
  - destruct i; simpl in Hx; contradiction.
  - destruct i as [|j]; simpl in Hx.
    + right. assumption.
    + destruct Hx as [Hx|Hx]; [left; assumption | right; eapply IH; eassumption].
Qed.

(** A round of the loop takes exactly one entry out. *)
Lemma eliminationRound_length (count idx : nat) (activeFlames : list string) :
  1 < length activeFlames ->
  S (length (snd (eliminationRound count idx activeFlames))) = length activeFlames.
Proof.
  intros Hlen. unfold eliminationRound. simpl.
  apply splice1_length. apply Nat.mod_upper_bound. lia.
Qed.

(** The loop ends within [length activeFlames - 1] rounds, with one of the
    entries it started from. *)
Lemma eliminate_terminates (fuel count idx : nat) (activeFlames : list string) :
  1 <= length activeFlames ->
  length activeFlames <= S fuel ->
  exists c, eliminate fuel count idx activeFlames = Some [c] /\ In c activeFlames.
Proof.
  revert idx activeFlames.
  induction fuel as [|fuel IH]; intros idx activeFlames Hpos Hlen.
  - destruct activeFlames as [|c [|d rest]]; simpl in *; try lia.
    exists c. split; [reflexivity | left; reflexivity].
  - destruct (Nat.ltb_spec 1 (length activeFlames)) as [Hgt|Hle].
    + pose proof (eliminationRound_length count idx activeFlames Hgt) as Hround.
      destruct (IH (fst (eliminationRound count idx activeFlames))
                   (snd (eliminationRound count idx activeFlames)))
        as [c [Hc Hin]]; try lia.
      exists c. split.
      * cbn [eliminate].
        destruct (Nat.ltb_spec 1 (length activeFlames)) as [_|Hno]; [|lia].
        destruct (eliminationRound count idx activeFlames) as [idx' rest].
        exact Hc.
      * unfold eliminationRound in Hin. simpl in Hin.
        eapply splice1_In. eassumption.
    + destruct activeFlames as [|c [|d rest]]; simpl in *; try lia.
      exists c. split; [reflexivity | left; reflexivity].
Qed.

Lemma classify_letter (c : string) (count : nat) :
  In c splitFlames ->
  In (status (classify (Some c) count)) flames
  /\ status (classify (Some c) count) <> "Unknown"
  /\ score (classify (Some c) count) = count.
Proof.
  intros Hin. simpl in Hin.
  repeat (destruct Hin as [<-|Hin];
          [cbn; repeat split; [tauto | discriminate] |]).
  contradiction.
Qed.

(** C9, as the code has it.  For every pair of names that pass the guard of
    [calculateFlames] (neither is blank, that is, empty once trimmed), the
    calculation ends within five elimination rounds, each of which takes exactly one category out, until
    one is left, and sets a result whose status is one of Friends, Lovers,
    Affection, Marriage, Enemies and Siblings, never Unknown; the score is
    the overlap count, and a count of 0 gives Siblings with score 0. *)
Theorem calculateFlames_total
        (toLowerCase : JsString -> JsString) (fuel : nat) (name1 name2 : JsString) :
  5 <= fuel ->
  trim name1 <> [] ->
  trim name2 <> [] ->
  exists r,
    calculateFlames toLowerCase fuel name1 name2 = Done (Some r)
    /\ In (status r) flames
    /\ status r <> "Unknown"
    /\ score r = overlapCount toLowerCase name1 name2
        /\ (overlapCount toLowerCase name1 name2 = 0 ->
        status r = "Siblings" /\ score r = 0)
    /\ (0 < overlapCount toLowerCase name1 name2 ->
        exists c,
          eliminate fuel (overlapCount toLowerCase name1 name2) 0 splitFlames
          = Some [c]
          /\ In c splitFlames)
    /\ (forall idx activeFlames,
          1 < length activeFlames ->
          S (length (snd (eliminationRound (score r) idx activeFlames)))
          = length activeFlames).
Proof.
  intros Hfuel H1 H2. unfold calculateFlames.
  destruct (trim name1) as [|a1 t1]; [contradiction|].
  destruct (trim name2) as [|a2 t2]; [contradiction|].
  set (count := overlapCount toLowerCase name1 name2).
  destruct (Nat.ltb_spec 0 count) as [Hpos|Hzero].
  - destruct (eliminate_terminates fuel count 0 splitFlames) as [c [Hc Hin]];
      [simpl; lia | simpl; lia |].
    rewrite Hc. cbn [nth_error].
    destruct (classify_letter c count Hin) as [Hs [Hu Hsc]].
    exists (classify (Some c) count).
    split; [reflexivity|]. split; [exact Hs|]. split; [exact Hu|].
    split; [exact Hsc|]. split; [lia|].
    split; [intros _; exists c; split; [reflexivity | exact Hin]|].
    intros idx activeFlames Hlen. apply eliminationRound_length. assumption.
  - exists (classify (Some "S") count).
    split; [reflexivity|]. split; [cbn; tauto|]. split; [cbn; discriminate|].
    split; [reflexivity|]. split; [intros _; cbn; split; [reflexivity | lia]|].
    split; [lia|].
    intros idx activeFlames Hlen. apply eliminationRound_length. assumption.
Qed.

Lemma calculateFlames_total_witness :
  exists r,
    calculateFlames toLowerCaseAscii 5 (ofString "Romeo") (ofString " Juliet ")
    = Done (Some r)
    /\ In (status r) flames
    /\ status r <> "Unknown"
    /\ score r = overlapCount toLowerCaseAscii (ofString "Romeo") (ofString " Juliet ")
        /\ (overlapCount toLowerCaseAscii (ofString "Romeo") (ofString " Juliet ") = 0 ->
        status r = "Siblings" /\ score r = 0)
    /\ (0 < overlapCount toLowerCaseAscii (ofString "Romeo") (ofString " Juliet ") ->
        exists c,
          eliminate 5 (overlapCount toLowerCaseAscii (ofString "Romeo")
                                    (ofString " Juliet ")) 0 splitFlames
          = Some [c]
          /\ In c splitFlames)
    /\ (forall idx activeFlames,
          1 < length activeFlames ->
          S (length (snd (eliminationRound (score r) idx activeFlames)))
          = length activeFlames).
Proof.
  apply (calculateFlames_total toLowerCaseAscii 5 (ofString "Romeo") (ofString " Juliet ")).
  - lia.
  - vm_compute. discriminate.
  - vm_compute. discriminate.
Defined.

(** C9 as the specification words it fails: a name of one space is not
    empty, yet the guard returns and no result is set. *)
Lemma blank_name_counterexample :
  ofString " " <> []
  /\ ofString "Juliet" <> []
  /\ calculateFlames toLowerCaseAscii 5 (ofString " ") (ofString "Juliet")
     = Done None
  /\ ~ (exists r,
          calculateFlames toLowerCaseAscii 5 (ofString " ") (ofString "Juliet")
          = Done (Some r)).
Proof.
  split; [discriminate|]. split; [discriminate|].
  split; [reflexivity|]. intros (r & Hr). discriminate Hr.
Qed.

(** The guard: a name of white space only leaves the result as it was. *)
Example calculateFlames_blank_name :
  calculateFlames toLowerCaseAscii 5 (ofString "  ") (ofString "Juliet") = Done None.
Proof. reflexivity. Qed.

Example calculateFlames_same_name :
  calculateFlames toLowerCaseAscii 5 (ofString "Anna") (ofString "n a N a")
  = Done (Some {| status := "Siblings";
                  description := "A bond as deep as family, or soulmates in disguise.";
                  score := 0 |}).
Proof. reflexivity. Qed.

(** Four rounds are not enough: the loop takes five. *)
Example calculateFlames_needs_five_rounds :
  calculateFlames toLowerCaseAscii 4 (ofString "ab") (ofString "c") = OutOfFuel.
Proof. reflexivity. Qed.

End FlamesFacts.

(** ** The voice-chat session *)

Module LiveChatFacts.

Import LiveChat.

(** *** Configuration *)

(** C6. The configuration sent at connect is a function of the language and
    the mode: for every language, mode mama gives the voice Puck and an
    instruction that says the voice is MALE and names the language, and mode
    love gives the voice Kore and an instruction that says the voice is
    FEMALE and names the language. *)
Theorem sessionConfig_by_mode (lang : Language) :
  voiceName (sessionConfig lang mama) = "Puck"
  /\ Js.includes "Your voice is MALE."
       (systemInstruction (sessionConfig lang mama)) = true
  /\ Js.includes ("You speak " ++ languageText lang)
       (systemInstruction (sessionConfig lang mama)) = true
  /\ Js.includes ("Speak ONLY in " ++ languageText lang)
       (systemInstruction (sessionConfig lang mama)) = true
  /\ voiceName (sessionConfig lang love) = "Kore"
  /\ Js.includes "Your voice is FEMALE."
       (systemInstruction (sessionConfig lang love)) = true
  /\ Js.includes ("You speak " ++ languageText lang)
       (systemInstruction (sessionConfig lang love)) = true
  /\ Js.includes ("Speak ONLY in " ++ languageText lang)
       (systemInstruction (sessionConfig lang love)) = true.
Proof.
  destruct lang; vm_compute; repeat split; reflexivity.
Qed.

Example sessionConfig_english_mama :
  voiceName (sessionConfig English mama) = "Puck"
  /\ Js.includes "MALE" (systemInstruction (sessionConfig English mama)) = true
  /\ Js.includes "English" (systemInstruction (sessionConfig English mama)) = true.
Proof. vm_compute. repeat split; reflexivity. Qed.

Example sessionConfig_tamil_love :
  voiceName (sessionConfig Tamil love) = "Kore"
  /\ Js.includes "FEMALE" (systemInstruction (sessionConfig Tamil love)) = true
  /\ Js.includes "Tamil" (systemInstruction (sessionConfig Tamil love)) = true.
Proof. vm_compute. repeat split; reflexivity. Qed.

Section Facts.

Context {TL : Timeline} {AU : AudioUtils}.

(** *** Running the monad *)

Lemma bind_run {A B} (m : M A) (k : A -> M B) (w w' : World) (a : A) :
  m w = (Ret a, w') -> bind m k w = k a w'.
Proof. intros H. unfold bind. rewrite H. reflexivity. Qed.

Lemma bind_readRef {A B} (cell : Refs -> A) (k : A -> M B) (w : World) :
  bind (readRef cell) k w = k (cell (refs w)) w.
Proof. reflexivity. Qed.


Lemma bind_getBrowser {B} (k : Browser -> M B) (w : World) :
  bind getBrowser k w = k (browser w) w.
Proof. reflexivity. Qed.

Lemma effectsSince_app (w w' : World) (new : list (N * Effect)) :
  trace (browser w') = (new ++ trace (browser w))%list ->
  effectsSince w w' = map snd new.
Proof.
  intros H. unfold effectsSince. rewrite H, length_app.
  replace (length new + length (trace (browser w)) - length (trace (browser w)))
    with (length new + 0) by lia.
  rewrite firstn_app_2. cbn. rewrite app_nil_r. reflexivity.
Qed.

(** The connect promise that [connectWithRetry] hands to [live.connect] is
    configured by [sessionConfig]. *)
Lemma connectWithRetry_config (lang : Language) (mode : Mode) (attempt : nat)
      (w : World) :
  aiClientRef (refs w) = true ->
  hd_error (effectsSince w (exec (connectWithRetry lang mode attempt) w))
  = Some (LiveConnect (length (promises (browser w))) attempt
                      (sessionConfig lang mode)).
Proof.
  intros Hclient. destruct w as [u r b]. simpl in Hclient.
  rewrite (effectsSince_app _ _
             [(clock b, LiveConnect (length (promises b)) attempt
                                    (sessionConfig lang mode));
              (clock b, ConsoleLog (startingSessionText lang mode attempt))]).
  - reflexivity.
  - unfold exec, connectWithRetry, tryCatch, bind, liveConnect.
    destruct (0 <? attempt); cbn; rewrite Hclient; cbn; destruct mode; reflexivity.
Qed.

(** *** Release operations *)

Lemma releaseStep_refl (w : World) : releaseStep w w.
Proof.
  unfold releaseStep. repeat split; try reflexivity.
  - apply incl_refl.
  - exists []. split; reflexivity.
Qed.

Lemma releaseStep_trans (w1 w2 w3 : World) :
  releaseStep w1 w2 -> releaseStep w2 w3 -> releaseStep w1 w3.
Proof.
  intros (Hu1 & Hr1 & Hp1 & Ht1 & Hc1 & Hf1 & Hn1 & Hi1 & rel1 & Htr1 & Hall1)
         (Hu2 & Hr2 & Hp2 & Ht2 & Hc2 & Hf2 & Hn2 & Hi2 & rel2 & Htr2 & Hall2).
  unfold releaseStep. repeat split; try congruence.
  - eapply incl_tran; eassumption.
  - exists (rel2 ++ rel1)%list. split.
    + rewrite Htr2, Htr1. apply app_assoc.
    + rewrite map_app, forallb_app, Hall1, Hall2. reflexivity.
Qed.

Lemma Releases_ret {A} (a : A) : Releases (ret a).
Proof. intros w. apply releaseStep_refl. Qed.

Lemma Releases_throw {A} (e : JsError) : Releases (@throw _ A e).
Proof. intros w. apply releaseStep_refl. Qed.

Lemma Releases_readRef {A} (cell : Refs -> A) : Releases (readRef cell).
Proof. intros w. apply releaseStep_refl. Qed.

Lemma Releases_getBrowser : Releases getBrowser.
Proof. intros w. apply releaseStep_refl. Qed.

Lemma Releases_isFaulty (id : nat) : Releases (isFaulty id).
Proof. intros w. apply releaseStep_refl. Qed.

Lemma Releases_bind {A B} (m : M A) (k : A -> M B) :
  Releases m -> (forall a, Releases (k a)) -> Releases (bind m k).
Proof.
  intros Hm Hk w. unfold bind. specialize (Hm w).
  destruct (m w) as [[a|e] w1]; simpl in Hm.
  - eapply releaseStep_trans; [exact Hm | apply Hk].
  - exact Hm.
Qed.

Lemma Releases_tryCatch {A} (body : M A) (handler : JsError -> M A) :
  Releases body -> (forall e, Releases (handler e)) -> Releases (tryCatch body handler).
Proof.
  intros Hb Hh w. unfold tryCatch. specialize (Hb w).
  destruct (body w) as [[a|e] w1]; simpl in Hb.
  - exact Hb.
  - eapply releaseStep_trans; [exact Hb | apply Hh].
Qed.

Lemma Releases_emit (e : Effect) : isRelease e = true -> Releases (emit e).
Proof.
  intros He w. unfold releaseStep. cbn. repeat split; try reflexivity.
  - apply incl_refl.
  - exists [(clock (browser w), e)]. cbn. rewrite He. split; reflexivity.
Qed.

Lemma Releases_untap (id : nat) :
  Releases (modifyBrowser (fun b => withTapped (removeId id (tapped b)) b)).
Proof.
  intros w. unfold releaseStep. cbn. repeat split; try reflexivity.
  - intros x Hx. unfold removeId in Hx. apply filter_In in Hx. tauto.
  - exists []. split; reflexivity.
Qed.

Lemma Releases_forEach {A} (items : list A) (f : A -> M unit) :
  (forall x, Releases (f x)) -> Releases (forEach items f).
Proof.
  intros Hf. induction items as [|x rest IH]; cbn [forEach].
  - apply Releases_ret.
  - apply Releases_bind; [apply Hf | intros _; exact IH].
Qed.

Ltac releases :=
  repeat first
    [ apply Releases_ret
    | apply Releases_throw
    | apply Releases_readRef
    | apply Releases_getBrowser
    | apply Releases_isFaulty
    | apply Releases_untap
    | apply Releases_emit; reflexivity
    | apply Releases_forEach; intros ?
    | apply Releases_tryCatch; [| intros ?]
    | apply Releases_bind; [| intros ?]
    | match goal with
      | |- Releases (match ?x with _ => _ end) => destruct x
      end
    | progress unfold closeContext, trackStop, nodeDisconnect, sourceStop ].

Lemma Returns_ret {A} (a : A) : Returns (ret a).
Proof. intros w. exists a. reflexivity. Qed.

Lemma Returns_readRef {A} (cell : Refs -> A) : Returns (readRef cell).
Proof. intros w. eexists. reflexivity. Qed.

Lemma Returns_getBrowser : Returns getBrowser.
Proof. intros w. eexists. reflexivity. Qed.

Lemma Returns_isFaulty (id : nat) : Returns (isFaulty id).
Proof. intros w. eexists. reflexivity. Qed.

Lemma Returns_emit (e : Effect) : Returns (emit e).
Proof. intros w. eexists. reflexivity. Qed.

Lemma Returns_bind {A B} (m : M A) (k : A -> M B) :
  Returns m -> (forall a, Returns (k a)) -> Returns (bind m k).
Proof.
  intros Hm Hk w. unfold bind. destruct (Hm w) as [a Ha].
  destruct (m w) as [[a'|e] w1]; simpl in Ha; [|discriminate].
  apply Hk.
Qed.

Lemma Returns_tryCatch {A} (body : M A) (handler : JsError -> M A) :
  (forall e, Returns (handler e)) -> Returns (tryCatch body handler).
Proof.
  intros Hh w. unfold tryCatch.
  destruct (body w) as [[a|e] w1].
  - exists a. reflexivity.
  - apply Hh.
Qed.

Lemma Returns_forEach {A} (items : list A) (f : A -> M unit) :
  (forall x, Returns (f x)) -> Returns (forEach items f).
Proof.
  intros Hf. induction items as [|x rest IH]; cbn [forEach].
  - apply Returns_ret.
  - apply Returns_bind; [apply Hf | intros _; exact IH].
Qed.

Ltac returns :=
  repeat first
    [ apply Returns_ret
    | apply Returns_readRef
    | apply Returns_getBrowser
    | apply Returns_isFaulty
    | apply Returns_emit
    | apply Returns_forEach; intros ?
    | apply Returns_tryCatch; intros ?
    | apply Returns_bind; [| intros ?]
    | match goal with
      | |- Returns (match ?x with _ => _ end) => destruct x
      end
    | progress unfold closeContext ].

(** A block of release operations that returns hands an equivalent world to
    what follows it. *)
Lemma release_then {A B} (m : M A) (k : A -> M B) (w : World) :
  Releases m ->
  (exists a, fst (m w) = Ret a) ->
  exists a w', releaseStep w w' /\ bind m k w = k a w'.
Proof.
  intros Hrel [a Ha]. specialize (Hrel w). unfold bind.
  destruct (m w) as [[a'|e] w']; simpl in *; [|discriminate].
  exists a', w'. split; [exact Hrel | reflexivity].
Qed.

(** Stopping tracks that do not fail returns. *)
Lemma forEach_trackStop_returns (ids : list nat) (w : World) :
  (forall id, In id ids -> existsb (Nat.eqb id) (faulty (browser w)) = false) ->
  fst (forEach ids trackStop w) = Ret tt.
Proof.
  revert w. induction ids as [|id rest IH]; intros w Hok; [reflexivity|].
  cbn [forEach]. unfold bind at 1.
  assert (Hid : existsb (Nat.eqb id) (faulty (browser w)) = false)
    by (apply Hok; left; reflexivity).
  unfold trackStop, bind, emit, isFaulty, modifyBrowser, getBrowser, ret.
  cbn. rewrite Hid. cbn.
  apply IH. intros id' Hin. cbn. apply Hok. right. exact Hin.
Qed.

Lemma connectAttempts_released (w w' : World) (rel : list (N * Effect)) :
  trace (browser w') = (rel ++ trace (browser w))%list ->
  forallb isRelease (map snd rel) = true ->
  connectAttempts w' = connectAttempts w.
Proof.
  intros Htr Hall.
  unfold connectAttempts. rewrite Htr, rev_app_distr, flat_map_app.
  replace (flat_map _ (rev rel)) with (@nil (N * nat)).
  - apply app_nil_r.
  - symmetry. clear Htr. induction rel as [|[t e] rest IH]; [reflexivity|].
    cbn in Hall. apply andb_prop in Hall as [He Hrest].
    cbn [rev]. rewrite flat_map_app, IH by exact Hrest. cbn.
    destruct e; try discriminate; reflexivity.
Qed.

Lemma connectAttempts_release (w w' : World) :
  releaseStep w w' -> connectAttempts w' = connectAttempts w.
Proof.
  intros (_ & _ & _ & _ & _ & _ & _ & _ & rel & Htr & Hall).
  eapply connectAttempts_released; eassumption.
Qed.

(** *** [stopSession] *)

Ltac release_step Hrun Hrel :=
  lazymatch type of Hrun with
  | _ = bind ?m ?k ?w =>
      let a := fresh "a" in
      let w' := fresh "w" in
      let Hstep := fresh "Hstep" in
      let Hnew := fresh "Hnew" in
      let E := fresh "E" in
      destruct (release_then m k w) as (a & w' & Hstep & E);
      [ releases
      | try (apply (ltac:(returns) : Returns m))
      | rewrite E in Hrun; clear E; cbv beta in Hrun;
        pose proof (releaseStep_trans _ _ _ Hrel Hstep) as Hnew;
        clear Hrel Hstep; rename Hnew into Hrel ]
  end.

Lemma stopSession_run (w : World) :
  tracksStop w ->
  exists w',
    stopSession w = (Ret tt, w')
    /\ ui w' = {| connected := false; error := error (ui w); isTalking := false;
                  isRetrying := false; selectedLanguage := selectedLanguage (ui w);
                  selectedMode := selectedMode (ui w) |}
    /\ refs w' = {| inputAudioContextRef := None; outputAudioContextRef := None;
                    streamRef := None; processorRef := None;
                    inputSourceRef := inputSourceRef (refs w);
                    sessionPromiseRef := None; nextStartTimeRef := tzero;
                    aiClientRef := aiClientRef (refs w); sourcesRef := [];
                    userInitiatedDisconnect := true |}
    /\ promises (browser w') = promises (browser w)
    /\ timers (browser w') = timers (browser w)
    /\ clock (browser w') = clock (browser w)
    /\ faulty (browser w') = faulty (browser w)
    /\ nextId (browser w') = nextId (browser w)
    /\ incl (tapped (browser w')) (tapped (browser w))
    /\ exists released,
         trace (browser w') = (released ++ trace (browser w))%list
         /\ forallb isRelease (map snd released) = true.
Proof.
  intros Htracks.
  remember (stopSession w) as result eqn:Hrun.
  unfold stopSession in Hrun.
  rewrite (bind_run (putUserInitiatedDisconnect true) _ w _ tt eq_refl) in Hrun.
  match type of Hrun with
  | _ = _ ?x => set (w1 := x) in *; pose proof (releaseStep_refl w1) as Hrel
  end.
  (* the two audio contexts *)
  rewrite bind_readRef in Hrun. release_step Hrun Hrel.
  rewrite bind_readRef in Hrun. release_step Hrun Hrel.
  (* the tracks *)
  rewrite bind_readRef in Hrun. release_step Hrun Hrel.
  { destruct Hrel as (_ & Hr & _ & _ & _ & Hf & _).
    rewrite Hr. cbn [w1 refs streamRef].
    destruct (streamRef (refs w)) as [stream|] eqn:Hstream.
    - exists tt. apply forEach_trackStop_returns. intros id Hin.
      rewrite Hf. cbn [w1 browser]. eapply Htracks; eassumption.
    - exists tt. reflexivity. }
  (* the nodes and the sources *)
  release_step Hrun Hrel.
  rewrite bind_readRef in Hrun. release_step Hrun Hrel.
  destruct Hrel as (Hu & Hr & Hp & Ht & Hc & Hf & Hn & Hi & rel & Htr & Hall).
  cbn in Hrun.
  eexists. split; [exact Hrun|].
  cbn. rewrite Hu, Hr, Hp, Ht, Hc, Hf, Hn. cbn.
  repeat split; try reflexivity.
  - exact Hi.
  - exists rel. split; assumption.
Qed.


(** *** The retry policy *)

Lemma tryCatch_ret {A} (body : M A) (handler : JsError -> M A) (w w' : World) (a : A) :
  body w = (Ret a, w') -> tryCatch body handler w = (Ret a, w').
Proof. intros H. unfold tryCatch. rewrite H. reflexivity. Qed.

(** The [catch] of [connectWithRetry] on a failure that is retried. *)
Lemma connectWithRetry_catch_retries (lang : Language) (mode : Mode)
      (attempt : nat) (err : JsError) (w : World) :
  isFatal err = false ->
  attempt < MAX_RETRIES ->
  userInitiatedDisconnect (refs w) = false ->
  connectWithRetry_catch lang mode attempt err w
  = (Ret tt,
     {| ui := ui w;
        refs := refs w;
        browser :=
          withTimers
            (timers (browser w)
             ++ [{| tLanguage := lang; tMode := mode; tAttempt := attempt + 1;
                    tDue := (clock (browser w) + RETRY_DELAY_MS)%N |}])
            (withTrace
               ((clock (browser w), SetTimeout (attempt + 1) RETRY_DELAY_MS)
                :: (clock (browser w), ConsoleError (attemptFailedText attempt))
                :: trace (browser w))
               (browser w)) |}).
Proof.
  intros Hfatal Hlimit Hflag.
  apply Nat.ltb_lt in Hlimit.
  unfold connectWithRetry_catch, bind, emit, readRef, modifyBrowser.
  cbn [fst snd refs]. rewrite Hflag, Hfatal, Hlimit. reflexivity.
Qed.

(** The [catch] of [connectWithRetry] on a failure that is not retried. *)
Lemma connectWithRetry_catch_gives_up (lang : Language) (mode : Mode)
      (attempt : nat) (err : JsError) (w : World) :
  negb (isFatal err) && (attempt <? MAX_RETRIES)
  && negb (userInitiatedDisconnect (refs w)) = false ->
  tracksStop w ->
  exists w',
    connectWithRetry_catch lang mode attempt err w = (Ret tt, w')
    /\ ui w' = {| connected := false;
                  error := Some (getFriendlyErrorMessage err);
                  isTalking := false; isRetrying := false;
                  selectedLanguage := selectedLanguage (ui w);
                  selectedMode := selectedMode (ui w) |}
    /\ refs w' = {| inputAudioContextRef := None; outputAudioContextRef := None;
                    streamRef := None; processorRef := None;
                    inputSourceRef := inputSourceRef (refs w);
                    sessionPromiseRef := None; nextStartTimeRef := tzero;
                    aiClientRef := aiClientRef (refs w); sourcesRef := [];
                    userInitiatedDisconnect := true |}
    /\ promises (browser w') = promises (browser w)
    /\ timers (browser w') = timers (browser w)
    /\ clock (browser w') = clock (browser w)
    /\ connectAttempts w' = connectAttempts w.
Proof.
  intros Hcond Htracks.
  unfold connectWithRetry_catch, bind at 1 2, emit, readRef, modifyBrowser.
  cbn [fst snd refs]. rewrite Hcond.
  unfold bind at 1 2, setIsRetrying, setError, modifyUi. cbn [fst snd].
  match goal with
  | |- context [stopSession ?x] =>
      destruct (stopSession_run x)
        as (w' & Hrun & Hu & Hr & Hp & Ht & Hc & Hf & Hn & Hi & rel & Htr & Hall)
  end.
  { intros stream track Hs Hin. eapply Htracks; eassumption. }
  exists w'. rewrite Hrun. cbn in Hu, Hr, Hp, Ht, Hc, Htr.
  repeat split; try assumption.
  unfold connectAttempts. rewrite Htr.
  rewrite rev_app_distr, flat_map_app. cbn [rev browser trace withTrace].
  rewrite flat_map_app. cbn [flat_map snd app].
  rewrite app_nil_r.
  replace (flat_map _ (rev rel)) with (@nil (N * nat)); [apply app_nil_r|].
  symmetry. clear Htr. induction rel as [|[t e] more IH]; [reflexivity|].
  cbn in Hall. apply andb_prop in Hall as [He Hmore].
  cbn [rev]. rewrite flat_map_app, IH by exact Hmore. cbn.
  destruct e; try discriminate; reflexivity.
Qed.

(** The rejection of a pending connect promise runs the [catch] of the call
    that made it. *)
Lemma connectRejected_pending (promise : nat) (err : JsError) (w w' : World)
      (p : ConnectPromise) :
  nth_error (promises (browser w)) promise = Some p ->
  pState p = Pending ->
  connectWithRetry_catch (pLanguage p) (pMode p) (pAttempt p) err
    {| ui := ui w; refs := refs w;
       browser :=
         withPromises
           (Flames.setAt promise
              {| pLanguage := pLanguage p; pMode := pMode p; pAttempt := pAttempt p;
                 pState := Rejected; pWaiting := [] |}
              (promises (browser w)))
           (browser w) |}
  = (Ret tt, w') ->
  connectRejected promise err w = (Ret tt, w').
Proof.
  intros Hnth Hpending Hcatch.
  unfold connectRejected. rewrite bind_getBrowser, Hnth, Hpending.
  unfold bind at 1, setPromise, modifyBrowser. cbn [fst snd].
  destruct (pAttempt p =? 0).
  - apply tryCatch_ret. exact Hcatch.
  - exact Hcatch.
Qed.

(** [connectWithRetry] with a client at hand: the retry notice for a later
    attempt, and a new pending promise that becomes the current one. *)
Lemma connectWithRetry_connects (lang : Language) (mode : Mode) (attempt : nat)
      (w : World) :
  aiClientRef (refs w) = true ->
  exists w',
    connectWithRetry lang mode attempt w = (Ret tt, w')
    /\ ui w' = (if 0 <? attempt
                then {| connected := connected (ui w);
                        error := Some ("Connection lost. Retrying... ("
                                       ++ Js.ofNat attempt ++ "/"
                                       ++ Js.ofNat MAX_RETRIES ++ ")");
                        isTalking := isTalking (ui w); isRetrying := true;
                        selectedLanguage := selectedLanguage (ui w);
                        selectedMode := selectedMode (ui w) |}
                else ui w)
    /\ refs w' = {| inputAudioContextRef := inputAudioContextRef (refs w);
                    outputAudioContextRef := outputAudioContextRef (refs w);
                    streamRef := streamRef (refs w);
                    processorRef := processorRef (refs w);
                    inputSourceRef := inputSourceRef (refs w);
                    sessionPromiseRef := Some (length (promises (browser w)));
                    nextStartTimeRef := nextStartTimeRef (refs w);
                    aiClientRef := true;
                    sourcesRef := sourcesRef (refs w);
                    userInitiatedDisconnect := userInitiatedDisconnect (refs w) |}
    /\ browser w'
       = withTrace
           ((clock (browser w),
             LiveConnect (length (promises (browser w))) attempt
                         (sessionConfig lang mode))
            :: (clock (browser w), ConsoleLog (startingSessionText lang mode attempt))
            :: trace (browser w))
           (withPromises
              (promises (browser w)
               ++ [{| pLanguage := lang; pMode := mode; pAttempt := attempt;
                      pState := Pending; pWaiting := [] |}])
              (browser w)).
Proof.
  intros Hclient. destruct w as [u r b]. cbn in Hclient.
  unfold connectWithRetry, tryCatch, bind, liveConnect.
  destruct (0 <? attempt); cbn; rewrite Hclient; cbn;
    (eexists; split; [reflexivity|]); cbn;
    destruct r; cbn in *; subst; destruct mode; repeat split; reflexivity.
Qed.

(** A transient failure below the retry limit: the retry is scheduled
    [RETRY_DELAY_MS] after the failure, and when its timer fires the next
    attempt is made. *)
Lemma settle_retry (w : World) (lang : Language) (mode : Mode) (attempt : nat)
      (latency : N) (err : JsError) (rest : list Attempt) :
  attemptInFlight w lang mode attempt ->
  isFatal err = false ->
  attempt < MAX_RETRIES ->
  exists w',
    settle (Fails latency err :: rest) w = settle rest w'
    /\ attemptInFlight w' lang mode (attempt + 1)
    /\ connectAttempts w'
       = (connectAttempts w
          ++ [((clock (browser w) + latency + RETRY_DELAY_MS)%N, attempt + 1)])%list
    /\ clock (browser w') = (clock (browser w) + latency + RETRY_DELAY_MS)%N
    /\ isRetrying (ui w') = true
    /\ selectedLanguage (ui w') = selectedLanguage (ui w)
    /\ selectedMode (ui w') = selectedMode (ui w)
    /\ inputSourceRef (refs w') = inputSourceRef (refs w).
Proof.
  intros ((promise & waiting & Hp & Hnth) & Htimers & Hflag & Hclient & Htracks)
         Hfatal Hlimit.
  cbn [settle]. rewrite Hp. cbn [run handle].
  set (w1 := exec (elapse latency) w).
  assert (Hrej : connectRejected promise err w1
                 = (Ret tt,
                    {| ui := ui w; refs := refs w;
                       browser :=
                         withTimers
                           [{| tLanguage := lang; tMode := mode;
                               tAttempt := attempt + 1;
                               tDue := (clock (browser w) + latency + RETRY_DELAY_MS)%N |}]
                           (withTrace
                              (((clock (browser w) + latency)%N,
                                SetTimeout (attempt + 1) RETRY_DELAY_MS)
                               :: ((clock (browser w) + latency)%N,
                                   ConsoleError (attemptFailedText attempt))
                               :: trace (browser w))
                              (withPromises
                                 (Flames.setAt promise
                                    {| pLanguage := lang; pMode := mode;
                                       pAttempt := attempt; pState := Rejected;
                                       pWaiting := [] |}
                                    (promises (browser w)))
                                 (withClock (clock (browser w) + latency)%N (browser w)))) |})).
  { eapply connectRejected_pending.
    - exact Hnth.
    - reflexivity.
    - cbn [pLanguage pMode pAttempt].
      rewrite connectWithRetry_catch_retries by assumption.
      cbn. rewrite Htimers. reflexivity. }
  unfold exec. rewrite Hrej. cbn [snd browser timers withTimers].
  unfold timerFired. rewrite bind_getBrowser.
  cbn [browser timers withTimers tLanguage tMode tAttempt tDue].
  unfold bind at 1, modifyBrowser. cbn [fst snd].
  match goal with
  | |- context [connectWithRetry lang mode (attempt + 1) ?x] =>
      destruct (connectWithRetry_connects lang mode (attempt + 1) x)
        as (w' & Hrun & Hu & Hr & Hb)
  end.
  { cbn. exact Hclient. }
  rewrite Hrun. cbn [snd]. exists w'. split; [reflexivity|].
  replace (0 <? attempt + 1) with true in Hu
    by (symmetry; apply Nat.ltb_lt; lia).
  cbn in Hr, Hb.
    assert (Hmax : N.max (clock (browser w) + latency)
                       (clock (browser w) + latency + RETRY_DELAY_MS)
                 = (clock (browser w) + latency + RETRY_DELAY_MS)%N) by lia.
  rewrite Hmax in Hb.
  repeat split.
  - exists (length (Flames.setAt promise
                      {| pLanguage := lang; pMode := mode; pAttempt := attempt;
                         pState := Rejected; pWaiting := [] |}
                      (promises (browser w)))), [].
    rewrite Hr, Hb. cbn. split; [reflexivity|].
    rewrite nth_error_app2, Nat.sub_diag by lia. reflexivity.
  - rewrite Hb. reflexivity.
  - rewrite Hr. cbn. exact Hflag.
  - rewrite Hr. reflexivity.
  - intros stream track Hs Hin. rewrite Hr in Hs. rewrite Hb. cbn in Hs |- *.
    eapply Htracks; eassumption.
  - unfold connectAttempts. rewrite Hb. cbn [trace withTrace rev].
    rewrite !flat_map_app. cbn [flat_map fst snd app].
    rewrite !app_nil_r. reflexivity.
  - rewrite Hb. reflexivity.
  - rewrite Hu. reflexivity.
  - rewrite Hu. reflexivity.
  - rewrite Hu. reflexivity.
  - rewrite Hr. reflexivity.
Qed.

(** A failure that is not retried ends the session. *)
Lemma settle_gives_up (w : World) (lang : Language) (mode : Mode) (attempt : nat)
      (latency : N) (err : JsError) (rest : list Attempt) :
  attemptInFlight w lang mode attempt ->
  negb (isFatal err) && (attempt <? MAX_RETRIES) = false ->
  exists w',
    settle (Fails latency err :: rest) w = w'
    /\ ui w' = {| connected := false;
                  error := Some (getFriendlyErrorMessage err);
                  isTalking := false; isRetrying := false;
                  selectedLanguage := selectedLanguage (ui w);
                  selectedMode := selectedMode (ui w) |}
    /\ refs w' = {| inputAudioContextRef := None; outputAudioContextRef := None;
                    streamRef := None; processorRef := None;
                    inputSourceRef := inputSourceRef (refs w);
                    sessionPromiseRef := None; nextStartTimeRef := tzero;
                    aiClientRef := true; sourcesRef := [];
                    userInitiatedDisconnect := true |}
    /\ timers (browser w') = []
    /\ connectAttempts w' = connectAttempts w.
Proof.
  intros ((promise & waiting & Hp & Hnth) & Htimers & Hflag & Hclient & Htracks)
         Hcond.
  cbn [settle]. rewrite Hp. cbn [run handle].
  set (w1 := exec (elapse latency) w).
  match goal with
  | |- context [exec (connectRejected promise err) w1] =>
      destruct (connectWithRetry_catch_gives_up lang mode attempt err
                  {| ui := ui w1; refs := refs w1;
                     browser :=
                       withPromises
                         (Flames.setAt promise
                            {| pLanguage := lang; pMode := mode;
                               pAttempt := attempt; pState := Rejected;
                               pWaiting := [] |}
                            (promises (browser w1)))
                         (browser w1) |})
        as (w' & Hrun & Hu & Hr & Hpr & Ht & Hc & Hca)
  end.
  { cbn [refs w1 exec snd elapse modifyBrowser]. rewrite Hcond. reflexivity. }
  { intros stream track Hs Hin. cbn in Hs |- *. eapply Htracks; eassumption. }
  assert (Hrej : connectRejected promise err w1 = (Ret tt, w')).
  { eapply connectRejected_pending.
    - exact Hnth.
    - reflexivity.
    - exact Hrun. }
  unfold exec. rewrite Hrej. cbn [snd].
  rewrite Ht. cbn. rewrite Htimers.
  exists w'. split; [reflexivity|].
  cbn in Hu, Hr, Hca. rewrite Hclient in Hr.
  repeat split; try assumption.
  rewrite Ht. cbn. exact Htimers.
Qed.

(** A session that was started with a key and a microphone has its first
    connection attempt in flight. *)
Lemma started_attemptInFlight (bad : list nat) (lang : Language) (mode : Mode)
      (env : StartEnv) (key : string) (stream : MediaStream) :
  apiKey env = Some key ->
  Js.truthy key = true ->
  userMedia env = inr stream ->
  (forall track, In track (tracks stream) -> existsb (Nat.eqb track) bad = false) ->
  attemptInFlight (started bad lang mode env) lang mode 0
  /\ connectAttempts (started bad lang mode env) = [(0%N, 0)]
  /\ clock (browser (started bad lang mode env)) = 0%N

  /\ selectedLanguage (ui (started bad lang mode env)) = Some lang
  /\ selectedMode (ui (started bad lang mode env)) = mode
  /\ inputSourceRef (refs (started bad lang mode env)) = None.
Proof.
  intros Hkey Htruthy Hmedia Htracks.
  destruct env as [k c m]. cbn in Hkey, Hmedia. subst k m.
  destruct key as [|a key]; [discriminate|].
  unfold attemptInFlight, tracksStop, connectAttempts.
  lazy - [existsb In Nat.eqb].
  repeat split; try reflexivity.
  - exists 0, []. split; reflexivity.
  - intros s track Hs Hin. injection Hs as <-.
    apply Htracks. exact Hin.
Qed.

(** C1, as the code has it.  A transient failure (one that is not a
    problem of authentication or of access in the component's own report)
    of attempt number [attempt < MAX_RETRIES = 3], when the user has not
    stopped, sets a timer of [RETRY_DELAY_MS = 2000] ms for attempt
    [attempt + 1] and changes nothing else.  When the first attempt and each
    of its three retries fail transiently (four failures in a row), exactly
    three retries are made, each 2000 ms after the failure before it, and
    the fourth failure ends the session: not connected, not retrying, no
    timer pending, the refs released, the last error shown.  When the first
    attempt fails with an authentication failure whose message has "401",
    "API key" or "Permission denied" in it, there is no retry.  What the
    loop does with the other authentication failures is not part of the
    statement. *)
Theorem retry_policy
        (bad : list nat) (lang : Language) (mode : Mode) (env : StartEnv)
        (key : string) (stream : MediaStream)
        (e0 e1 e2 e3 fatal err : JsError) (m : string)
        (l0 l1 l2 l3 lf : N) (attempt : nat)
        (more : list Attempt) (w : World) :
  apiKey env = Some key ->
  Js.truthy key = true ->
  userMedia env = inr stream ->
  (forall track, In track (tracks stream) -> existsb (Nat.eqb track) bad = false) ->
  LiveChatView.reportsAuthFailure e0 = false ->
  LiveChatView.reportsAuthFailure e1 = false ->
  LiveChatView.reportsAuthFailure e2 = false ->
  LiveChatView.reportsAuthFailure e3 = false ->
  message fatal = Some m ->
  Js.includes "401" m || Js.includes "API key" m
  || Js.includes "Permission denied" m = true ->
  LiveChatView.reportsAuthFailure err = false ->
  attempt < MAX_RETRIES ->
  userInitiatedDisconnect (refs w) = false ->
  let released :=
    {| inputAudioContextRef := None; outputAudioContextRef := None;
       streamRef := None; processorRef := None; inputSourceRef := None;
       sessionPromiseRef := None; nextStartTimeRef := tzero;
       aiClientRef := true; sourcesRef := [];
       userInitiatedDisconnect := true |} in
  (MAX_RETRIES = 3 /\ RETRY_DELAY_MS = 2000%N)
  /\ (let w' := exec (connectWithRetry_catch lang mode attempt err) w in
      timers (browser w')
      = (timers (browser w)
         ++ [{| tLanguage := lang; tMode := mode; tAttempt := attempt + 1;
                tDue := (clock (browser w) + RETRY_DELAY_MS)%N |}])%list
      /\ ui w' = ui w /\ refs w' = refs w
      /\ connectAttempts w' = connectAttempts w)
  /\ (let w' := settle (Fails l0 e0 :: Fails l1 e1 :: Fails l2 e2 :: Fails l3 e3
                          :: more)
                       (started bad lang mode env) in
      connectAttempts w'
      = [(0%N, 0);
         ((l0 + RETRY_DELAY_MS)%N, 1);
         ((l0 + RETRY_DELAY_MS + l1 + RETRY_DELAY_MS)%N, 2);
         ((l0 + RETRY_DELAY_MS + l1 + RETRY_DELAY_MS + l2 + RETRY_DELAY_MS)%N, 3)]
      /\ timers (browser w') = []
      /\ ui w' = {| connected := false;
                    error := Some (getFriendlyErrorMessage e3);
                    isTalking := false; isRetrying := false;
                    selectedLanguage := Some lang; selectedMode := mode |}
      /\ refs w' = released)
  /\ (let w' := settle (Fails lf fatal :: more) (started bad lang mode env) in
      LiveChatView.reportsAuthFailure fatal = true
      /\ connectAttempts w' = [(0%N, 0)]
      /\ timers (browser w') = []
      /\ ui w' = {| connected := false;
                    error := Some (getFriendlyErrorMessage fatal);
                    isTalking := false; isRetrying := false;
                    selectedLanguage := Some lang; selectedMode := mode |}
      /\ refs w' = released).
Proof.
  intros Hkey Htruthy Hmedia Htracks T0 T1 T2 T3 Hmessage Hnamed Terr Hlimit Hflag
         released.
  pose proof (ErrorFacts.transient_not_fatal e0 T0) as H0.
  pose proof (ErrorFacts.transient_not_fatal e1 T1) as H1.
  pose proof (ErrorFacts.transient_not_fatal e2 T2) as H2.
  pose proof (ErrorFacts.transient_not_fatal e3 T3) as H3.
  pose proof (ErrorFacts.transient_not_fatal err Terr) as Herr.
  assert (Hfatal : isFatal fatal = true)
    by (unfold isFatal; rewrite Hmessage; exact Hnamed).
  destruct (started_attemptInFlight bad lang mode env key stream
              Hkey Htruthy Hmedia Htracks)
    as (Hin0 & Hca0 & Hclock0 & Hlang0 & Hmode0 & Hsrc0).
  split; [split; reflexivity|].
  split.
  { unfold exec.
    rewrite (connectWithRetry_catch_retries lang mode attempt err w Herr Hlimit Hflag).
    cbn. repeat split.
    unfold connectAttempts. cbn [rev browser trace].
    rewrite !flat_map_app. cbn. rewrite !app_nil_r. reflexivity. }
  split.
  - destruct (settle_retry _ lang mode 0 l0 e0
                (Fails l1 e1 :: Fails l2 e2 :: Fails l3 e3 :: more) Hin0 H0)
      as (w1 & E1 & Hin1 & Hca1 & Hclock1 & _ & Hlang1 & Hmode1 & Hsrc1);
      [unfold MAX_RETRIES; lia|].
    destruct (settle_retry _ lang mode (0 + 1) l1 e1
                (Fails l2 e2 :: Fails l3 e3 :: more) Hin1 H1)
      as (w2 & E2 & Hin2 & Hca2 & Hclock2 & _ & Hlang2 & Hmode2 & Hsrc2);
      [unfold MAX_RETRIES; lia|].
    destruct (settle_retry _ lang mode (0 + 1 + 1) l2 e2
                (Fails l3 e3 :: more) Hin2 H2)
      as (w3 & E3 & Hin3 & Hca3 & Hclock3 & _ & Hlang3 & Hmode3 & Hsrc3);
      [unfold MAX_RETRIES; lia|].
    destruct (settle_gives_up _ lang mode (0 + 1 + 1 + 1) l3 e3 more Hin3)
      as (w4 & E4 & Hu4 & Hr4 & Ht4 & Hca4);
      [rewrite H3; reflexivity|].
    cbv zeta. rewrite E1, E2, E3, E4.
    repeat split.
    + rewrite Hca4, Hca3, Hca2, Hca1, Hca0, Hclock2, Hclock1, Hclock0.
      cbn [app Nat.add]. reflexivity.
    + exact Ht4.
    + rewrite Hu4, Hlang3, Hlang2, Hlang1, Hlang0, Hmode3, Hmode2, Hmode1, Hmode0.
      reflexivity.
    + rewrite Hr4, Hsrc3, Hsrc2, Hsrc1, Hsrc0. reflexivity.
  - destruct (settle_gives_up _ lang mode 0 lf fatal more Hin0)
      as (w1 & E1 & Hu1 & Hr1 & Ht1 & Hca1);
      [rewrite Hfatal; reflexivity|].
    cbv zeta. rewrite E1.
    split; [exact (ErrorFacts.fatal_reportsAuthFailure fatal Hfatal)|].
    repeat split.
    + rewrite Hca1. exact Hca0.
    + exact Ht1.
    + rewrite Hu1, Hlang0, Hmode0. reflexivity.
    + rewrite Hr1, Hsrc0. reflexivity.
Qed.

(** *** [startSession] without a language *)

(** C10. With no language selected [startSession] sets the error message to
    "Please select a language first." and returns: nothing else of the
    component changes, and nothing is done to the outside world (no client,
    no audio context, no microphone request, no connection attempt). *)
Theorem startSession_without_language (env : StartEnv) (w : World) :
  selectedLanguage (ui w) = None ->
  startSession env w
  = (Ret tt,
     {| ui := {| connected := connected (ui w);
                 error := Some "Please select a language first.";
                 isTalking := isTalking (ui w);
                 isRetrying := isRetrying (ui w);
                 selectedLanguage := selectedLanguage (ui w);
                 selectedMode := selectedMode (ui w) |};
        refs := refs w;
        browser := browser w |})
  /\ effectsSince w (exec (startSession env) w) = []
  /\ connectAttempts (exec (startSession env) w) = connectAttempts w.
Proof.
  intros Hnone.
  assert (Hrun : startSession env w
                 = (Ret tt,
                    {| ui := {| connected := connected (ui w);
                                error := Some "Please select a language first.";
                                isTalking := isTalking (ui w);
                                isRetrying := isRetrying (ui w);
                                selectedLanguage := selectedLanguage (ui w);
                                selectedMode := selectedMode (ui w) |};
                       refs := refs w;
                       browser := browser w |})).
  { destruct w as [[c e t r l m] rf b]. simpl in Hnone. subst l. reflexivity. }
  split; [exact Hrun|].
  unfold exec. rewrite Hrun. cbn [snd]. split.
  - apply (effectsSince_app w _ []). reflexivity.
  - reflexivity.
Qed.

(** *** Teardown *)


(** A retry timer that is pending when the user stops is not cancelled:
    it fires, and its callback connects. *)
Lemma pending_retry_survives_stop (w : World) (t : Timer) (rest : list Timer) :
  timers (browser w) = t :: rest ->
  aiClientRef (refs w) = true ->
  tracksStop w ->
  userInitiatedDisconnect (refs (run [EndCall] w)) = true
  /\ timers (browser (run [EndCall] w)) = t :: rest
  /\ connectAttempts (run [EndCall; TimerFired] w)
     = (connectAttempts w ++ [(N.max (clock (browser w)) (tDue t), tAttempt t)])%list.
Proof.
  intros Htimers Hclient Htracks.
  destruct (stopSession_run w Htracks)
    as (w' & Hrun & Hu & Hr & Hp & Ht & Hc & Hf & Hn & Hi & rel & Htr & Hall).
  cbn [run handle]. unfold exec at 1 2 4. rewrite Hrun. cbn [snd].
  split; [rewrite Hr; reflexivity|].
  split; [rewrite Ht; exact Htimers|].
  unfold exec, timerFired. rewrite bind_getBrowser, Ht, Htimers.
  unfold bind at 1, modifyBrowser. cbn [fst snd].
  match goal with
  | |- context [connectWithRetry ?l ?m ?a ?x] =>
      destruct (connectWithRetry_connects l m a x) as (w2 & Hrun2 & _ & _ & Hb2)
  end.
  { cbn. rewrite Hr. exact Hclient. }
  rewrite Hrun2. cbn [snd].
  unfold connectAttempts at 1. rewrite Hb2.
  cbn [trace withTrace browser withPromises withClock withTimers rev clock].
  rewrite !flat_map_app. cbn [flat_map fst snd app]. rewrite !app_nil_r.
  rewrite Hc. f_equal.
  change (flat_map _ (rev (trace (browser w')))) with (connectAttempts w').
  eapply connectAttempts_released; eassumption.
Qed.

(** *** Close *)

(** The close handler sets [connected] and [isTalking] to false and nothing
    else: the refs are as they were and the script processor stays attached,
    so a capture window that arrives after the close is still handed to
    [sendRealtimeInput] of the session. *)
Lemma onclose_keeps_capture
        (w : World) (processor frame promise : nat) (p : ConnectPromise) :
  sessionPromiseRef (refs w) = Some promise ->
  nth_error (promises (browser w)) promise = Some p ->
  pState p = Fulfilled ->
  In processor (tapped (browser w)) ->
  let w' := exec onclose w in
  onclose w = (Ret tt, w')
  /\ ui w' = {| connected := false; error := error (ui w); isTalking := false;
                isRetrying := isRetrying (ui w);
                selectedLanguage := selectedLanguage (ui w);
                selectedMode := selectedMode (ui w) |}
  /\ refs w' = refs w
  /\ tapped (browser w') = tapped (browser w)
  /\ effectsSince w w' = [ConsoleLog "Gemini Live Closed"]
  /\ effectsSince w' (run [AudioProcess processor frame] w')
     = [SendRealtimeInput promise frame].
Proof.
  intros Hp Hnth Hstate Hin w'.
  assert (Hex : existsb (Nat.eqb processor) (tapped (browser w)) = true).
  { apply existsb_exists. exists processor. split; [exact Hin|].
    apply Nat.eqb_refl. }
  destruct w as [u r b]. destruct r, b. cbn in Hp, Hnth, Hin, Hex. subst.
  subst w'. unfold exec, onclose, bind. cbn.
  repeat split.
  - apply (effectsSince_app _ _ [(clock0, ConsoleLog "Gemini Live Closed")]).
    reflexivity.
  - apply (effectsSince_app _ _ [(clock0, SendRealtimeInput promise frame)]).
    unfold run, exec, handle, bind, getBrowser. cbn. rewrite Hex.
    unfold onaudioprocess, thenSend, bind, readRef, getBrowser. cbn.
    rewrite Hnth, Hstate. reflexivity.
Qed.

(** *** Messages *)

(** An audio message whose payload decodes: the buffer is started at the
    later of the cursor and the clock reading, and the cursor moves to its
    end. *)
Lemma onmessage_enqueues (w : World) (now : time) (base64Audio : string)
      (bytes : list N) (buffer : AudioBuffer) (ctx : AudioContext) :
  outputAudioContextRef (refs w) = Some ctx ->
  Js.truthy base64Audio = true ->
  base64ToUint8Array base64Audio = Some bytes ->
  decodeAudioData bytes = Some buffer ->
  onmessage now (audioMessage base64Audio) w
  = (Ret tt,
     {| ui := {| connected := connected (ui w); error := error (ui w);
                 isTalking := true; isRetrying := isRetrying (ui w);
                 selectedLanguage := selectedLanguage (ui w);
                 selectedMode := selectedMode (ui w) |};
        refs := {| inputAudioContextRef := inputAudioContextRef (refs w);
                   outputAudioContextRef := outputAudioContextRef (refs w);
                   streamRef := streamRef (refs w);
                   processorRef := processorRef (refs w);
                   inputSourceRef := inputSourceRef (refs w);
                   sessionPromiseRef := sessionPromiseRef (refs w);
                   nextStartTimeRef :=
                     tadd (tmax (nextStartTimeRef (refs w)) now) (duration buffer);
                   aiClientRef := aiClientRef (refs w);
                   sourcesRef := addId (nextId (browser w)) (sourcesRef (refs w));
                   userInitiatedDisconnect := userInitiatedDisconnect (refs w) |};
        browser :=
          withTrace
            ((clock (browser w),
              SourceStart (nextId (browser w))
                          (tmax (nextStartTimeRef (refs w)) now) (duration buffer))
             :: trace (browser w))
            (withNextId (S (nextId (browser w))) (browser w)) |}).
Proof.
  intros Hctx Htruthy Hbytes Hbuffer.
  destruct w as [u r b]. destruct u, r, b. cbn in Hctx. subst.
  unfold onmessage, audioMessage, bind, readRef, tryCatch, tmax. cbn.
  rewrite Htruthy. cbn.
  destruct (tltb nextStartTimeRef0 now); cbn;
    rewrite Hbytes, Hbuffer; reflexivity.
Qed.

(** An audio message whose payload does not decode: the error is logged and
    no buffer is started, but [isTalking] has been set and the cursor pulled
    up to the clock reading. *)
Lemma onmessage_decode_fails (w : World) (now : time) (base64Audio : string)
      (ctx : AudioContext) :
  outputAudioContextRef (refs w) = Some ctx ->
  Js.truthy base64Audio = true ->
  match base64ToUint8Array base64Audio with
  | Some bytes => decodeAudioData bytes
  | None => None
  end = None ->
  onmessage now (audioMessage base64Audio) w
  = (Ret tt,
     {| ui := {| connected := connected (ui w); error := error (ui w);
                 isTalking := true; isRetrying := isRetrying (ui w);
                 selectedLanguage := selectedLanguage (ui w);
                 selectedMode := selectedMode (ui w) |};
        refs := {| inputAudioContextRef := inputAudioContextRef (refs w);
                   outputAudioContextRef := outputAudioContextRef (refs w);
                   streamRef := streamRef (refs w);
                   processorRef := processorRef (refs w);
                   inputSourceRef := inputSourceRef (refs w);
                   sessionPromiseRef := sessionPromiseRef (refs w);
                   nextStartTimeRef := tmax (nextStartTimeRef (refs w)) now;
                   aiClientRef := aiClientRef (refs w);
                   sourcesRef := sourcesRef (refs w);
                   userInitiatedDisconnect := userInitiatedDisconnect (refs w) |};
        browser :=
          withTrace
            ((clock (browser w), ConsoleError "Audio decode error:")
             :: trace (browser w))
            (browser w) |}).
Proof.
  intros Hctx Htruthy Hfail.
  destruct w as [u r b]. destruct u, r, b. cbn in Hctx. subst.
  unfold onmessage, audioMessage, bind, readRef, tryCatch, tmax. cbn.
  rewrite Htruthy. cbn.
  destruct (tltb nextStartTimeRef0 now); cbn;
    destruct (base64ToUint8Array base64Audio) as [bytes|]; cbn;
    try rewrite Hfail; reflexivity.
Qed.

(** Every source is told to stop, in the order of the set, whether or not
    its [stop()] throws. *)
Lemma forEach_sourceStop (ids : list nat) (w : World) :
  forEach ids (fun src => tryCatch (sourceStop src) (fun _ => ret tt)) w
  = (Ret tt,
     {| ui := ui w; refs := refs w;
        browser :=
          withTrace
            (rev (map (fun id => (clock (browser w), SourceStop id)) ids)
             ++ trace (browser w))%list
            (browser w) |}).
Proof.
  revert w. induction ids as [|id rest IH]; intros w.
  - destruct w as [u r b]. destruct b. reflexivity.
  - cbn [forEach]. unfold bind at 1.
    assert (Hstop : tryCatch (sourceStop id) (fun _ => ret tt) w
                    = (Ret tt,
                       {| ui := ui w; refs := refs w;
                          browser := withTrace ((clock (browser w), SourceStop id)
                                                :: trace (browser w)) (browser w) |})).
    { unfold tryCatch, sourceStop, bind, emit, isFaulty, getBrowser, modifyBrowser.
      cbn. destruct (existsb (Nat.eqb id) (faulty (browser w))); reflexivity. }
    rewrite Hstop, IH. cbn. rewrite <- app_assoc. reflexivity.
Qed.

(** The interruption alone: the sources are stopped, the set is emptied, the
    cursor goes back to 0 and [isTalking] to false. *)
Lemma onmessage_interruption (w : World) (now : time) (ctx : AudioContext) :
  outputAudioContextRef (refs w) = Some ctx ->
  onmessage now interruption w
  = (Ret tt,
     {| ui := {| connected := connected (ui w); error := error (ui w);
                 isTalking := false; isRetrying := isRetrying (ui w);
                 selectedLanguage := selectedLanguage (ui w);
                 selectedMode := selectedMode (ui w) |};
        refs := {| inputAudioContextRef := inputAudioContextRef (refs w);
                   outputAudioContextRef := outputAudioContextRef (refs w);
                   streamRef := streamRef (refs w);
                   processorRef := processorRef (refs w);
                   inputSourceRef := inputSourceRef (refs w);
                   sessionPromiseRef := sessionPromiseRef (refs w);
                   nextStartTimeRef := tzero;
                   aiClientRef := aiClientRef (refs w);
                   sourcesRef := [];
                   userInitiatedDisconnect := userInitiatedDisconnect (refs w) |};
        browser :=
          withTrace
            (rev (map (fun id => (clock (browser w), SourceStop id))
                      (sourcesRef (refs w)))
             ++ (clock (browser w), ConsoleLog "Model interrupted")
                :: trace (browser w))%list
            (browser w) |}).
Proof.
  intros Hctx.
  destruct w as [u r b]. destruct u, r, b. cbn in Hctx. subst.
  unfold onmessage, interruption. rewrite bind_readRef.
  cbn [refs outputAudioContextRef inlineData interrupted].
  unfold bind at 1, ret at 1. unfold bind at 1, emit at 1, modifyBrowser at 1.
  cbn [fst snd]. rewrite bind_readRef. unfold bind at 1.
  rewrite forEach_sourceStop. reflexivity.
Qed.

(** The audio part of a message, whatever it carries: it returns, keeps the
    output context and the sources that were playing, and only adds to the
    trace. *)
Lemma onmessage_audio_part (w : World) (now : time) (data : option string)
      (ctx : AudioContext) :
  outputAudioContextRef (refs w) = Some ctx ->
  exists w1 new,
    onmessage now {| inlineData := data; interrupted := false |} w = (Ret tt, w1)
    /\ outputAudioContextRef (refs w1) = Some ctx
    /\ incl (sourcesRef (refs w)) (sourcesRef (refs w1))
    /\ clock (browser w1) = clock (browser w)
    /\ trace (browser w1) = (new ++ trace (browser w))%list.
Proof.
  intros Hctx.
  destruct data as [base64Audio|].
  - destruct (Js.truthy base64Audio) eqn:Htruthy.
    + destruct (match base64ToUint8Array base64Audio with
                | Some bytes => decodeAudioData bytes
                | None => None
                end) as [buffer|] eqn:Hdecode.
      * destruct (base64ToUint8Array base64Audio) as [bytes|] eqn:Hbytes;
          [|discriminate].
        eexists. eexists [_].
        split; [apply (onmessage_enqueues w now base64Audio bytes buffer ctx);
                assumption|].
        cbn. repeat split; try assumption; try reflexivity.
        unfold addId. destruct (existsb _ _).
        -- apply incl_refl.
        -- apply incl_appl, incl_refl.
      * eexists. eexists [_].
        split; [apply (onmessage_decode_fails w now base64Audio ctx); assumption|].
        cbn. repeat split; try assumption; try reflexivity. apply incl_refl.
    + exists w, []. split.
      * unfold onmessage. rewrite bind_readRef, Hctx. cbn [inlineData interrupted].
        rewrite Htruthy. reflexivity.
      * repeat split; try assumption; try reflexivity. apply incl_refl.
  - exists w, []. split.
    + unfold onmessage. rewrite bind_readRef, Hctx. reflexivity.
    + repeat split; try assumption; try reflexivity. apply incl_refl.
Qed.

(** A message with the interruption mark is handled as its audio part
    followed by the interruption. *)
Lemma onmessage_then_interruption (w w1 : World) (now : time)
      (data : option string) (ctx : AudioContext) :
  outputAudioContextRef (refs w) = Some ctx ->
  outputAudioContextRef (refs w1) = Some ctx ->
  onmessage now {| inlineData := data; interrupted := false |} w = (Ret tt, w1) ->
  onmessage now {| inlineData := data; interrupted := true |} w
  = onmessage now interruption w1.
Proof.
  intros Hctx Hctx1 Haudio.
  unfold onmessage in *. unfold interruption.
  rewrite bind_readRef, Hctx in *. rewrite bind_readRef, Hctx1.
  cbn [inlineData interrupted] in *.
  unfold bind at 1 in Haudio. unfold bind at 1.
  match type of Haudio with
  | match ?audio w with _ => _ end = _ => destruct (audio w) as [[a|e] w2]
  end.
  - cbn in Haudio. injection Haudio as <-. reflexivity.
  - discriminate.
Qed.

(** C5. On a message with the interruption mark, while the output context
    is there, every source of the active set is told to stop (one that
    throws is tolerated), the set is emptied, the cursor is reset to 0 and
    [isTalking] is false; no exception leaves the handler.  A second
    interruption finds nothing to stop and leaves the component as it is. *)
Theorem interruption_stops_all
        (w : World) (now now' : time) (msg : LiveServerMessage)
        (ctx : AudioContext) :
  outputAudioContextRef (refs w) = Some ctx ->
  interrupted msg = true ->
  let w' := exec (onmessage now msg) w in
  let w'' := exec (onmessage now' interruption) w' in
  onmessage now msg w = (Ret tt, w')
  /\ sourcesRef (refs w') = []
  /\ nextStartTimeRef (refs w') = tzero
  /\ isTalking (ui w') = false
  /\ (forall id, In id (sourcesRef (refs w)) -> In (SourceStop id) (effectsSince w w'))
  /\ onmessage now' interruption w' = (Ret tt, w'')
  /\ ui w'' = ui w'
  /\ refs w'' = refs w'
  /\ effectsSince w' w'' = [ConsoleLog "Model interrupted"].
Proof.
  intros Hctx Hint w' w''.
  destruct msg as [data flag]. cbn in Hint. subst flag.
  destruct (onmessage_audio_part w now data ctx Hctx)
    as (w1 & new & Haudio & Hctx1 & Hincl & Hclock & Htrace).
  assert (Hrun : onmessage now {| inlineData := data; interrupted := true |} w
                 = onmessage now interruption w1)
    by (eapply onmessage_then_interruption; eassumption).
  rewrite (onmessage_interruption w1 now ctx Hctx1) in Hrun.
  assert (Hw' : w' = snd (onmessage now {| inlineData := data; interrupted := true |} w))
    by reflexivity.
  rewrite Hrun in Hw'. cbn [snd] in Hw'.
  assert (Hctx' : outputAudioContextRef (refs w') = Some ctx)
    by (rewrite Hw'; exact Hctx1).
  assert (Hrun' := onmessage_interruption w' now' ctx Hctx').
  assert (Hw'' : w'' = snd (onmessage now' interruption w')) by reflexivity.
  rewrite Hrun' in Hw''. cbn [snd] in Hw''.
  split; [rewrite Hrun, Hw'; reflexivity|].
  split; [rewrite Hw'; reflexivity|].
  split; [rewrite Hw'; reflexivity|].
  split; [rewrite Hw'; reflexivity|].
  split.
  { intros id Hin.
    rewrite (effectsSince_app w w'
               (rev (map (fun id => (clock (browser w1), SourceStop id))
                         (sourcesRef (refs w1)))
                ++ (clock (browser w1), ConsoleLog "Model interrupted") :: new)).
    - rewrite map_app. apply in_or_app. left.
      rewrite map_rev, map_map. cbn [snd]. apply in_rev. rewrite rev_involutive.
      apply in_map. apply Hincl. exact Hin.
    - rewrite Hw'. cbn. rewrite Htrace, <- app_assoc. reflexivity. }
  split; [rewrite Hrun', Hw''; reflexivity|].
  split; [rewrite Hw'', Hw'; reflexivity|].
  split; [rewrite Hw'', Hw'; reflexivity|].
  apply (effectsSince_app w' w''
           [(clock (browser w'), ConsoleLog "Model interrupted")]).
  rewrite Hw''. cbn [browser trace withTrace]. rewrite Hw'. reflexivity.
Qed.

(** *** The playback cursor *)

Lemma tle_refl (a : time) : tle a a.
Proof.
  unfold tle. destruct (tltb a a) eqn:H; [|reflexivity].
  rewrite (tltb_asym a a H) in H. discriminate.
Qed.

Lemma tle_tmax_l (a b : time) : tle a (tmax a b).
Proof.
  unfold tmax. destruct (tltb a b) eqn:H.
  - unfold tle. apply tltb_asym. exact H.
  - apply tle_refl.
Qed.

Lemma tle_tmax_r (a b : time) : tle b (tmax a b).
Proof.
  unfold tmax. destruct (tltb a b) eqn:H.
  - apply tle_refl.
  - exact H.
Qed.

Lemma tmax_of_le (a b : time) : tle b a -> tmax a b = a.
Proof. unfold tle, tmax. intros H. rewrite H. reflexivity. Qed.

(** What one arrival and its slot have to do with each other. *)
Lemma schedule_chained (arrivals : list (time * string)) (w : World)
      (ctx : AudioContext) :
  outputAudioContextRef (refs w) = Some ctx ->
  Forall (fun arrival =>
            Js.truthy (snd arrival) = true
            /\ exists bytes buffer,
                 base64ToUint8Array (snd arrival) = Some bytes
                 /\ decodeAudioData bytes = Some buffer) arrivals ->
  Forall2 (fun arrival s =>
             slotNow s = fst arrival
             /\ exists bytes buffer,
                  base64ToUint8Array (snd arrival) = Some bytes
                  /\ decodeAudioData bytes = Some buffer
                  /\ slotLength s = duration buffer)
          arrivals (fst (schedule arrivals w))
  /\ chained (nextStartTimeRef (refs w)) (fst (schedule arrivals w)).
Proof.
  revert w. induction arrivals as [|[now base64Audio] rest IH]; intros w Hctx Hall.
  - cbn. split; constructor.
  - inversion Hall as [|? ? (Htruthy & bytes & buffer & Hbytes & Hbuffer) Hrest]; subst.
    cbn in Htruthy, Hbytes.
    cbn [schedule]. unfold exec.
    rewrite (onmessage_enqueues w now base64Audio bytes buffer ctx)
      by assumption.
    cbn [snd].
    match goal with
    | |- context [schedule rest ?x] =>
        specialize (IH x); destruct (schedule rest x) as [slots final]
    end.
    destruct IH as [Hrel Hchain]; [exact Hctx | exact Hrest |].
    match goal with
    | |- context [effectsSince w ?x] =>
        rewrite (effectsSince_app w x
                   [(clock (browser w),
                     SourceStart (nextId (browser w))
                                 (tmax (nextStartTimeRef (refs w)) now)
                                 (duration buffer))])
          by reflexivity
    end.
    cbn in Hrel, Hchain |- *. split.
    + constructor; [|exact Hrel].
      cbn. split; [reflexivity|]. exists bytes, buffer. repeat split; assumption.
    + repeat split; try reflexivity. exact Hchain.
Qed.

Lemma chained_adjacent (cursor : time) (slots : list Slot) (i : nat) (s s' : Slot) :
  chained cursor slots ->
  Forall (fun s => tle tzero (slotLength s)) slots ->
  nth_error slots i = Some s ->
  nth_error slots (S i) = Some s' ->
  cursorBefore s' = cursorAfter s
  /\ tle (slotStart s) (slotStart s')
  /\ (tle (slotNow s') (tadd (slotStart s) (slotLength s)) ->
      slotStart s' = tadd (slotStart s) (slotLength s)).
Proof.
  revert cursor i. induction slots as [|s0 rest IH]; intros cursor i Hchain Hpos Hi Hi'.
  - destruct i; discriminate.
  - destruct Hchain as (Hbefore & Hstart & Hafter & Hrest).
    inversion Hpos as [|? ? Hlen Hposrest]; subst.
    destruct i as [|i].
    + cbn in Hi, Hi'. injection Hi as <-.
      destruct rest as [|s1 rest']; [discriminate|].
      cbn in Hi'. injection Hi' as <-.
      destruct Hrest as (Hbefore1 & Hstart1 & _).
      split; [exact Hbefore1|].
      rewrite Hstart1, Hafter. split.
      * unfold tle. eapply tle_trans.
        -- apply tadd_nonneg. exact Hlen.
        -- apply tle_tmax_l.
      * intros Hle. apply tmax_of_le. exact Hle.
    + cbn in Hi, Hi'. eapply IH; eassumption.
Qed.

Lemma chained_each (cursor : time) (slots : list Slot) :
  chained cursor slots ->
  Forall (fun s =>
            tle (cursorBefore s) (slotStart s)
            /\ tle (slotNow s) (slotStart s)
            /\ (slotStart s = cursorBefore s \/ slotStart s = slotNow s)
            /\ cursorAfter s = tadd (slotStart s) (slotLength s))
         slots.
Proof.
  revert cursor. induction slots as [|s rest IH]; intros cursor Hchain.
  - constructor.
  - destruct Hchain as (Hbefore & Hstart & Hafter & Hrest).
    constructor; [|eapply IH; exact Hrest].
    rewrite Hbefore, Hstart. repeat split.
    + apply tle_tmax_l.
    + apply tle_tmax_r.
    + unfold tmax. destruct (tltb cursor (slotNow s)); [right | left]; reflexivity.
    + rewrite <- Hstart. exact Hafter.
Qed.

(** C2. For audio messages that arrive one after the other, each with a
    payload that decodes and none with an interruption, the buffer of each
    is started at the later of the cursor and the clock reading at its
    arrival (it is one of the two and not before either), and the cursor
    then stands at that start plus the buffer's length; the next buffer
    finds the cursor there, its start is not before the start of the one
    before, and if its message arrives no later than the end of the one
    before, it starts exactly at that end. *)
Theorem enqueue_gapless
        (w : World) (ctx : AudioContext) (arrivals : list (time * string)) :
  outputAudioContextRef (refs w) = Some ctx ->
  Forall (fun arrival =>
            Js.truthy (snd arrival) = true
            /\ exists bytes buffer,
                 base64ToUint8Array (snd arrival) = Some bytes
                 /\ decodeAudioData bytes = Some buffer) arrivals ->
  let slots := fst (schedule arrivals w) in
  Forall2 (fun arrival s =>
             slotNow s = fst arrival
             /\ exists bytes buffer,
                  base64ToUint8Array (snd arrival) = Some bytes
                  /\ decodeAudioData bytes = Some buffer
                  /\ slotLength s = duration buffer)
          arrivals slots
    /\ chained (nextStartTimeRef (refs w)) slots
  /\ Forall (fun s =>
               tle (cursorBefore s) (slotStart s)
               /\ tle (slotNow s) (slotStart s)
               /\ (slotStart s = cursorBefore s \/ slotStart s = slotNow s)
               /\ cursorAfter s = tadd (slotStart s) (slotLength s))
            slots
  /\ (forall i s s',
        nth_error slots i = Some s ->
        nth_error slots (S i) = Some s' ->
        cursorBefore s' = cursorAfter s
        /\ tle (slotStart s) (slotStart s')
        /\ (tle (slotNow s') (tadd (slotStart s) (slotLength s)) ->
            slotStart s' = tadd (slotStart s) (slotLength s))).
Proof.
  intros Hctx Hall slots.
  destruct (schedule_chained arrivals w ctx Hctx Hall) as [Hrel Hchain].
  fold slots in Hrel, Hchain.
  split; [exact Hrel|]. split; [exact Hchain|].
  split; [eapply chained_each; exact Hchain|].
  intros i s s' Hi Hi'.
  eapply chained_adjacent; try eassumption.
  clear -Hrel. induction Hrel as [|arrival s0 ? ? (_ & bytes & buffer & _ & Hbuffer & Hlen) ? IH];
    constructor; [|exact IH].
  rewrite Hlen. eapply duration_nonneg. exact Hbuffer.
Qed.

End Facts.

#[local] Existing Instance frameTimeline.
#[local] Existing Instance specAudioUtils.

Lemma startSession_without_language_witness :
  let env := {| apiKey := Some "key"; ctxInitial := suspended;
                userMedia := inr {| active := true; tracks := [7] |} |} in
  let w := initial [] in
  startSession env w
  = (Ret tt,
     {| ui := {| connected := false;
                 error := Some "Please select a language first.";
                 isTalking := false; isRetrying := false;
                 selectedLanguage := None; selectedMode := mama |};
        refs := refs w;
        browser := browser w |})
  /\ effectsSince w (exec (startSession env) w) = []
  /\ connectAttempts (exec (startSession env) w) = connectAttempts w.
Proof.
  intros env w.
  apply (startSession_without_language env w).
  reflexivity.
Defined.

Lemma retry_policy_witness :
  connectAttempts
    (settle [Fails 10%N unavailable; Fails 20%N unavailable; Fails 30%N unavailable;
             Fails 40%N unavailable]
            (started [] Tamil love sampleEnv))
  = [(0%N, 0); (2010%N, 1); (4030%N, 2); (6060%N, 3)]
  /\ ui (settle [Fails 10%N unavailable; Fails 20%N unavailable; Fails 30%N unavailable;
                 Fails 40%N unavailable]
                (started [] Tamil love sampleEnv))
     = {| connected := false;
          error := Some "Service is temporarily unavailable. Please try again later.";
          isTalking := false; isRetrying := false;
          selectedLanguage := Some Tamil; selectedMode := love |}
  /\ connectAttempts (settle [Fails 5%N unauthorized] (started [] Tamil love sampleEnv))
     = [(0%N, 0)]
  /\ timers (browser (exec (connectWithRetry_catch Tamil love 2 unavailable)
                           (initial [])))
     = [{| tLanguage := Tamil; tMode := love; tAttempt := 3; tDue := 2000%N |}].
Proof.
  assert (Htransient : LiveChatView.reportsAuthFailure unavailable = false)
    by (vm_compute; reflexivity).
  assert (Hnamed : Js.includes "401" "401 Unauthorized"
                   || Js.includes "API key" "401 Unauthorized"
                   || Js.includes "Permission denied" "401 Unauthorized" = true)
    by (vm_compute; reflexivity).
  pose proof (retry_policy [] Tamil love sampleEnv "test-key"
                {| active := true; tracks := [7] |}
                unavailable unavailable unavailable unavailable unauthorized
                unavailable "401 Unauthorized" 10%N 20%N 30%N 40%N 5%N 2 []
                (initial [])
                eq_refl eq_refl eq_refl (fun _ _ => eq_refl)
                Htransient Htransient Htransient Htransient eq_refl Hnamed
                Htransient (le_n 3) eq_refl)
    as (_ & (Htimer & _) & (Hfour & _ & Hui & _) & (_ & Hfatal & _)).
  split; [exact Hfour|].
  split; [exact Hui|].
  split; [exact Hfatal | exact Htimer].
Defined.

(** C1 as the specification words it fails.  After three transient failures
    in a row the third retry has just been made: the session is retrying,
    holds its microphone and shows the retry notice, and when that third
    retry opens the session is connected.  And an authentication failure on
    the first attempt is retried when its message has none of "401",
    "API key" and "Permission denied" in it: a connection refused with
    "403 Forbidden", which the component reports as access denied, is tried
    four times. *)
Lemma retry_policy_counterexample :
  let failed :=
    settle [Fails 10%N unavailable; Fails 20%N unavailable; Fails 30%N unavailable]
           (started [] Tamil love sampleEnv) in
  let opened :=
    settle [Fails 10%N unavailable; Fails 20%N unavailable; Fails 30%N unavailable;
            Opens 40%N]
           (started [] Tamil love sampleEnv) in
  let forbidden := mkError "403 Forbidden" in
  let refused :=
    settle [Fails 10%N forbidden; Fails 20%N forbidden; Fails 30%N forbidden;
            Fails 40%N forbidden]
           (started [] Tamil love sampleEnv) in
  LiveChatView.reportsAuthFailure unavailable = false
  /\ connectAttempts failed = [(0%N, 0); (2010%N, 1); (4030%N, 2); (6060%N, 3)]
  /\ isRetrying (ui failed) = true
  /\ error (ui failed) = Some "Connection lost. Retrying... (3/3)"
  /\ streamRef (refs failed) = Some {| active := true; tracks := [7] |}
  /\ nth_error (promises (browser failed)) 3
     = Some {| pLanguage := Tamil; pMode := love; pAttempt := 3;
               pState := Pending; pWaiting := [] |}
  /\ connected (ui opened) = true
  /\ error (ui opened) = None
  /\ LiveChatView.reportsAuthFailure forbidden = true
  /\ connectAttempts refused = [(0%N, 0); (2010%N, 1); (4030%N, 2); (6060%N, 3)]
  /\ error (ui refused)
     = Some "Access denied. Your API Key may not have permission to use this model.".
Proof. vm_compute. repeat split; reflexivity. Qed.

Lemma enqueue_gapless_witness :
  chained (nextStartTimeRef (refs (sampleActive [])))
          (fst (schedule sampleArrivals (sampleActive [])))
  /\ map (fun s => (slotStart s, slotLength s))
         (fst (schedule sampleArrivals (sampleActive [])))
     = [(5, 3); (8, 6); (100, 3)]%Z.
Proof.
  split.
  - refine (proj1 (proj2 (enqueue_gapless
                            (sampleActive [])
                            {| ctxId := 1; sampleRate := 24000; state := running |}
                            sampleArrivals _ _))).
    + vm_compute. reflexivity.
    + repeat constructor.
      * exists [0; 0; 0; 0; 0; 0]%N, {| duration := 3%Z : @time frameTimeline |}.
        split; vm_compute; reflexivity.
      * exists [0; 0; 0; 0; 0; 0; 0; 0; 0; 0; 0; 0]%N,
               {| duration := 6%Z : @time frameTimeline |}.
        split; vm_compute; reflexivity.
      * exists [0; 0; 0; 0; 0; 0]%N, {| duration := 3%Z : @time frameTimeline |}.
        split; vm_compute; reflexivity.
  - vm_compute. reflexivity.
Defined.

Lemma interruption_stops_all_witness :
  let w := samplePlaying [5] in
  let w' := exec (onmessage (200%Z : @time frameTimeline) interruption) w in
  sourcesRef (refs w) = [4; 5; 6]
  /\ sourcesRef (refs w') = []
  /\ nextStartTimeRef (refs w') = 0%Z
  /\ isTalking (ui w') = false
  /\ In (SourceStop 5) (effectsSince w w').
Proof.
  intros w w'.
  assert (Hctx : outputAudioContextRef (refs w)
                 = Some {| ctxId := 1; sampleRate := 24000; state := running |})
    by (vm_compute; reflexivity).
  destruct (interruption_stops_all w 200%Z 300%Z interruption _ Hctx eq_refl)
    as (_ & Hsources & Hcursor & Htalking & Hstops & _).
  split; [vm_compute; reflexivity|].
  split; [exact Hsources|].
  split; [exact Hcursor|].
  split; [exact Htalking|].
  apply Hstops. vm_compute. right. left. reflexivity.
Defined.

(** C7.  The close handler does not stop the capture, which every other
    way out of a session does through [stopSession].  On a connected session
    the close event leaves the microphone stream and the script processor in
    place; the setup screen is rendered, which has no End Call; and the next
    capture window is passed to [sendRealtimeInput] of the closed session.
    End Call on the same session stops the track, disconnects the nodes, and
    the processor fires no more. *)
Theorem close_leaves_capture_running :
  let w := sampleActive [] in
  let closed := run [Close] w in
  let stopped := run [EndCall] w in
  (connected (ui w) = true /\ tapped (browser w) = [3])
  /\ (connected (ui closed) = false
      /\ LiveChatView.screen (ui closed) = LiveChatView.SetupScreen
      /\ LiveChatView.offered (ui closed) EndCall = false
      /\ streamRef (refs closed) = Some {| active := true; tracks := [7] |}
      /\ processorRef (refs closed) = Some 3
      /\ tapped (browser closed) = [3]
      /\ effectsSince w closed = [ConsoleLog "Gemini Live Closed"]
      /\ effectsSince closed (run [AudioProcess 3 1] closed)
         = [SendRealtimeInput 0 1])
  /\ (streamRef (refs stopped) = None
      /\ processorRef (refs stopped) = None
      /\ tapped (browser stopped) = []
      /\ effectsSince w stopped
         = [NodeDisconnect 2; NodeDisconnect 3; TrackStop 7;
            ContextClose 1; ContextClose 0]
      /\ effectsSince stopped (run [AudioProcess 3 1] stopped) = []).
Proof. vm_compute. repeat split; reflexivity. Qed.



(** C3 fails on the code.  The first attempt fails, the retry timer is set;
    the user ends the call half a second later; the timer is still pending,
    fires at its time, and its callback makes connection attempt 1 without
    looking at the stop flag; when that connection opens the component is
    connected again. *)
Theorem stop_does_not_cancel_retry :
  let failed := run [ConnectRejected 0 unavailable] (started [] Tamil love sampleEnv) in
  let stopped := run [Elapse 500; EndCall] failed in
  let fired := run [Elapse 1500; TimerFired] stopped in
  let opened := run [Open; ConnectFulfilled 1] fired in
  timers (browser failed)
  = [{| tLanguage := Tamil; tMode := love; tAttempt := 1; tDue := 2000 |}]
  /\ userInitiatedDisconnect (refs stopped) = true
  /\ connected (ui stopped) = false
  /\ timers (browser stopped) = timers (browser failed)
  /\ connectAttempts stopped = [(0%N, 0)]
  /\ connectAttempts fired = [(0%N, 0); (2000%N, 1)]
  /\ userInitiatedDisconnect (refs fired) = true
  /\ isRetrying (ui fired) = true
  /\ connected (ui opened) = true.
Proof. vm_compute. repeat split; reflexivity. Qed.

(** C4 fails on the code.  A connected session is silent; a message arrives
    whose payload is three bytes long.  Decoding fails, the error is logged,
    no buffer is started and no exception leaves the handler, but
    [isTalking], set before the decoding, is now true with nothing
    playing. *)
Theorem malformed_frame_sets_talking :
  let w := sampleActive [] in
  let w' := exec (onmessage (50%Z : @time frameTimeline) (audioMessage "AAAA")) w in
  base64ToUint8Array "AAAA" = Some [0; 0; 0]%N
  /\ decodeAudioData [0; 0; 0]%N = None
  /\ isTalking (ui w) = false
  /\ sourcesRef (refs w) = []
  /\ fst (onmessage (50%Z : @time frameTimeline) (audioMessage "AAAA") w) = Ret tt
  /\ effectsSince w w' = [ConsoleError "Audio decode error:"]
  /\ connected (ui w') = true
  /\ sourcesRef (refs w') = []
  /\ isTalking (ui w') = true.
Proof. vm_compute. repeat split; reflexivity. Qed.

End LiveChatFacts.

(** * Further properties of the code *)

Module FlamesOrderFacts.

Import Flames FlamesOrder.
Local Open Scope list_scope.

Lemma indexOfFrom_found (c : CodeUnit) (arr : list CodeUnit) (i index : nat) :
  indexOfFrom c arr i = Some index ->
  i <= index /\ nth_error arr (index - i) = Some c.
Proof.
  revert i. induction arr as [|x rest IH]; intros i Hfound; simpl in Hfound.
  - discriminate.
  - destruct (N.eqb_spec x c) as [->|Hne].
    + injection Hfound as <-. rewrite Nat.sub_diag. split; [lia | reflexivity].
    + destruct (IH _ Hfound) as [Hle Hnth]. split; [lia|].
      replace (index - i) with (S (index - S i)) by lia. exact Hnth.
Qed.

Lemma indexOf_found (c : CodeUnit) (arr : list CodeUnit) (index : nat) :
  indexOf c arr = Some index -> nth_error arr index = Some c.
Proof.
  intros Hfound. apply indexOfFrom_found in Hfound.
  rewrite Nat.sub_0_r in Hfound. apply Hfound.
Qed.

Lemma indexOfFrom_missing (c : CodeUnit) (arr : list CodeUnit) (i : nat) :
  indexOfFrom c arr i = None -> count_occ N.eq_dec arr c = 0.
Proof.
  revert i. induction arr as [|x rest IH]; intros i Hnone; simpl in *.
  - reflexivity.
  - destruct (N.eqb_spec x c) as [->|Hne]; [discriminate|].
    destruct (N.eq_dec x c) as [Heq|_]; [contradiction|].
    eapply IH. eassumption.
Qed.

(** Writing [y] over an entry [c] moves one occurrence from [c] to [y]. *)
Lemma count_occ_setAt (arr : list CodeUnit) (i : nat) (c y x : CodeUnit) :
  nth_error arr i = Some c ->
  count_occ N.eq_dec (setAt i y arr) x + (if N.eq_dec c x then 1 else 0)
  = count_occ N.eq_dec arr x + (if N.eq_dec y x then 1 else 0).
Proof.
  revert i. induction arr as [|z rest IH]; intros i Hnth.
  - destruct i; discriminate.
  - destruct i as [|j]; simpl in Hnth.
    + injection Hnth as ->. simpl.
      destruct (N.eq_dec c x), (N.eq_dec y x); lia.
    + specialize (IH _ Hnth). simpl.
      destruct (N.eq_dec z x); lia.
Qed.

Lemma setAt_app {A : Type} (prefix suffix : list A) (c y : A) :
  setAt (length prefix) y (prefix ++ c :: suffix) = prefix ++ y :: suffix.
Proof.
  induction prefix as [|x prefix IH]; simpl; [reflexivity|].
  rewrite IH. reflexivity.
Qed.

(** The loop over indices does what the reading along the array does. *)
Lemma removeCommonFrom_along (suffix prefix n2 : list CodeUnit) :
  removeCommonFrom (length suffix) (length prefix) (prefix ++ suffix) n2
  = (prefix ++ fst (removeCommonAlong suffix n2),
     snd (removeCommonAlong suffix n2)).
Proof.
  revert prefix n2. induction suffix as [|c rest IH]; intros prefix n2.
  - reflexivity.
  - cbn [length removeCommonFrom removeCommonAlong].
    rewrite nth_error_app2 by lia. rewrite Nat.sub_diag.
    cbn [nth_error].
    destruct (indexOf c n2) as [index|].
    + rewrite setAt_app.
      replace (S (length prefix)) with (length (prefix ++ [star]))
        by (rewrite length_app; simpl; lia).
      replace (prefix ++ star :: rest) with ((prefix ++ [star]) ++ rest)
        by (rewrite <- app_assoc; reflexivity).
      rewrite IH.
      destruct (removeCommonAlong rest (setAt index star n2)) as [r1 r2].
      simpl. rewrite <- app_assoc. reflexivity.
    + replace (S (length prefix)) with (length (prefix ++ [c]))
        by (rewrite length_app; simpl; lia).
      replace (prefix ++ c :: rest) with ((prefix ++ [c]) ++ rest)
        by (rewrite <- app_assoc; reflexivity).
      rewrite IH.
      destruct (removeCommonAlong rest n2) as [r1 r2].
      simpl. rewrite <- app_assoc. reflexivity.
Qed.

Lemma removeCommon_along (n1 n2 : list CodeUnit) :
  removeCommon n1 n2 = removeCommonAlong n1 n2.
Proof.
  unfold removeCommon.
  pose proof (removeCommonFrom_along n1 [] n2) as Hloop. simpl in Hloop.
  rewrite Hloop. destruct (removeCommonAlong n1 n2); reflexivity.
Qed.

Lemma count_occ_head (c x : CodeUnit) (l : list CodeUnit) :
  count_occ N.eq_dec (c :: l) x
  = (if N.eq_dec c x then 1 else 0) + count_occ N.eq_dec l x.
Proof.
  cbn [count_occ]. destruct (N.eq_dec c x); reflexivity.
Qed.

Lemma removeCommonAlong_counts (n1 n2 : list CodeUnit) (x : CodeUnit) :
  x <> star ->
  count_occ N.eq_dec (fst (removeCommonAlong n1 n2)) x
  = count_occ N.eq_dec n1 x - count_occ N.eq_dec n2 x
  /\ count_occ N.eq_dec (snd (removeCommonAlong n1 n2)) x
     = count_occ N.eq_dec n2 x - count_occ N.eq_dec n1 x.
Proof.
  intros Hx. revert n2. induction n1 as [|c rest IH]; intros n2.
  - cbn [removeCommonAlong fst snd count_occ]. split; lia.
  - cbn [removeCommonAlong]. rewrite (count_occ_head c x rest).
    destruct (indexOf c n2) as [index|] eqn:Hindex.
    + apply indexOf_found in Hindex.
      destruct (IH (setAt index star n2)) as [IH1 IH2].
      destruct (removeCommonAlong rest (setAt index star n2)) as [r1 r2].
      cbn [fst snd] in *. rewrite (count_occ_head star x r1).
      generalize (count_occ_setAt n2 index c star x Hindex).
      destruct (N.eq_dec star x) as [Heq|_]; [symmetry in Heq; contradiction|].
      destruct (N.eq_dec c x); lia.
    + apply indexOfFrom_missing in Hindex.
      destruct (IH n2) as [IH1 IH2].
      destruct (removeCommonAlong rest n2) as [r1 r2].
      cbn [fst snd] in *. rewrite (count_occ_head c x r1).
      destruct (N.eq_dec c x) as [->|_]; lia.
Qed.

Lemma count_occ_filter_notStar (l : list CodeUnit) (x : CodeUnit) :
  count_occ N.eq_dec (filter notStar l) x
  = if N.eq_dec x star then 0 else count_occ N.eq_dec l x.
Proof.
  induction l as [|y rest IH].
  - cbn [filter count_occ]. destruct (N.eq_dec x star); reflexivity.
  - cbn [filter]. rewrite (count_occ_head y x rest).
    unfold notStar at 1. destruct (N.eqb_spec y star) as [Hy|Hy]; cbn [negb].
    + rewrite IH. destruct (N.eq_dec x star) as [Hx|Hx]; [reflexivity|].
      destruct (N.eq_dec y x) as [Hyx|_]; [congruence | reflexivity].
    + rewrite (count_occ_head y x (filter notStar rest)), IH.
      destruct (N.eq_dec y x) as [Hyx|_]; [|reflexivity].
      destruct (N.eq_dec x star) as [Hx|_]; [congruence | reflexivity].
Qed.

(** X1. After the loop that marks common characters, every character other
    than the mark itself is left in the first array as often as the first
    name has it more often than the second, and in the second array as
    often as the second name has it more often than the first. *)
Theorem removeCommon_counts (n1 n2 : list CodeUnit) (x : CodeUnit) :
  x <> star ->
  count_occ N.eq_dec (fst (removeCommon n1 n2)) x
  = count_occ N.eq_dec n1 x - count_occ N.eq_dec n2 x
  /\ count_occ N.eq_dec (snd (removeCommon n1 n2)) x
     = count_occ N.eq_dec n2 x - count_occ N.eq_dec n1 x.
Proof.
  intros Hx. rewrite removeCommon_along. apply removeCommonAlong_counts, Hx.
Qed.

Lemma removeCommon_counts_witness :
  count_occ N.eq_dec (fst (removeCommon (ofString "anna") (ofString "nina")))
            (N_of_ascii "a")
  = 1
  /\ count_occ N.eq_dec (snd (removeCommon (ofString "anna") (ofString "nina")))
               (N_of_ascii "a")
     = 0.
Proof.
  exact (removeCommon_counts (ofString "anna") (ofString "nina") (N_of_ascii "a")
           ltac:(discriminate)).
Defined.

Lemma survivors_swap (n1 n2 : list CodeUnit) :
  Permutation (filter notStar (fst (removeCommon n1 n2)))
              (filter notStar (snd (removeCommon n2 n1))).
Proof.
  apply (Permutation_count_occ N.eq_dec). intros x.
  rewrite !count_occ_filter_notStar.
  destruct (N.eq_dec x star) as [|Hx]; [reflexivity|].
  destruct (removeCommon_along n1 n2), (removeCommon_along n2 n1).
  rewrite !removeCommon_along.
  destruct (removeCommonAlong_counts n1 n2 x Hx) as [-> _].
  destruct (removeCommonAlong_counts n2 n1 x Hx) as [_ ->].
  reflexivity.
Qed.

Lemma overlapCount_swap (toLowerCase : JsString -> JsString) (name1 name2 : JsString) :
  overlapCount toLowerCase name1 name2 = overlapCount toLowerCase name2 name1.
Proof.
  unfold overlapCount.
  pose proof (survivors_swap (letters toLowerCase name1) (letters toLowerCase name2)) as H12.
  pose proof (survivors_swap (letters toLowerCase name2) (letters toLowerCase name1)) as H21.
  destruct (removeCommon (letters toLowerCase name1) (letters toLowerCase name2)) as [a1 a2].
  destruct (removeCommon (letters toLowerCase name2) (letters toLowerCase name1)) as [b1 b2].
  simpl in *.
  rewrite (Permutation_length H12), (Permutation_length H21). lia.
Qed.

(** X2. The game does not depend on the order of the two names: swapping
    them gives the same outcome, whatever the lower-casing built-in returns
    and whatever loop bound is given. *)
Theorem calculateFlames_swap
        (toLowerCase : JsString -> JsString) (fuel : nat) (name1 name2 : JsString) :
  calculateFlames toLowerCase fuel name1 name2
  = calculateFlames toLowerCase fuel name2 name1.
Proof.
  unfold calculateFlames.
  rewrite (overlapCount_swap toLowerCase name1 name2).
  destruct (trim name1), (trim name2); reflexivity.
Qed.

Lemma count_occ_nil_all (l : list CodeUnit) :
  (forall x, count_occ N.eq_dec l x = 0) -> l = [].
Proof.
  destruct l as [|y rest]; [reflexivity|].
  intros H. specialize (H y). rewrite (count_occ_head y y rest) in H.
  destruct (N.eq_dec y y); [discriminate | contradiction].
Qed.

(** X3. Two names with the same letters, in any order, any case and any
    spacing, are always Siblings with score 0: every letter is marked and
    the elimination loop is not entered. *)
Theorem calculateFlames_anagram
        (toLowerCase : JsString -> JsString) (fuel : nat) (name1 name2 : JsString) :
  trim name1 <> [] ->
  trim name2 <> [] ->
  Permutation (letters toLowerCase name1) (letters toLowerCase name2) ->
  calculateFlames toLowerCase fuel name1 name2
  = Done (Some {| status := "Siblings";
                  description := "A bond as deep as family, or soulmates in disguise.";
                  score := 0 |}).
Proof.
  intros H1 H2 Hperm.
  assert (Hzero : overlapCount toLowerCase name1 name2 = 0).
  { unfold overlapCount.
    assert (Hsame : forall x, count_occ N.eq_dec (letters toLowerCase name1) x
                              = count_occ N.eq_dec (letters toLowerCase name2) x)
      by (apply (Permutation_count_occ N.eq_dec); exact Hperm).
    assert (Ha : filter notStar (fst (removeCommon (letters toLowerCase name1)
                                                   (letters toLowerCase name2))) = []).
    { apply count_occ_nil_all. intros x. rewrite count_occ_filter_notStar.
      destruct (N.eq_dec x star) as [|Hx]; [reflexivity|].
      destruct (removeCommon_along (letters toLowerCase name1) (letters toLowerCase name2)).
      rewrite removeCommon_along.
      destruct (removeCommonAlong_counts (letters toLowerCase name1)
                  (letters toLowerCase name2) x Hx) as [-> _].
      rewrite Hsame. lia. }
    assert (Hb : filter notStar (snd (removeCommon (letters toLowerCase name1)
                                                   (letters toLowerCase name2))) = []).
    { apply count_occ_nil_all. intros x. rewrite count_occ_filter_notStar.
      destruct (N.eq_dec x star) as [|Hx]; [reflexivity|].
      rewrite removeCommon_along.
      destruct (removeCommonAlong_counts (letters toLowerCase name1)
                  (letters toLowerCase name2) x Hx) as [_ ->].
      rewrite Hsame. lia. }
    destruct (removeCommon (letters toLowerCase name1) (letters toLowerCase name2))
      as [a1 a2].
    simpl in Ha, Hb. rewrite Ha, Hb. reflexivity. }
  unfold calculateFlames. rewrite Hzero.
  destruct (trim name1); [contradiction|].
  destruct (trim name2); [contradiction|].
  reflexivity.
Qed.

Lemma calculateFlames_anagram_witness :
  calculateFlames toLowerCaseAscii 0 (ofString "Amy") (ofString " m AY")
  = Done (Some {| status := "Siblings";
                  description := "A bond as deep as family, or soulmates in disguise.";
                  score := 0 |}).
Proof.
  apply calculateFlames_anagram.
  - discriminate.
  - discriminate.
  - exact (perm_swap 109%N 97%N [121%N]).
Defined.

Lemma mod_shift (a n : nat) :
  2 <= n <= 6 -> (a + 60) mod n = a mod n.
Proof.
  intros Hn.
  assert (Hcases : n = 2 \/ n = 3 \/ n = 4 \/ n = 5 \/ n = 6) by lia.
  destruct Hcases as [-> | [-> | [-> | [-> | ->]]]].
  - exact (Nat.Div0.mod_add a 30 2).
  - exact (Nat.Div0.mod_add a 20 3).
  - exact (Nat.Div0.mod_add a 15 4).
  - exact (Nat.Div0.mod_add a 12 5).
  - exact (Nat.Div0.mod_add a 10 6).
Qed.

Lemma eliminate_shift (fuel count idx : nat) (activeFlames : list string) :
  1 <= count ->
  length activeFlames <= 6 ->
  eliminate fuel (count + 60) idx activeFlames
  = eliminate fuel count idx activeFlames.
Proof.
  intros Hcount. revert idx activeFlames.
  induction fuel as [|fuel IH]; intros idx activeFlames Hlen.
  - reflexivity.
  - simpl. destruct (Nat.ltb_spec 1 (length activeFlames)) as [Hgt|Hle]; [|reflexivity].
    replace (idx + (count + 60) - 1) with (idx + count - 1 + 60) by lia.
    rewrite mod_shift by lia.
    apply IH.
    assert (Hidx : (idx + count - 1) mod length activeFlames < length activeFlames)
      by (apply Nat.mod_upper_bound; lia).
    pose proof (FlamesFacts.splice1_length _ _ Hidx). lia.
Qed.

Lemma eliminationRound_shift (count idx : nat) (activeFlames : list string) :
  1 <= count ->
  2 <= length activeFlames <= 6 ->
  eliminationRound (count + 60) idx activeFlames
  = eliminationRound count idx activeFlames.
Proof.
  intros Hcount Hlen. unfold eliminationRound.
  replace (idx + (count + 60) - 1) with (idx + count - 1 + 60) by lia.
  rewrite mod_shift by exact Hlen. reflexivity.
Qed.

(** The loop body as a step on the index and the array. *)
Lemma rounds_length (count rounds idx : nat) (activeFlames : list string) :
  rounds < length activeFlames ->
  length (snd (Nat.iter rounds
                 (fun s => eliminationRound count (fst s) (snd s))
                 (idx, activeFlames)))
  = length activeFlames - rounds.
Proof.
  induction rounds as [|rounds IH]; intros Hlen.
  - cbn. lia.
  - rewrite Nat.iter_succ. specialize (IH ltac:(lia)).
    pose proof (FlamesFacts.eliminationRound_length count
                  (fst (Nat.iter rounds
                          (fun s => eliminationRound count (fst s) (snd s))
                          (idx, activeFlames)))
                  (snd (Nat.iter rounds
                          (fun s => eliminationRound count (fst s) (snd s))
                          (idx, activeFlames)))
                  ltac:(lia)) as Hround.
    lia.
Qed.

Lemma rounds_shift (count rounds idx : nat) (activeFlames : list string) :
  1 <= count ->
  rounds < length activeFlames ->
  length activeFlames <= 6 ->
  Nat.iter rounds (fun s => eliminationRound (count + 60) (fst s) (snd s))
           (idx, activeFlames)
  = Nat.iter rounds (fun s => eliminationRound count (fst s) (snd s))
             (idx, activeFlames).
Proof.
  intros Hcount. induction rounds as [|rounds IH]; intros Hlt Hlen.
  - reflexivity.
  - rewrite !Nat.iter_succ. rewrite (IH ltac:(lia) Hlen).
    apply eliminationRound_shift; [exact Hcount|].
    rewrite rounds_length by lia. lia.
Qed.

(** X4. The elimination depends on a positive score only through its
    remainder by 60.  Every length the array of letters goes through
    divides 60, so with 60 more steps of counting the loop over F, L, A, M,
    E, S has, after each of its five rounds, the same index and the same
    letters left (it takes the same letters out in the same order), and it
    ends with the same letter. *)
Theorem eliminate_period (fuel count : nat) :
  1 <= count ->
  (forall rounds,
     rounds <= 5 ->
     Nat.iter rounds (fun s => eliminationRound (count + 60) (fst s) (snd s))
              (0, splitFlames)
     = Nat.iter rounds (fun s => eliminationRound count (fst s) (snd s))
                (0, splitFlames))
  /\ eliminate fuel (count + 60) 0 splitFlames
     = eliminate fuel count 0 splitFlames.
Proof.
  intros Hcount. split.
  - intros rounds Hrounds. apply rounds_shift; [exact Hcount | cbn; lia | cbn; lia].
  - apply eliminate_shift; [exact Hcount | simpl; lia].
Qed.

Lemma eliminate_period_witness :
  (forall rounds,
     rounds <= 5 ->
     Nat.iter rounds (fun s => eliminationRound (7 + 60) (fst s) (snd s))
              (0, splitFlames)
     = Nat.iter rounds (fun s => eliminationRound 7 (fst s) (snd s))
                (0, splitFlames))
  /\ eliminate 5 (7 + 60) 0 splitFlames = eliminate 5 7 0 splitFlames.
Proof.
  apply eliminate_period. lia.
Defined.

(** Seven steps of counting take out, in this order, F, A, S, L and M. *)
Example eliminate_seven_order :
  map (fun rounds =>
         snd (Nat.iter rounds (fun s => eliminationRound 7 (fst s) (snd s))
                       (0, splitFlames)))
      [1; 2; 3; 4; 5]
  = [["L"; "A"; "M"; "E"; "S"]; ["L"; "M"; "E"; "S"]; ["L"; "M"; "E"];
     ["M"; "E"]; ["E"]].
Proof. reflexivity. Qed.

End FlamesOrderFacts.

Module ShellFacts.

Local Open Scope list_scope.

Lemma onInterval_typing (st : Welcome.State) :
  Welcome.intervalSet st = true ->
  Welcome.index st < String.length Welcome.text ->
  Welcome.timeouts st = [] ->
  let st' := Welcome.onInterval st in
  Welcome.index st' = S (Welcome.index st)
  /\ Welcome.displayedText st'
     = Welcome.slice0 (S (Welcome.index st)) Welcome.text
  /\ Welcome.clock st' = (Welcome.clock st + 100)%N
  /\ Welcome.completions st' = Welcome.completions st
  /\ Welcome.intervalSet st'
     = negb (S (Welcome.index st) =? String.length Welcome.text)
  /\ Welcome.timeouts st'
     = (if S (Welcome.index st) =? String.length Welcome.text
        then [(Welcome.clock st + 100 + 1500)%N] else []).
Proof.
  intros Hset Hindex Htimeouts. unfold Welcome.onInterval. rewrite Hset.
  replace (Welcome.index st + 1) with (S (Welcome.index st)) by lia.
  destruct (S (Welcome.index st) =? String.length Welcome.text);
    cbn; rewrite ?Htimeouts; repeat split.
Qed.

Lemma typing_invariant (k : nat) :
  k <= String.length Welcome.text ->
  let st := Nat.iter k Welcome.onInterval Welcome.mounted in
  Welcome.index st = k
  /\ Welcome.displayedText st = Welcome.slice0 k Welcome.text
  /\ Welcome.clock st = (100 * N.of_nat k)%N
  /\ Welcome.completions st = 0
  /\ Welcome.intervalSet st = (k <? String.length Welcome.text)
  /\ Welcome.timeouts st
     = (if k <? String.length Welcome.text then []
        else [(100 * N.of_nat k + 1500)%N]).
Proof.
  induction k as [|k IH]; intros Hk.
  - cbn. repeat split.
  - destruct (IH ltac:(lia)) as (Hindex & Htext & Hclock & Hdone & Hset & Htimeouts).
    assert (Hlt : (k <? String.length Welcome.text) = true)
      by (apply Nat.ltb_lt; lia).
    rewrite Hlt in Hset, Htimeouts.
    rewrite Nat.iter_succ.
    destruct (onInterval_typing (Nat.iter k Welcome.onInterval Welcome.mounted)
                Hset ltac:(rewrite Hindex; lia) Htimeouts)
      as (Hindex' & Htext' & Hclock' & Hdone' & Hset' & Htimeouts').
    rewrite Hindex in *. rewrite Hclock in *.
    cbv zeta. rewrite Hindex', Htext', Hclock', Hdone', Hset', Htimeouts', Hdone.
    replace (100 * N.of_nat k + 100)%N with (100 * N.of_nat (S k))%N by lia.
    repeat split.
    + destruct (Nat.eqb_spec (S k) (String.length Welcome.text)) as [Heq|Hne].
      * rewrite Heq, Nat.ltb_irrefl. reflexivity.
      * symmetry. apply Nat.ltb_lt. lia.
    + destruct (Nat.eqb_spec (S k) (String.length Welcome.text)) as [Heq|Hne].
      * rewrite Heq, Nat.ltb_irrefl. reflexivity.
      * replace (S k <? String.length Welcome.text) with true
          by (symmetry; apply Nat.ltb_lt; lia).
        reflexivity.
Qed.

Lemma onInterval_cleared (st : Welcome.State) :
  Welcome.intervalSet st = false -> Welcome.onInterval st = st.
Proof. intros Hset. unfold Welcome.onInterval. rewrite Hset. reflexivity. Qed.

(** X5. The welcome screen types its text one character every 100 ms:
    after [k] firings of the interval the first [k] characters are shown,
    and with the last character the interval is cleared and the completion
    is scheduled, once, 1500 ms later; further firings change nothing, and
    the completion has not been called by the typing itself. *)
Theorem welcome_types_then_schedules (k : nat) :
  let st := Nat.iter k Welcome.onInterval Welcome.mounted in
  let shown := Nat.min k (String.length Welcome.text) in
  Welcome.displayedText st = Welcome.slice0 shown Welcome.text
  /\ Welcome.intervalSet st = (k <? String.length Welcome.text)
  /\ Welcome.timeouts st
     = (if k <? String.length Welcome.text then []
        else [(100 * N.of_nat (String.length Welcome.text) + 1500)%N])
  /\ Welcome.completions st = 0
  /\ (String.length Welcome.text <= k ->
      Welcome.displayedText st = Welcome.text).
Proof.
  assert (Hfrozen : forall extra,
             Nat.iter (String.length Welcome.text + extra) Welcome.onInterval
                      Welcome.mounted
             = Nat.iter (String.length Welcome.text) Welcome.onInterval
                        Welcome.mounted).
  { induction extra as [|extra IH].
    - rewrite Nat.add_0_r. reflexivity.
    - rewrite Nat.add_succ_r.
      rewrite Nat.iter_succ, IH.
      apply onInterval_cleared.
      destruct (typing_invariant (String.length Welcome.text) (le_n _))
        as (_ & _ & _ & _ & Hset & _).
      rewrite Hset. apply Nat.ltb_irrefl. }
  assert (Hfull : Welcome.slice0 (String.length Welcome.text) Welcome.text
                  = Welcome.text) by reflexivity.
  destruct (Nat.le_gt_cases k (String.length Welcome.text)) as [Hle|Hgt].
  - destruct (typing_invariant k Hle) as (_ & Htext & _ & Hdone & Hset & Htimeouts).
    cbv zeta. rewrite Nat.min_l by exact Hle.
    split; [exact Htext|]. split; [exact Hset|].
    split.
    { rewrite Htimeouts. destruct (Nat.ltb_spec k (String.length Welcome.text)) as [|Hge];
        [reflexivity|].
      replace k with (String.length Welcome.text) by lia. reflexivity. }
    split; [exact Hdone|].
    intros Hge. replace k with (String.length Welcome.text) in Htext by lia.
    replace k with (String.length Welcome.text) by lia.
    rewrite Htext. exact Hfull.
  - replace k with (String.length Welcome.text + (k - String.length Welcome.text))
      by lia.
    rewrite Hfrozen.
    destruct (typing_invariant (String.length Welcome.text) (le_n _))
      as (_ & Htext & _ & Hdone & Hset & Htimeouts).
    cbv zeta. rewrite Nat.min_r by lia.
    replace (String.length Welcome.text + (k - String.length Welcome.text)
             <? String.length Welcome.text) with false
      by (symmetry; apply Nat.ltb_ge; lia).
    rewrite Nat.ltb_irrefl in Hset, Htimeouts.
    split; [exact Htext|]. split; [exact Hset|]. split; [exact Htimeouts|].
    split; [exact Hdone|]. intros _. rewrite Htext. exact Hfull.
Qed.

Lemma settled_handle (st : Welcome.State) (ev : Welcome.Event) :
  WelcomeView.settled st -> WelcomeView.settled (Welcome.handle st ev).
Proof.
  intros Hst. pose proof Hst as (Hset & Hone & Hdone).
  destruct ev; cbn [Welcome.handle].
  - unfold Welcome.onInterval.
    destruct (Welcome.intervalSet st) eqn:Hinterval;
      [|exact Hst].
    destruct (Hset eq_refl) as (Htimeouts & Hcalls & Hindex).
    destruct (Nat.eqb_spec (Welcome.index st + 1) (String.length Welcome.text))
      as [Hlast|Hmore]; unfold WelcomeView.settled;
      cbn [Welcome.intervalSet Welcome.timeouts Welcome.completions
           Welcome.index Welcome.displayedText];
      rewrite Htimeouts, Hcalls.
    + split; [discriminate|]. split; [cbn; lia|].
      intros _. split; [|reflexivity]. rewrite Hlast. reflexivity.
    + split; [intros _; repeat split; lia|]. split; [cbn; lia|].
      cbn. lia.
  - unfold Welcome.onTimeout.
    destruct (Welcome.timeouts st) as [|due rest] eqn:Htimeouts.
    + unfold WelcomeView.settled. rewrite Htimeouts.
      split; [exact Hset|]. split; [exact Hone | exact Hdone].
    + cbn [length] in Hone, Hdone.
      destruct (Hdone ltac:(lia)) as (Htext & Hinterval).
      unfold WelcomeView.settled;
        cbn [Welcome.intervalSet Welcome.timeouts Welcome.completions
             Welcome.index Welcome.displayedText].
      split; [intros Habs; rewrite Hinterval in Habs; discriminate|].
      split; [lia|]. intros _. split; assumption.
  - unfold Welcome.cleanup, WelcomeView.settled;
      cbn [Welcome.intervalSet Welcome.timeouts Welcome.completions
           Welcome.index Welcome.displayedText].
    split; [discriminate|]. split; [exact Hone|].
    intros Hpos. split; [apply Hdone, Hpos | reflexivity].
Qed.

(** X6. Whatever the order of interval firings, timeout firings and the
    unmount, the welcome screen calls its completion at most once, never
    while it is still typing, and only with the whole text on display. *)
Theorem welcome_completes_once (events : list Welcome.Event) :
  let st := Welcome.run events Welcome.mounted in
  Welcome.completions st <= 1
  /\ (Welcome.completions st = 1 ->
      Welcome.displayedText st = Welcome.text
      /\ Welcome.intervalSet st = false
      /\ Welcome.timeouts st = []).
Proof.
  assert (Hinv : forall st, WelcomeView.settled st ->
                            WelcomeView.settled (Welcome.run events st)).
  { induction events as [|ev rest IH]; intros st Hst; [exact Hst|].
    cbn [Welcome.run fold_left]. apply IH, settled_handle, Hst. }
  assert (Hstart : WelcomeView.settled Welcome.mounted).
  { unfold WelcomeView.settled. cbn. split; [intros _; repeat split; lia|].
    split; lia. }
  destruct (Hinv _ Hstart) as (_ & Hone & Hdone).
  cbv zeta. split; [lia|]. intros Hcalled.
  destruct (Hdone ltac:(lia)) as (Htext & Hinterval).
  split; [exact Htext|]. split; [exact Hinterval|].
  destruct (Welcome.timeouts (Welcome.run events Welcome.mounted));
    [reflexivity | cbn [length] in Hone; lia].
Qed.

Lemma runActions_stays (actions : list App.Action) (currentView : App.AppView) :
  currentView <> App.WELCOME ->
  App.runActions actions currentView <> App.WELCOME.
Proof.
  revert currentView. induction actions as [|a rest IH]; intros v Hv.
  - exact Hv.
  - cbn [App.runActions fold_left]. apply IH.
    destruct a, v; cbn; first [discriminate | contradiction].
Qed.

(** X7. The shell leaves the welcome view only through the completion of
    the welcome screen, and never comes back to it: until the completion
    the content is the welcome screen and no navigation is rendered, so
    that no click changes the view; from the completion on the content is
    the voice chat or the game and the navigation is rendered. *)
Theorem welcome_left_once (actions : list App.Action) :
  let currentView := App.runActions actions App.WELCOME in
  (In App.WelcomeComplete actions ->
   currentView <> App.WELCOME
   /\ App.showsNavigation currentView = true
   /\ App.renderContent currentView <> App.WelcomeContent)
  /\ (~ In App.WelcomeComplete actions ->
      currentView = App.WELCOME
      /\ App.showsNavigation currentView = false
      /\ App.renderContent currentView = App.WelcomeContent).
Proof.
  cbv zeta. split.
  - intros Hin.
    assert (Hleft : App.runActions actions App.WELCOME <> App.WELCOME).
    { generalize App.WELCOME at 1 as start.
      induction actions as [|a rest IH]; intros start; [destruct Hin|].
      cbn [App.runActions fold_left].
      destruct Hin as [->|Hin].
      - apply runActions_stays. discriminate.
      - apply IH, Hin. }
    destruct (App.runActions actions App.WELCOME);
      [contradiction | |]; repeat split; discriminate.
  - intros Hnot.
    assert (Hstay : App.runActions actions App.WELCOME = App.WELCOME).
    { induction actions as [|a rest IH]; [reflexivity|].
      cbn [App.runActions fold_left].
      destruct a; [exfalso; apply Hnot; left; reflexivity | |];
        cbn; apply IH; intros Hin; apply Hnot; right; exact Hin. }
    rewrite Hstay. repeat split.
Qed.

End ShellFacts.

Module LiveChatErrors.

Import LiveChat ErrorFacts.

(** X8. An error that the retry loop treats as fatal is always reported as
    an authentication or an access problem, never as a temporary, a network
    or a microphone problem and never with its raw text. *)
Theorem fatal_error_message (err : JsError) :
  isFatal err = true ->
  getFriendlyErrorMessage err
  = "Authentication failed. Please check your API Key configuration."
  \/ getFriendlyErrorMessage err
     = "Access denied. Your API Key may not have permission to use this model.".
Proof.
  unfold isFatal, getFriendlyErrorMessage.
  destruct (message err) as [m|]; [|discriminate].
  intros Hfatal.
  assert (Htruthy : Js.truthy m = true) by (destruct m; [discriminate | reflexivity]).
  rewrite Htruthy. cbv zeta.
  assert (H401 : Js.includes "401" m = true ->
                 Js.includes "401" (Js.toLowerCase m) = true)
    by exact (includes_toLowerCase "401" m).
  assert (Hkey : Js.includes "API key" m = true ->
                 Js.includes "api key" (Js.toLowerCase m) = true)
    by exact (includes_toLowerCase "API key" m).
  assert (Hdenied : Js.includes "Permission denied" m = true ->
                    Js.includes "permission denied" (Js.toLowerCase m) = true)
    by exact (includes_toLowerCase "Permission denied" m).
  destruct (Js.includes "401" (Js.toLowerCase m)
            || Js.includes "unauthenticated" (Js.toLowerCase m)
            || Js.includes "api key" (Js.toLowerCase m)) eqn:Hauth;
    [left; reflexivity|].
  apply orb_false_elim in Hauth. destruct Hauth as [Hauth Hnokey].
  apply orb_false_elim in Hauth. destruct Hauth as [Hno401 _].
  apply orb_prop in Hfatal. destruct Hfatal as [Hfatal|Hfatal].
  - apply orb_prop in Hfatal. destruct Hfatal as [Hfatal|Hfatal].
    + rewrite (H401 Hfatal) in Hno401. discriminate.
    + rewrite (Hkey Hfatal) in Hnokey. discriminate.
  - rewrite (Hdenied Hfatal), orb_true_r. right. reflexivity.
Qed.

Lemma fatal_error_message_witness :
  getFriendlyErrorMessage (mkError "Permission denied for this model")
  = "Authentication failed. Please check your API Key configuration."
  \/ getFriendlyErrorMessage (mkError "Permission denied for this model")
     = "Access denied. Your API Key may not have permission to use this model.".
Proof.
  apply fatal_error_message. reflexivity.
Defined.

End LiveChatErrors.

Module LiveChatMore.

Import LiveChat LiveChatView LiveChatFacts.
Local Open Scope list_scope.

Section More.

Context {TL : Timeline} {AU : AudioUtils}.

(** *** What a handler adds to the trace *)

Lemma Emits_ret {A} (P : Effect -> bool) (a : A) : Emits P (ret a).
Proof. intros w. exists []. split; reflexivity. Qed.

Lemma Emits_throw {A} (P : Effect -> bool) (e : JsError) : Emits P (@throw _ A e).
Proof. intros w. exists []. split; reflexivity. Qed.

Lemma Emits_readRef {A} (P : Effect -> bool) (cell : Refs -> A) :
  Emits P (readRef cell).
Proof. intros w. exists []. split; reflexivity. Qed.

Lemma Emits_getUi (P : Effect -> bool) : Emits P getUi.
Proof. intros w. exists []. split; reflexivity. Qed.

Lemma Emits_getBrowser (P : Effect -> bool) : Emits P getBrowser.
Proof. intros w. exists []. split; reflexivity. Qed.

Lemma Emits_modifyUi (P : Effect -> bool) (f : UiState -> UiState) :
  Emits P (modifyUi f).
Proof. intros w. exists []. split; reflexivity. Qed.

Lemma Emits_modifyRefs (P : Effect -> bool) (f : Refs -> Refs) :
  Emits P (modifyRefs f).
Proof. intros w. exists []. split; reflexivity. Qed.

Lemma Emits_modifyBrowser (P : Effect -> bool) (f : Browser -> Browser) :
  (forall b, trace (f b) = trace b) -> Emits P (modifyBrowser f).
Proof. intros Hf w. exists []. split; [apply Hf | reflexivity]. Qed.

Lemma Emits_emit (P : Effect -> bool) (e : Effect) :
  P e = true -> Emits P (emit e).
Proof.
  intros He w. exists [(clock (browser w), e)]. split; [reflexivity|].
  simpl. rewrite He. reflexivity.
Qed.

Lemma Emits_bind {A B} (P : Effect -> bool) (m : M A) (k : A -> M B) :
  Emits P m -> (forall a, Emits P (k a)) -> Emits P (bind m k).
Proof.
  intros Hm Hk w. unfold bind.
  destruct (Hm w) as (new1 & Htrace1 & Hall1).
  destruct (m w) as [[a|e] w1]; simpl in *.
  - destruct (Hk a w1) as (new2 & Htrace2 & Hall2).
    exists (new2 ++ new1). split.
    + rewrite Htrace2, Htrace1, app_assoc. reflexivity.
    + rewrite map_app, forallb_app, Hall1, Hall2. reflexivity.
  - exists new1. split; assumption.
Qed.

Lemma Emits_tryCatch {A} (P : Effect -> bool) (body : M A)
      (handler : JsError -> M A) :
  Emits P body -> (forall e, Emits P (handler e)) -> Emits P (tryCatch body handler).
Proof.
  intros Hm Hk w. unfold tryCatch.
  destruct (Hm w) as (new1 & Htrace1 & Hall1).
  destruct (body w) as [[a|e] w1]; simpl in *.
  - exists new1. split; assumption.
  - destruct (Hk e w1) as (new2 & Htrace2 & Hall2).
    exists (new2 ++ new1). split.
    + rewrite Htrace2, Htrace1, app_assoc. reflexivity.
    + rewrite map_app, forallb_app, Hall1, Hall2. reflexivity.
Qed.

Lemma Emits_forEach {A} (P : Effect -> bool) (items : list A) (f : A -> M unit) :
  (forall x, Emits P (f x)) -> Emits P (forEach items f).
Proof.
  intros Hf. induction items as [|x rest IH]; simpl.
  - apply Emits_ret.
  - apply Emits_bind; [apply Hf | intros _; exact IH].
Qed.

Lemma Emits_weaken {A} (P Q : Effect -> bool) (m : M A) :
  (forall e, P e = true -> Q e = true) -> Emits P m -> Emits Q m.
Proof.
  intros HPQ Hm w. destruct (Hm w) as (new & Htrace & Hall).
  exists new. split; [exact Htrace|].
  rewrite forallb_forall in *. intros e He. apply HPQ, Hall, He.
Qed.

Ltac emits :=
  repeat
    lazymatch goal with
    | |- Emits _ (bind _ _) => apply Emits_bind; [| intros ?]
    | |- Emits _ (tryCatch _ _) => apply Emits_tryCatch; [| intros ?]
    | |- Emits _ (forEach _ _) => apply Emits_forEach; intros ?
    | |- Emits _ (ret _) => apply Emits_ret
    | |- Emits _ (throw _) => apply Emits_throw
    | |- Emits _ (readRef _) => apply Emits_readRef
    | |- Emits _ getUi => apply Emits_getUi
    | |- Emits _ getBrowser => apply Emits_getBrowser
    | |- Emits _ (modifyUi _) => apply Emits_modifyUi
    | |- Emits _ (modifyRefs _) => apply Emits_modifyRefs
    | |- Emits _ (modifyBrowser _) =>
        apply Emits_modifyBrowser; intros ?; reflexivity
    | |- Emits _ (emit _) => apply Emits_emit; reflexivity
    | |- Emits _ (match ?x with _ => _ end) => destruct x
    | |- Emits _ _ =>
        progress unfold closeContext, trackStop, nodeDisconnect, sourceStop,
          isFaulty, fresh, createNode, resumeIfSuspended, setPromise, thenSend,
          setConnected, setError, setIsTalking, setIsRetrying,
          setSelectedLanguage, setSelectedMode,
          putInputAudioContextRef, putOutputAudioContextRef, putStreamRef,
          putProcessorRef, putInputSourceRef, putSessionPromiseRef,
          putNextStartTimeRef, putAiClientRef, putSourcesRef,
          putUserInitiatedDisconnect
    end.

Lemma Emits_effectsSince {A} (P : Effect -> bool) (m : M A) (w : World) :
  Emits P m -> forallb P (effectsSince w (snd (m w))) = true.
Proof.
  intros Hm. destruct (Hm w) as (new & Htrace & Hall).
  rewrite (effectsSince_app _ _ _ Htrace). exact Hall.
Qed.

Lemma connectAttempts_app (w w' : World) (new : list (N * Effect)) :
  trace (browser w') = new ++ trace (browser w) ->
  forallb notConnect (map snd new) = true ->
  connectAttempts w' = connectAttempts w.
Proof.
  intros Htrace Hall. unfold connectAttempts.
  rewrite Htrace, rev_app_distr, flat_map_app.
  rewrite <- (app_nil_r (flat_map _ (rev (trace (browser w))))) at 2.
  f_equal.
  assert (Hrev : forallb notConnect (map snd (rev new)) = true).
  { rewrite forallb_forall in *. intros e He. apply Hall.
    rewrite in_map_iff in *. destruct He as (x & Hx & Hin).
    exists x. split; [exact Hx | apply in_rev; exact Hin]. }
  clear Hall Htrace. induction (rev new) as [|[t e] rest IH]; [reflexivity|].
  simpl in *. apply andb_prop in Hrev. destruct Hrev as [He Hrest].
  rewrite (IH Hrest). destruct e; try reflexivity; discriminate.
Qed.

Lemma Emits_connectAttempts {A} (m : M A) (w : World) :
  Emits notConnect m -> connectAttempts (snd (m w)) = connectAttempts w.
Proof.
  intros Hm. destruct (Hm w) as (new & Htrace & Hall).
  eapply connectAttempts_app; eassumption.
Qed.

(** *** The callbacks log and play, and nothing else *)

Lemma stopSession_emits : Emits isRelease stopSession.
Proof. unfold stopSession. emits. Qed.

Lemma onopen_emits : Emits notConnect onopen.
Proof. unfold onopen. emits. Qed.

Lemma onclose_emits : Emits isConsole onclose.
Proof. unfold onclose. emits. Qed.

Lemma onerror_emits : Emits isConsole onerror.
Proof. unfold onerror. emits. Qed.

Lemma onended_emits (source : nat) : Emits isConsole (onended source).
Proof. unfold onended. emits. Qed.

Lemma onmessage_emits (now : time) (msg : LiveServerMessage) :
  Emits notConnect (onmessage now msg).
Proof. unfold onmessage. emits. Qed.

Lemma onaudioprocess_emits (frame : nat) : Emits notConnect (onaudioprocess frame).
Proof. unfold onaudioprocess. emits. Qed.

Lemma connectFulfilled_emits (promise : nat) :
  Emits notConnect (connectFulfilled promise).
Proof. unfold connectFulfilled. emits. Qed.

Lemma elapse_emits (P : Effect -> bool) (ms : N) : Emits P (elapse ms).
Proof. unfold elapse. emits. Qed.


(** *** Callbacks that arrive when no session is held *)

Lemma callback_without_session (ev : Event) (w : World) :
  isCallback ev = true ->
  noSession w ->
  noSession (exec (handle ev) w)
  /\ promises (browser (exec (handle ev) w)) = promises (browser w)
  /\ timers (browser (exec (handle ev) w)) = timers (browser w)
  /\ tapped (browser (exec (handle ev) w)) = tapped (browser w)
  /\ exists new,
       trace (browser (exec (handle ev) w)) = new ++ trace (browser w)
       /\ forallb isConsole (map snd new) = true.
Proof.
  intros Hev Hno. destruct w as [u r b]. destruct r. unfold noSession in *.
  simpl in Hno. destruct Hno as (-> & -> & -> & -> & ->).
  destruct ev; try discriminate Hev.
  - lazy. repeat split.
    eexists [_]. split; reflexivity.
  - lazy. repeat split. exists []. split; reflexivity.
  - lazy. repeat split. eexists [_]. split; reflexivity.
  - lazy. repeat split. eexists [_]. split; reflexivity.
  - unfold exec, handle. rewrite bind_getBrowser.
    destruct (existsb (Nat.eqb processor) (tapped _)).
    + lazy. repeat split. exists []. split; reflexivity.
    + lazy. repeat split. exists []. split; reflexivity.
  - lazy. repeat split. exists []. split; reflexivity.
Qed.

(** X20. Once the refs hold no session, as [stopSession] leaves them, the
    callbacks of the old connection (open, message, close, error, a capture
    frame, the end of a source) keep it that way whatever they carry: they
    start no playback, send no frame, create no node, make no connection
    attempt and set no timer; all they do to the outside is write to the
    console. *)
Theorem callbacks_without_session (events : list Event) (w : World) :
  forallb isCallback events = true ->
  noSession w ->
  noSession (run events w)
  /\ promises (browser (run events w)) = promises (browser w)
  /\ timers (browser (run events w)) = timers (browser w)
  /\ tapped (browser (run events w)) = tapped (browser w)
  /\ forallb isConsole (effectsSince w (run events w)) = true.
Proof.
  intros Hall Hno.
  enough (H : noSession (run events w)
              /\ promises (browser (run events w)) = promises (browser w)
              /\ timers (browser (run events w)) = timers (browser w)
              /\ tapped (browser (run events w)) = tapped (browser w)
              /\ exists new,
                   trace (browser (run events w)) = new ++ trace (browser w)
                   /\ forallb isConsole (map snd new) = true).
  { destruct H as (H1 & H2 & H3 & H4 & new & Htrace & Hnew).
    repeat (split; [assumption|]).
    rewrite (effectsSince_app _ _ _ Htrace). exact Hnew. }
  revert w Hno. induction events as [|ev rest IH]; intros w Hno.
  - simpl. repeat (split; [first [assumption | reflexivity]|]).
    exists []. split; reflexivity.
  - simpl in Hall. apply andb_prop in Hall. destruct Hall as [Hev Hrest].
    destruct (callback_without_session ev w Hev Hno)
      as (Hno1 & Hp1 & Ht1 & Hc1 & new1 & Htrace1 & Hnew1).
    destruct (IH Hrest _ Hno1) as (Hno2 & Hp2 & Ht2 & Hc2 & new2 & Htrace2 & Hnew2).
    simpl. repeat (split; [first [assumption | congruence]|]).
    exists (new2 ++ new1). split.
    + rewrite Htrace2, Htrace1, app_assoc. reflexivity.
    + rewrite map_app, forallb_app, Hnew1, Hnew2. reflexivity.
Qed.

(** X21. An open callback has no guard: arriving after [stopSession] it
    sets [connected] again, although no context, stream, processor or
    session promise is held and none is made. *)
Theorem onopen_after_stop (w : World) :
  tracksStop w ->
  let w' := run [EndCall; Open] w in
  connected (ui w') = true
  /\ isRetrying (ui w') = false
  /\ error (ui w') = None
  /\ noSession w'
  /\ processorRef (refs w') = None
  /\ userInitiatedDisconnect (refs w') = true.
Proof.
  intros Htracks w'. subst w'.
  change (run [EndCall; Open] w) with (snd (onopen (snd (stopSession w)))).
  destruct (stopSession_run w Htracks)
    as (w1 & Hrun & Hui & Hrefs & _).
  rewrite Hrun. cbn [snd].
  destruct w1 as [u1 r1 b1]. simpl in Hui, Hrefs. subst u1 r1.
  lazy. repeat split.
Qed.

(** *** Starting a session *)

Lemma noSession_of_refs (w : World) (source : option nat) (client stopped : bool) :
  refs w = {| inputAudioContextRef := None; outputAudioContextRef := None;
              streamRef := None; processorRef := None;
              inputSourceRef := source;
              sessionPromiseRef := None; nextStartTimeRef := tzero;
              aiClientRef := client; sourcesRef := [];
              userInitiatedDisconnect := stopped |} ->
  noSession w.
Proof. intros Hrefs. unfold noSession. rewrite Hrefs. repeat split. Qed.


Lemma connectAttempts_new (w w' : World) (new : list (N * Effect)) :
  trace (browser w') = new ++ trace (browser w) ->
  connectAttempts w'
  = connectAttempts w
    ++ flat_map (fun entry =>
                   match snd entry with
                   | LiveConnect _ attempt _ => [(fst entry, attempt)]
                   | _ => []
                   end) (rev new).
Proof.
  intros Htrace. unfold connectAttempts.
  rewrite Htrace, rev_app_distr, flat_map_app. reflexivity.
Qed.

(** [startSession] up to the failure of [getUserMedia]: what the [catch]
    block finds. *)
Lemma startSession_microphone_fails (env : StartEnv) (lang : Language)
      (key : string) (err : JsError) (w : World) :
  selectedLanguage (ui w) = Some lang ->
  apiKey env = Some key ->
  Js.truthy key = true ->
  holdsActiveStream w = false ->
  userMedia env = inl err ->
  exists w2 new,
    startSession env w = stopSession w2
    /\ ui w2 = {| connected := connected (ui w);
                  error := Some (getFriendlyErrorMessage err);
                  isTalking := isTalking (ui w);
                  isRetrying := isRetrying (ui w);
                  selectedLanguage := Some lang;
                  selectedMode := selectedMode (ui w) |}
    /\ streamRef (refs w2) = streamRef (refs w)
    /\ inputSourceRef (refs w2) = inputSourceRef (refs w)
    /\ aiClientRef (refs w2) = true
    /\ faulty (browser w2) = faulty (browser w)
    /\ promises (browser w2) = promises (browser w)
    /\ timers (browser w2) = timers (browser w)
    /\ trace (browser w2) = new ++ trace (browser w)
    /\ forallb notConnect (map snd new) = true
    /\ In GetUserMedia (map snd new).
Proof.
  intros Hlang Hkey Htruthy Hstream Hmedia.
  destruct env as [k c m]. cbn in Hkey, Hmedia. subst k m.
  destruct key as [|a key]; [discriminate|].
  destruct w as [u r b]. destruct u.
  destruct r as [inputCtx outputCtx stream processor inputSource sessionPromise
                 cursor client sources stopped].
  unfold holdsActiveStream in Hstream.
  cbn in Hlang, Hstream. subst.
  pose (inputCtx' := inputCtx). pose (outputCtx' := outputCtx).
  destruct inputCtx as [inputCtx|], outputCtx as [outputCtx|],
           stream as [[act trk]|];
    cbn in Hstream; subst;
    refine (ex_intro _ _ (ex_intro _
      ((clock b, ConsoleError "Setup Error:") :: (clock b, GetUserMedia)
       :: match outputCtx' with
          | None =>
              [(clock b,
                NewAudioContext (match inputCtx' with
                                 | None => S (nextId b)
                                 | Some _ => nextId b
                                 end) 24000%N)]
          | Some _ => []
          end
       ++ match inputCtx' with
          | None => [(clock b, NewAudioContext (nextId b) 16000%N)]
          | Some _ => []
          end
       ++ [(clock b, NewGoogleGenAI)]) _));
    (split;
     [ lazy - [stopSession getFriendlyErrorMessage]; reflexivity
     | cbn; repeat split; try reflexivity; tauto ]).
Qed.

(** X10. When the microphone is refused, [startSession] makes no connection
    attempt and sets no timer: the refusal is shown through
    [getFriendlyErrorMessage] and the session is torn down again.  The refs
    of the contexts, the stream, the processor and the session promise are
    empty, the cursor and the set of sources are reset and the stop flag is
    set; the client ref holds the new client, and the ref of the input
    source keeps what it held. *)
Theorem startSession_microphone_refused (env : StartEnv) (lang : Language)
        (key : string) (err : JsError) (w : World) :
  selectedLanguage (ui w) = Some lang ->
  apiKey env = Some key ->
  Js.truthy key = true ->
  holdsActiveStream w = false ->
  userMedia env = inl err ->
  tracksStop w ->
  exists w',
    startSession env w = (Ret tt, w')
    /\ ui w' = {| connected := false;
                  error := Some (getFriendlyErrorMessage err);
                  isTalking := false; isRetrying := false;
                  selectedLanguage := Some lang;
                  selectedMode := selectedMode (ui w) |}
    /\ noSession w'
    /\ processorRef (refs w') = None
    /\ inputSourceRef (refs w') = inputSourceRef (refs w)
    /\ aiClientRef (refs w') = true
    /\ nextStartTimeRef (refs w') = tzero
    /\ userInitiatedDisconnect (refs w') = true
    /\ promises (browser w') = promises (browser w)
    /\ timers (browser w') = timers (browser w)
    /\ connectAttempts w' = connectAttempts w
    /\ In GetUserMedia (effectsSince w w').
Proof.
  intros Hlang Hkey Htruthy Hstream Hmedia Htracks.
  destruct (startSession_microphone_fails env lang key err w
              Hlang Hkey Htruthy Hstream Hmedia)
    as (w2 & new & Hstart & Hui2 & Hstream2 & Hsource2 & Hclient2 & Hfaulty2
        & Hp2 & Ht2 & Htrace2 & Hnew & Hasked).
  destruct (stopSession_run w2)
    as (w' & Hrun & Hui & Hrefs & Hp & Ht & _ & _ & _ & _
        & released & Htrace & Hrel).
  { intros s track Hs Hin. rewrite Hfaulty2. rewrite Hstream2 in Hs.
    exact (Htracks s track Hs Hin). }
  exists w'. rewrite Hstart. split; [exact Hrun|].
  split; [rewrite Hui, Hui2; reflexivity|].
  split; [exact (noSession_of_refs _ _ _ _ Hrefs)|].
  split; [rewrite Hrefs; reflexivity|].
  split; [rewrite Hrefs; exact Hsource2|].
  split; [rewrite Hrefs; exact Hclient2|].
  split; [rewrite Hrefs; reflexivity|].
  split; [rewrite Hrefs; reflexivity|].
  split; [congruence|]. split; [congruence|].
  assert (Hall : trace (browser w') = (released ++ new) ++ trace (browser w))
    by (rewrite Htrace, Htrace2, app_assoc; reflexivity).
  split.
  - apply (connectAttempts_app _ _ _ Hall).
    rewrite map_app, forallb_app, Hnew, andb_true_r.
    rewrite forallb_forall in *. intros e He. specialize (Hrel e He).
    destruct e; try reflexivity; discriminate.
  - rewrite (effectsSince_app _ _ _ Hall), map_app. apply in_or_app.
    right. exact Hasked.
Qed.

(** X11. With a key and a microphone, [startSession] makes exactly one
    connection attempt, numbered 0, with the configuration of the selected
    language and mode; it always makes a new client, but an audio context
    that is still in its ref and a stream that is still active are used
    again instead of being made. *)
Theorem startSession_connects (env : StartEnv) (lang : Language) (key : string)
        (stream : MediaStream) (w : World) :
  selectedLanguage (ui w) = Some lang ->
  apiKey env = Some key ->
  Js.truthy key = true ->
  userMedia env = inr stream ->
  let inputCtx :=
    match inputAudioContextRef (refs w) with
    | Some ctx => ctx
    | None => {| ctxId := nextId (browser w); sampleRate := 16000%N;
                 state := ctxInitial env |}
    end in
  let outputId :=
    match inputAudioContextRef (refs w) with
    | Some _ => nextId (browser w)
    | None => S (nextId (browser w))
    end in
  let outputCtx :=
    match outputAudioContextRef (refs w) with
    | Some ctx => ctx
    | None => {| ctxId := outputId; sampleRate := 24000%N;
                 state := ctxInitial env |}
    end in
  let w' := exec (startSession env) w in
  startSession env w = (Ret tt, w')
  /\ ui w' = {| connected := connected (ui w); error := None;
                isTalking := isTalking (ui w); isRetrying := isRetrying (ui w);
                selectedLanguage := Some lang;
                selectedMode := selectedMode (ui w) |}
  /\ refs w' = {| inputAudioContextRef := Some inputCtx;
                  outputAudioContextRef := Some outputCtx;
                  streamRef := if holdsActiveStream w then streamRef (refs w)
                               else Some stream;
                  processorRef := processorRef (refs w);
                  inputSourceRef := inputSourceRef (refs w);
                  sessionPromiseRef := Some (length (promises (browser w)));
                  nextStartTimeRef := nextStartTimeRef (refs w);
                  aiClientRef := true;
                  sourcesRef := sourcesRef (refs w);
                  userInitiatedDisconnect := false |}
  /\ promises (browser w')
     = promises (browser w)
       ++ [{| pLanguage := lang; pMode := selectedMode (ui w); pAttempt := 0;
              pState := Pending; pWaiting := [] |}]
  /\ timers (browser w') = timers (browser w)
  /\ effectsSince w w'
     = [LiveConnect (length (promises (browser w))) 0
                    (sessionConfig lang (selectedMode (ui w)));
        ConsoleLog (startingSessionText lang (selectedMode (ui w)) 0)]
       ++ (if holdsActiveStream w then [] else [GetUserMedia])
       ++ match outputAudioContextRef (refs w) with
          | Some _ => []
          | None => [NewAudioContext outputId 24000%N]
          end
       ++ match inputAudioContextRef (refs w) with
          | Some _ => []
          | None => [NewAudioContext (nextId (browser w)) 16000%N]
          end
       ++ [NewGoogleGenAI]
  /\ connectAttempts w' = connectAttempts w ++ [(clock (browser w), 0)].
Proof.
  intros Hlang Hkey Htruthy Hmedia.
  destruct env as [k c m]. cbn in Hkey, Hmedia. subst k m.
  destruct key as [|a key]; [discriminate|].
  destruct w as [u r b]. destruct u.
  destruct r as [inputCtx outputCtx held processor inputSource sessionPromise
                 cursor client sources stopped].
  cbn in Hlang. subst.
  assert (Hrun : forall w1 : World,
             exec (startSession {| apiKey := Some (String a key); ctxInitial := c;
                                   userMedia := inr stream |}) w1
             = snd (startSession {| apiKey := Some (String a key); ctxInitial := c;
                                    userMedia := inr stream |} w1))
    by reflexivity.
  unfold holdsActiveStream. cbv zeta.
  match goal with
  | |- context [effectsSince _ _ = ?rhs] => set (eff := rhs)
  end.
  destruct inputCtx as [inputCtx|], outputCtx as [outputCtx|],
           held as [[[|] trk]|];
    rewrite Hrun;
    match goal with
    | |- context [startSession ?env ?w] =>
        let result := fresh "result" in
        let E := fresh "E" in
        remember (startSession env w) as result eqn:E;
        lazy - [getSystemInstruction startingSessionText voiceNameOf] in E;
        subst result
    end;
    cbn [snd];
    match goal with
    | |- _ /\ _ /\ _ /\ _ /\ _ /\ effectsSince ?w0 ?w1 = _ /\ _ =>
        assert (Htr : trace (browser w1)
                      = map (pair (clock b)) eff ++ trace (browser w0))
          by (subst eff; reflexivity)
    end;
    rewrite (effectsSince_app _ _ _ Htr), (connectAttempts_new _ _ _ Htr);
    subst eff; repeat split; reflexivity.
Qed.

(** *** Failures and retries *)


Lemma run_app (events more : list Event) (w : World) :
  run (events ++ more) w = run more (run events w).
Proof.
  revert w. induction events as [|ev rest IH]; intros w; [reflexivity|].
  simpl. apply IH.
Qed.

Lemma handle_opens_emits (latency : N) (promise : nat) (w : World) :
  connectAttempts (run [Elapse latency; Open; ConnectFulfilled promise] w)
  = connectAttempts w.
Proof.
  cbn [run handle]. unfold exec.
  rewrite (Emits_connectAttempts _ _ (connectFulfilled_emits promise)).
  rewrite (Emits_connectAttempts _ _ onopen_emits).
  rewrite (Emits_connectAttempts _ _ (elapse_emits notConnect latency)).
  reflexivity.
Qed.

(** X14. However the attempts of a session end, the retry loop makes at
    most [MAX_RETRIES] attempts after the first one, and numbers them
    consecutively. *)
Theorem attempts_bounded (outcomes : list Attempt) (w : World) (lang : Language)
        (mode : Mode) (attempt : nat) :
  attemptInFlight w lang mode attempt ->
  attempt <= MAX_RETRIES ->
  exists more,
    connectAttempts (settle outcomes w) = connectAttempts w ++ more
    /\ map snd more = seq (attempt + 1) (length more)
    /\ attempt + length more <= MAX_RETRIES.
Proof.
  revert w attempt.
  induction outcomes as [|outcome rest IH]; intros w attempt Hflight Hle.
  - exists []. simpl. rewrite app_nil_r. repeat split. lia.
  - destruct outcome as [latency|latency err].
    + exists []. rewrite app_nil_r. split; [|simpl; split; [reflexivity | lia]].
      destruct Hflight as ((promise & waiting & Href & _) & _).
      cbn [settle]. rewrite Href. apply handle_opens_emits.
    + destruct (negb (isFatal err) && (attempt <? MAX_RETRIES)) eqn:Hretry.
      * apply andb_prop in Hretry. destruct Hretry as [Hfatal Hlt].
        apply negb_true_iff in Hfatal. apply Nat.ltb_lt in Hlt.
        destruct (settle_retry w lang mode attempt latency err rest
                    Hflight Hfatal Hlt)
          as (w1 & Hsettle & Hflight1 & Hattempts1 & _).
        destruct (IH w1 (attempt + 1) Hflight1 ltac:(lia))
          as (more & Hmore & Hnumbers & Hbound).
        exists (((clock (browser w) + latency + RETRY_DELAY_MS)%N, attempt + 1)
                :: more).
        rewrite Hsettle, Hmore, Hattempts1, <- app_assoc.
        split; [reflexivity|]. split.
        -- cbn [map snd length seq]. rewrite Hnumbers.
           replace (attempt + 1 + 1) with (S (attempt + 1)) by lia. reflexivity.
        -- cbn [length]. lia.
      * destruct (settle_gives_up w lang mode attempt latency err rest
                    Hflight Hretry)
          as (w1 & Hsettle & _ & _ & _ & Hattempts1).
        exists []. rewrite Hsettle, Hattempts1, app_nil_r.
        split; [reflexivity|]. simpl. split; [reflexivity | lia].
Qed.

(** *** Capture frames and the session promise *)

Lemma nth_error_setAt {A : Type} (i : nat) (x y : A) (l : list A) :
  nth_error l i = Some y -> nth_error (Flames.setAt i x l) i = Some x.
Proof.
  revert i. induction l as [|z rest IH]; intros i Hnth.
  - destruct i; discriminate.
  - destruct i as [|j]; simpl in *; [reflexivity | apply IH, Hnth].
Qed.

Lemma forEach_emit {A} (items : list A) (f : A -> Effect) (w : World) :
  forEach items (fun x => emit (f x)) w
  = (Ret tt,
     {| ui := ui w; refs := refs w;
        browser :=
          withTrace
            (rev (map (fun x => (clock (browser w), f x)) items)
             ++ trace (browser w))
            (browser w) |}).
Proof.
  revert w. induction items as [|x rest IH]; intros w.
  - destruct w as [u r b]. destruct b. reflexivity.
  - cbn [forEach]. unfold bind at 1. cbn [emit modifyBrowser].
    rewrite IH. cbn [map rev ui refs browser withTrace clock trace].
    rewrite <- app_assoc. reflexivity.
Qed.

Lemma audioProcess_pending (processor frame promise : nat) (p : ConnectPromise)
      (w : World) :
  sessionPromiseRef (refs w) = Some promise ->
  nth_error (promises (browser w)) promise = Some p ->
  pState p = Pending ->
  In processor (tapped (browser w)) ->
  exec (handle (AudioProcess processor frame)) w
  = {| ui := ui w; refs := refs w;
       browser :=
         withPromises
           (Flames.setAt promise
              {| pLanguage := pLanguage p; pMode := pMode p;
                 pAttempt := pAttempt p; pState := Pending;
                 pWaiting := pWaiting p ++ [frame] |}
              (promises (browser w)))
           (browser w) |}.
Proof.
  intros Href Hnth Hpending Htapped.
  unfold exec. cbn [handle]. rewrite bind_getBrowser.
  replace (existsb (Nat.eqb processor) (tapped (browser w))) with true.
  - unfold onaudioprocess. rewrite bind_readRef, Href.
    unfold thenSend. rewrite bind_getBrowser, Hnth, Hpending. reflexivity.
  - symmetry. apply existsb_exists. exists processor.
    split; [exact Htapped | apply Nat.eqb_refl].
Qed.

(** X17. Capture frames that arrive while the connection promise is pending
    are not sent and not dropped: they wait on the promise, and when it is
    fulfilled they are sent in the order they were captured, after the ones
    that waited before. *)
Theorem frames_wait_for_session (frames : list nat) (processor promise : nat)
        (p : ConnectPromise) (w : World) :
  sessionPromiseRef (refs w) = Some promise ->
  nth_error (promises (browser w)) promise = Some p ->
  pState p = Pending ->
  In processor (tapped (browser w)) ->
  let w1 := run (map (AudioProcess processor) frames) w in
  effectsSince w w1 = []
  /\ effectsSince w1 (run [ConnectFulfilled promise] w1)
     = rev (map (SendRealtimeInput promise) (pWaiting p ++ frames)).
Proof.
  intros Href Hnth Hpending Htapped w1. subst w1.
  enough (H : exists p',
             nth_error (promises (browser (run (map (AudioProcess processor) frames) w)))
                       promise = Some p'
             /\ pState p' = Pending
             /\ pWaiting p' = pWaiting p ++ frames
             /\ trace (browser (run (map (AudioProcess processor) frames) w))
                = trace (browser w)).
  { destruct H as (p' & Hnth' & Hpending' & Hwaiting' & Htrace').
    split.
    - apply (effectsSince_app _ _ []). exact Htrace'.
    - cbn [run handle]. unfold exec, connectFulfilled.
      rewrite bind_getBrowser, Hnth', Hpending'.
      unfold bind at 1. cbn [setPromise modifyBrowser].
      rewrite forEach_emit. cbn [snd].
      erewrite effectsSince_app; [|cbn; reflexivity].
      rewrite map_rev, map_map, Hwaiting'. reflexivity. }
  revert w p Href Hnth Hpending Htapped.
  induction frames as [|frame rest IH]; intros w p Href Hnth Hpending Htapped.
  - exists p. rewrite app_nil_r. repeat split; assumption.
  - cbn [map run].
    rewrite (audioProcess_pending processor frame promise p w
               Href Hnth Hpending Htapped).
    set (p1 := {| pLanguage := pLanguage p; pMode := pMode p;
                  pAttempt := pAttempt p; pState := Pending;
                  pWaiting := pWaiting p ++ [frame] |}).
    match goal with
    | |- context [run _ ?w0] =>
        destruct (IH w0 p1) as (p' & Hnth' & Hpending' & Hwaiting' & Htrace')
    end.
    + exact Href.
    + exact (nth_error_setAt promise p1 p _ Hnth).
    + reflexivity.
    + exact Htapped.
    + exists p'. split; [exact Hnth'|]. split; [exact Hpending'|].
      split; [|exact Htrace'].
      rewrite Hwaiting'. cbn [pWaiting p1]. rewrite <- app_assoc. reflexivity.
Qed.

(** *** Playback *)

Lemma onended_run (source : nat) (w : World) :
  exec (handle (Ended source)) w
  = {| ui := {| connected := connected (ui w); error := error (ui w);
                isTalking := match removeId source (sourcesRef (refs w)) with
                             | [] => false
                             | _ :: _ => isTalking (ui w)
                             end;
                isRetrying := isRetrying (ui w);
                selectedLanguage := selectedLanguage (ui w);
                selectedMode := selectedMode (ui w) |};
       refs := {| inputAudioContextRef := inputAudioContextRef (refs w);
                  outputAudioContextRef := outputAudioContextRef (refs w);
                  streamRef := streamRef (refs w);
                  processorRef := processorRef (refs w);
                  inputSourceRef := inputSourceRef (refs w);
                  sessionPromiseRef := sessionPromiseRef (refs w);
                  nextStartTimeRef := nextStartTimeRef (refs w);
                  aiClientRef := aiClientRef (refs w);
                  sourcesRef := removeId source (sourcesRef (refs w));
                  userInitiatedDisconnect := userInitiatedDisconnect (refs w) |};
       browser := browser w |}.
Proof.
  destruct w as [u r b]. destruct u, r.
  unfold exec. cbn [handle]. unfold onended.
  rewrite bind_readRef. cbn [refs sourcesRef].
  unfold bind at 1. cbn [putSourcesRef modifyRefs].
  rewrite bind_readRef. cbn [refs sourcesRef ui].
  destruct (removeId source sourcesRef0); reflexivity.
Qed.

Lemma removeId_filter (source : nat) (rest ids : list nat) :
  filter (fun id => negb (existsb (Nat.eqb id) rest)) (removeId source ids)
  = filter (fun id => negb (existsb (Nat.eqb id) (source :: rest))) ids.
Proof.
  unfold removeId. induction ids as [|x ids IH]; [reflexivity|].
  cbn [filter existsb]. destruct (Nat.eqb x source); cbn [negb orb filter].
  - exact IH.
  - rewrite IH. reflexivity.
Qed.

(** X19. The talking indicator follows the set of playing sources: after
    any sequence of [ended] events the set holds the sources that have not
    ended, and the indicator has been switched off exactly if that set is
    empty; nothing is done to the outside. *)
Theorem talking_until_all_ended (ended : list nat) (w : World) :
  let w' := run (map Ended ended) w in
  sourcesRef (refs w')
  = filter (fun id => negb (existsb (Nat.eqb id) ended)) (sourcesRef (refs w))
  /\ isTalking (ui w')
     = match ended, sourcesRef (refs w') with
       | [], _ => isTalking (ui w)
       | _ :: _, [] => false
       | _ :: _, _ :: _ => isTalking (ui w)
       end
  /\ browser w' = browser w.
Proof.
  revert w. induction ended as [|source rest IH]; intros w w'; subst w'.
  - cbn [map run existsb negb]. split; [|split; reflexivity].
    induction (sourcesRef (refs w)) as [|x l IHl]; [reflexivity|].
    cbn [filter]. rewrite <- IHl. reflexivity.
  - cbn [map run]. rewrite onended_run.
    match goal with |- context [run _ ?w0] => specialize (IH w0) end.
    cbv zeta in IH. destruct IH as (Hsources & Htalking & Hbrowser).
    cbn [refs sourcesRef ui isTalking browser] in Hsources, Htalking, Hbrowser.
    rewrite removeId_filter in Hsources.
    split; [exact Hsources|]. split; [|exact Hbrowser].
    rewrite Htalking. clear Htalking Hbrowser.
    destruct rest as [|next rest].
    + cbn [map run refs sourcesRef]. reflexivity.
    + destruct (sourcesRef (refs (run (map Ended (next :: rest)) _)))
        as [|y left] eqn:Hleft; [reflexivity|].
      destruct (removeId source (sourcesRef (refs w))) as [|z ids] eqn:Hids;
        [|reflexivity].
      rewrite <- removeId_filter, Hids in Hsources. discriminate.
Qed.

(** X18. A message that does not interrupt never moves the playback cursor
    back, whether its audio decodes or not. *)
Theorem cursor_never_goes_back (now : time) (msg : LiveServerMessage) (w : World) :
  interrupted msg = false ->
  tle (nextStartTimeRef (refs w))
      (nextStartTimeRef (refs (exec (onmessage now msg) w))).
Proof.
  intros Hnot. destruct msg as [data flag]. cbn in Hnot. subst flag.
  destruct (outputAudioContextRef (refs w)) as [ctx|] eqn:Hctx.
  - destruct data as [base64Audio|].
    + destruct (Js.truthy base64Audio) eqn:Htruthy.
      * destruct (base64ToUint8Array base64Audio) as [bytes|] eqn:Hbytes.
        -- destruct (decodeAudioData bytes) as [buffer|] eqn:Hbuffer.
           ++ unfold exec.
              rewrite (onmessage_enqueues w now base64Audio bytes buffer ctx
                         Hctx Htruthy Hbytes Hbuffer : onmessage now {| inlineData := Some base64Audio; interrupted := false |} w = _).
              cbn [snd refs nextStartTimeRef].
              eapply tle_trans; [apply tle_tmax_l|].
              apply tadd_nonneg. exact (duration_nonneg _ _ Hbuffer).
           ++ unfold exec.
              rewrite (onmessage_decode_fails w now base64Audio ctx Hctx Htruthy
                         ltac:(rewrite Hbytes; exact Hbuffer)
                       : onmessage now {| inlineData := Some base64Audio; interrupted := false |} w = _).
              cbn [snd refs nextStartTimeRef]. apply tle_tmax_l.
        -- unfold exec.
           rewrite (onmessage_decode_fails w now base64Audio ctx Hctx Htruthy
                      ltac:(rewrite Hbytes; reflexivity)
                    : onmessage now {| inlineData := Some base64Audio; interrupted := false |} w = _).
           cbn [snd refs nextStartTimeRef]. apply tle_tmax_l.
      * unfold exec, onmessage. rewrite bind_readRef, Hctx.
        cbn [inlineData interrupted]. rewrite Htruthy.
        cbn [bind ret snd]. apply tle_refl.
    + unfold exec, onmessage. rewrite bind_readRef, Hctx.
      cbn [inlineData interrupted bind ret snd]. apply tle_refl.
  - unfold exec, onmessage. rewrite bind_readRef, Hctx.
    cbn [ret snd]. apply tle_refl.
Qed.

(** *** One failure and its retry, in full *)

Lemma retry_cycle (w : World) (lang : Language) (mode : Mode) (attempt : nat)
      (latency : N) (err : JsError) (promise : nat) :
  attemptInFlight w lang mode attempt ->
  sessionPromiseRef (refs w) = Some promise ->
  isFatal err = false ->
  attempt < MAX_RETRIES ->
  let w1 := run [Elapse latency; ConnectRejected promise err] w in
  let w2 := run [TimerFired] w1 in
  ui w1 = ui w
  /\ refs w1 = refs w
  /\ timers (browser w1)
     = [{| tLanguage := lang; tMode := mode; tAttempt := attempt + 1;
           tDue := (clock (browser w) + latency + RETRY_DELAY_MS)%N |}]
  /\ connectAttempts w1 = connectAttempts w
  /\ ui w2 = {| connected := connected (ui w);
                error := Some ("Connection lost. Retrying... ("
                               ++ Js.ofNat (attempt + 1) ++ "/"
                               ++ Js.ofNat MAX_RETRIES ++ ")")%string;
                isTalking := isTalking (ui w); isRetrying := true;
                selectedLanguage := selectedLanguage (ui w);
                selectedMode := selectedMode (ui w) |}
  /\ hd_error (effectsSince w1 w2)
     = Some (LiveConnect (length (promises (browser w))) (attempt + 1)
                         (sessionConfig lang mode)).
Proof.
  intros ((promise' & waiting & Hp & Hnth) & Htimers & Hflag & Hclient & Htracks)
         Hpromise Hfatal Hlimit w1 w2.
  rewrite Hp in Hpromise. injection Hpromise as ->.
  assert (Hrej : connectRejected promise err (exec (elapse latency) w)
                 = (Ret tt,
                    {| ui := ui w; refs := refs w;
                       browser :=
                         withTimers
                           [{| tLanguage := lang; tMode := mode;
                               tAttempt := attempt + 1;
                               tDue := (clock (browser w) + latency + RETRY_DELAY_MS)%N |}]
                           (withTrace
                              (((clock (browser w) + latency)%N,
                                SetTimeout (attempt + 1) RETRY_DELAY_MS)
                               :: ((clock (browser w) + latency)%N,
                                   ConsoleError (attemptFailedText attempt))
                               :: trace (browser w))
                              (withPromises
                                 (Flames.setAt promise
                                    {| pLanguage := lang; pMode := mode;
                                       pAttempt := attempt; pState := Rejected;
                                       pWaiting := [] |}
                                    (promises (browser w)))
                                 (withClock (clock (browser w) + latency)%N (browser w)))) |})).
  { eapply connectRejected_pending.
    - exact Hnth.
    - reflexivity.
    - cbn [pLanguage pMode pAttempt].
      rewrite connectWithRetry_catch_retries by assumption.
      cbn. rewrite Htimers. reflexivity. }
  assert (Hw1 : w1 = snd (connectRejected promise err (exec (elapse latency) w)))
    by reflexivity.
  rewrite Hrej in Hw1. cbn [snd] in Hw1.
  assert (Hw2 : w2 = snd (timerFired w1)) by reflexivity.
  clearbody w1 w2. subst w1.
  unfold timerFired in Hw2. rewrite bind_getBrowser in Hw2.
  cbn [browser timers withTimers tLanguage tMode tAttempt tDue] in Hw2.
  unfold bind at 1, modifyBrowser in Hw2. cbn [fst snd] in Hw2.
  match type of Hw2 with
  | context [connectWithRetry lang mode (attempt + 1) ?x] =>
      destruct (connectWithRetry_connects lang mode (attempt + 1) x)
        as (w' & Hrun & Hu & Hr & Hb);
      [ cbn; exact Hclient | pose proof (connectWithRetry_config lang mode (attempt + 1) x) as Hconfig ]
  end.
  rewrite Hrun in Hw2. cbn [snd] in Hw2. subst w2.
  replace (0 <? attempt + 1) with true in Hu
    by (symmetry; apply Nat.ltb_lt; lia).
  split; [reflexivity|]. split; [reflexivity|]. split; [reflexivity|].
  split.
  { apply (connectAttempts_app _ _
             [((clock (browser w) + latency)%N, SetTimeout (attempt + 1) RETRY_DELAY_MS);
              ((clock (browser w) + latency)%N, ConsoleError (attemptFailedText attempt))]);
      reflexivity. }
  cbn in Hu, Hb.
  split; [exact Hu|].
  unfold exec in Hconfig. rewrite Hrun in Hconfig. cbn [snd] in Hconfig.
  specialize (Hconfig Hclient).
  assert (Hlen : forall (A : Type) (i : nat) (x : A) (l : list A),
             length (Flames.setAt i x l) = length l).
  { intros A i x l. revert i. induction l as [|y l IH]; intros [|i];
      simpl; try reflexivity. rewrite IH. reflexivity. }
  cbn [browser promises withPromises withClock withTimers withTrace] in Hconfig.
  rewrite Hlen in Hconfig.
  unfold effectsSince in Hconfig |- *.
  cbn [browser trace withClock withTimers withTrace withPromises] in Hconfig |- *.
  exact Hconfig.
Qed.

(** X13. A retry uses the language and the mode the session was started
    with: what is selected in the meantime changes the selection shown, not
    the configuration of the next connection attempt. *)
Theorem retry_keeps_language_and_mode
        (w : World) (lang lang' : Language) (mode mode' : Mode) (attempt : nat)
        (latency : N) (err : JsError) (promise : nat) :
  attemptInFlight w lang mode attempt ->
  sessionPromiseRef (refs w) = Some promise ->
  isFatal err = false ->
  attempt < MAX_RETRIES ->
  let w0 := run [SelectLanguage lang'; SelectMode mode'] w in
  let w1 := run [Elapse latency; ConnectRejected promise err] w0 in
  let w2 := run [TimerFired] w1 in
  selectedLanguage (ui w2) = Some lang'
  /\ selectedMode (ui w2) = mode'
  /\ hd_error (effectsSince w1 w2)
     = Some (LiveConnect (length (promises (browser w))) (attempt + 1)
                         (sessionConfig lang mode)).
Proof.
  intros Hflight Hpromise Hfatal Hlimit w0.
  assert (Hflight0 : attemptInFlight w0 lang mode attempt) by exact Hflight.
  assert (Hpromise0 : sessionPromiseRef (refs w0) = Some promise) by exact Hpromise.
  destruct (retry_cycle w0 lang mode attempt latency err promise
              Hflight0 Hpromise0 Hfatal Hlimit)
    as (_ & _ & _ & _ & Hui & Hconfig).
  cbv zeta. rewrite Hui. split; [reflexivity|]. split; [reflexivity|].
  exact Hconfig.
Qed.

(** *** What the user sees while the session starts *)

Lemma started_ui (bad : list nat) (lang : Language) (mode : Mode)
      (env : StartEnv) (key : string) (stream : MediaStream) :
  apiKey env = Some key ->
  Js.truthy key = true ->
  userMedia env = inr stream ->
  ui (started bad lang mode env)
  = {| connected := false; error := None; isTalking := false;
       isRetrying := false; selectedLanguage := Some lang;
       selectedMode := mode |}
  /\ sessionPromiseRef (refs (started bad lang mode env)) = Some 0
  /\ promises (browser (started bad lang mode env))
     = [{| pLanguage := lang; pMode := mode; pAttempt := 0;
           pState := Pending; pWaiting := [] |}].
Proof.
  intros Hkey Htruthy Hmedia.
  destruct env as [k c m]. cbn in Hkey, Hmedia. subst k m.
  destruct key as [|a key]; [discriminate|].
  lazy - [getSystemInstruction startingSessionText]. repeat split.
Qed.

(** X12. The setup screen stays up until the first connection attempt is
    settled, and through the two seconds before the first retry: End Call is
    not on offer and the start button is; no error is shown after the
    failure.  Only when the retry timer fires does the session view appear,
    with the reconnecting status and the End Call button. *)
Theorem first_attempt_behind_setup_screen
        (bad : list nat) (lang : Language) (mode : Mode) (env : StartEnv)
        (key : string) (stream : MediaStream) (latency : N) (err : JsError) :
  apiKey env = Some key ->
  Js.truthy key = true ->
  userMedia env = inr stream ->
  (forall track, In track (tracks stream) -> existsb (Nat.eqb track) bad = false) ->
  isFatal err = false ->
  let w0 := started bad lang mode env in
  let w1 := run [Elapse latency; ConnectRejected 0 err] w0 in
  let w2 := run [TimerFired] w1 in
  (screen (ui w0) = SetupScreen
   /\ offered (ui w0) EndCall = false
   /\ offered (ui w0) (StartConversation env) = true)
  /\ (screen (ui w1) = SetupScreen
      /\ error (ui w1) = None
      /\ offered (ui w1) EndCall = false
      /\ length (timers (browser w1)) = 1)
  /\ (screen (ui w2) = SessionScreen
      /\ statusLine (ui w2)
         = "Reconnecting... (Connection lost. Retrying... (1/3))"%string
      /\ offered (ui w2) EndCall = true).
Proof.
  intros Hkey Htruthy Hmedia Htracks Hfatal.
  destruct (started_ui bad lang mode env key stream Hkey Htruthy Hmedia)
    as (Hui0 & Hpromise0 & _).
  destruct (started_attemptInFlight bad lang mode env key stream
              Hkey Htruthy Hmedia Htracks) as (Hflight & _).
  destruct (retry_cycle (started bad lang mode env) lang mode 0 latency err 0
              Hflight Hpromise0 Hfatal ltac:(unfold MAX_RETRIES; lia))
    as (Hui1 & _ & Htimers1 & _ & Hui2 & _).
  cbv zeta. rewrite Hui2, Hui1, Htimers1, Hui0.
  repeat split.
Qed.

(** *** The capture pipeline *)

Lemma removeId_all (old : nat) (ids : list nat) :
  (forall id, In id ids -> id = old) -> removeId old ids = [].
Proof.
  intros Hall. unfold removeId. induction ids as [|x ids IH]; [reflexivity|].
  cbn [filter]. rewrite (Hall x (or_introl eq_refl)), Nat.eqb_refl. cbn [negb].
  apply IH. intros id Hin. apply Hall. right. exact Hin.
Qed.

Lemma removeId_subset (old : nat) (ids : list nat) (id : nat) :
  In id (removeId old ids) -> In id ids.
Proof. unfold removeId. intros Hin. apply filter_In in Hin. apply Hin. Qed.

Ltac finish_onopen :=
  repeat match goal with |- _ /\ _ => split end;
  try reflexivity;
  intros ctx Hctx;
  first [ discriminate Hctx
        | injection Hctx as <-; cbn;
          first [ discriminate | split; [reflexivity | discriminate] ] ].

(** X16. When the connection opens, the component holds its input context
    and its stream, and the nodes of an earlier pipeline disconnect without
    failing, the capture pipeline is built anew: the old processor stops
    firing and exactly one processor, the new one, delivers frames; the
    component is marked connected, the retry state and the error are
    cleared, and no context is left suspended. *)
Theorem onopen_rebuilds_capture (w : World) (inputCtx : AudioContext)
        (stream : MediaStream) :
  inputAudioContextRef (refs w) = Some inputCtx ->
  streamRef (refs w) = Some stream ->
  (forall id, inputSourceRef (refs w) = Some id ->
              existsb (Nat.eqb id) (faulty (browser w)) = false) ->
  (forall id, processorRef (refs w) = Some id ->
              existsb (Nat.eqb id) (faulty (browser w)) = false) ->
  (forall id, In id (tapped (browser w)) -> processorRef (refs w) = Some id) ->
  let w' := exec onopen w in
  onopen w = (Ret tt, w')
  /\ connected (ui w') = true
  /\ isRetrying (ui w') = false
  /\ error (ui w') = None
  /\ inputSourceRef (refs w') = Some (nextId (browser w))
  /\ processorRef (refs w') = Some (S (nextId (browser w)))
  /\ tapped (browser w') = [S (nextId (browser w))]
  /\ (forall ctx, inputAudioContextRef (refs w') = Some ctx ->
                  ctxId ctx = ctxId inputCtx /\ state ctx <> suspended)
  /\ (forall ctx, outputAudioContextRef (refs w') = Some ctx ->
                  state ctx <> suspended).
Proof.
  intros Hinput Hstream Hsource Hprocessor Htapped.
  destruct w as [u r b]. destruct u.
  destruct r as [inputRef outputRef held processor inputSource sessionPromise
                 cursor client sources stopped].
  destruct b as [ps ts now tap bad next tr].
  cbn in Hinput, Hstream, Hsource, Hprocessor, Htapped. subst inputRef held.
  assert (Hrun : forall w1 : World, exec onopen w1 = snd (onopen w1)) by reflexivity.
  cbv zeta. rewrite Hrun. clear Hrun.
  match goal with
  | |- context [onopen ?w] => remember (onopen w) as result eqn:E
  end.
  destruct processor as [proc|].
  - pose proof (Hprocessor proc eq_refl) as Hproc.
    assert (Hall : forall id, In id tap -> id = proc).
    { intros id Hin. specialize (Htapped id Hin). congruence. }
    destruct inputSource as [src|].
    + pose proof (Hsource src eq_refl) as Hsrc.
      assert (Hnone : removeId proc (removeId src tap) = []).
      { apply removeId_all. intros id Hin. apply Hall.
        exact (removeId_subset _ _ _ Hin). }
      destruct inputCtx as [iid irate [| |]], outputRef as [[oid orate [| |]]|];
        lazy - [existsb Nat.eqb removeId addId] in E;
        rewrite Hsrc in E; lazy - [existsb Nat.eqb removeId addId] in E;
        rewrite Hproc in E; lazy - [existsb Nat.eqb removeId addId] in E;
        rewrite Hnone in E; subst result; cbn;
        finish_onopen.
    + assert (Hnone : removeId proc tap = []) by (apply removeId_all; exact Hall).
      destruct inputCtx as [iid irate [| |]], outputRef as [[oid orate [| |]]|];
        lazy - [existsb Nat.eqb removeId addId] in E;
        rewrite Hproc in E; lazy - [existsb Nat.eqb removeId addId] in E;
        rewrite Hnone in E; subst result; cbn;
        finish_onopen.
  - destruct tap as [|x tap];
      [|discriminate (Htapped x (or_introl eq_refl))].
    destruct inputSource as [src|].
    + pose proof (Hsource src eq_refl) as Hsrc.
      destruct inputCtx as [iid irate [| |]], outputRef as [[oid orate [| |]]|];
        lazy - [existsb Nat.eqb] in E;
        rewrite Hsrc in E; lazy - [existsb Nat.eqb] in E;
        subst result; cbn;
        finish_onopen.
    + destruct inputCtx as [iid irate [| |]], outputRef as [[oid orate [| |]]|];
        lazy - [existsb Nat.eqb] in E;
        subst result; cbn;
        finish_onopen.
Qed.
End More.

#[local] Existing Instance frameTimeline.
#[local] Existing Instance specAudioUtils.

(** The running samples: a stream whose tracks stop, and the denial a
    browser answers a microphone request with. *)
Lemma sampleActive_tracksStop (bad : list nat) :
  existsb (Nat.eqb 7) bad = false -> tracksStop (sampleActive bad).
Proof.
  intros Hbad stream track Hs Hin.
  assert (Hstream : streamRef (refs (sampleActive bad))
                    = Some {| active := true; tracks := [7] |}) by reflexivity.
  rewrite Hstream in Hs. injection Hs as <-.
  destruct Hin as [<-|[]]. exact Hbad.
Qed.

Lemma callbacks_without_session_witness :
  let w := exec stopSession (samplePlaying []) in
  let events := [Message (300%Z : @time frameTimeline) (audioMessage "AAAAAAAA");
                 AudioProcess 3 9; Ended 4; Open; Close; Error] in
  noSession (run events w)
  /\ promises (browser (run events w)) = promises (browser w)
  /\ timers (browser (run events w)) = timers (browser w)
  /\ tapped (browser (run events w)) = tapped (browser w)
  /\ forallb isConsole (effectsSince w (run events w)) = true.
Proof.
  intros w events.
  assert (Hno : noSession w) by (vm_compute; repeat split).
  exact (callbacks_without_session events w eq_refl Hno).
Defined.

Lemma onopen_after_stop_witness :
  let w' := run [EndCall; Open] (sampleActive []) in
  connected (ui w') = true
  /\ isRetrying (ui w') = false
  /\ error (ui w') = None
  /\ noSession w'
  /\ processorRef (refs w') = None
  /\ userInitiatedDisconnect (refs w') = true.
Proof.
  exact (onopen_after_stop (sampleActive []) (sampleActive_tracksStop [] eq_refl)).
Defined.


Lemma startSession_microphone_refused_witness :
  let env := {| apiKey := Some "test-key"; ctxInitial := suspended;
                userMedia := inl (mkError "Permission denied") |} in
  let w := run [EndCall] (sampleActive []) in
  exists w',
    startSession env w = (Ret tt, w')
    /\ error (ui w')
       = Some "Access denied. Your API Key may not have permission to use this model."
    /\ noSession w'
    /\ processorRef (refs w') = None
    /\ inputSourceRef (refs w') = Some 2
    /\ aiClientRef (refs w') = true
    /\ connectAttempts w' = connectAttempts w
    /\ In GetUserMedia (effectsSince w w').
Proof.
  intros env w.
  assert (Hlang : selectedLanguage (ui w) = Some Tamil) by (vm_compute; reflexivity).
  assert (Hstream : holdsActiveStream w = false) by (vm_compute; reflexivity).
  assert (Hsource : inputSourceRef (refs w) = Some 2) by (vm_compute; reflexivity).
  assert (Htracks : tracksStop w).
  { assert (Hnone : streamRef (refs w) = None) by (vm_compute; reflexivity).
    intros stream track Hs. rewrite Hnone in Hs. discriminate Hs. }
  destruct (startSession_microphone_refused env Tamil "test-key"
              (mkError "Permission denied") w
              Hlang eq_refl eq_refl Hstream eq_refl Htracks)
    as (w' & Hrun & Hui & Hno & Hprocessor & Hkept & Hclient & _ & _ & _ & _
        & Hattempts & Hasked).
  exists w'. split; [exact Hrun|].
  split; [rewrite Hui; reflexivity|].
  split; [exact Hno|].
  split; [exact Hprocessor|].
  split; [exact (eq_trans Hkept Hsource)|].
  split; [exact Hclient|].
  split; [exact Hattempts | exact Hasked].
Defined.

Lemma startSession_connects_witness :
  let w := started [] Tamil love sampleEnv in
  let w' := exec (startSession sampleEnv) w in
  effectsSince w w'
  = [LiveConnect 1 0 (sessionConfig Tamil love);
     ConsoleLog (startingSessionText Tamil love 0);
     NewGoogleGenAI]
  /\ sessionPromiseRef (refs w') = Some 1
  /\ connectAttempts w' = [(0%N, 0); (0%N, 0)].
Proof.
  intros w w'.
  destruct (startSession_connects sampleEnv Tamil "test-key"
              {| active := true; tracks := [7] |} w)
    as (_ & _ & Hrefs & _ & _ & Heffects & Hattempts).
  - reflexivity.
  - reflexivity.
  - reflexivity.
  - reflexivity.
  - split; [exact Heffects|].
    split; [unfold w'; rewrite Hrefs; reflexivity | exact Hattempts].
Defined.


Lemma attempts_bounded_witness :
  exists more,
    connectAttempts
      (settle [Fails 10%N unavailable; Fails 20%N unavailable; Opens 30%N;
               Fails 40%N unavailable]
              (started [] Tamil love sampleEnv))
    = connectAttempts (started [] Tamil love sampleEnv) ++ more
    /\ map snd more = seq (0 + 1) (length more)
    /\ 0 + length more <= MAX_RETRIES.
Proof.
  apply (attempts_bounded _ _ Tamil love 0).
  - apply (started_attemptInFlight [] Tamil love sampleEnv "test-key"
             {| active := true; tracks := [7] |} eq_refl eq_refl eq_refl
             (fun _ _ => eq_refl)).
  - unfold MAX_RETRIES. lia.
Defined.

Lemma frames_wait_for_session_witness :
  let w := run [Open] (started [] Tamil love sampleEnv) in
  let w1 := run (map (AudioProcess 3) [11; 12; 13]) w in
  effectsSince w w1 = []
  /\ effectsSince w1 (run [ConnectFulfilled 0] w1)
     = rev (map (SendRealtimeInput 0) ([] ++ [11; 12; 13])).
Proof.
  intros w w1.
  assert (Href : sessionPromiseRef (refs w) = Some 0) by (vm_compute; reflexivity).
  assert (Hnth : nth_error (promises (browser w)) 0
                 = Some {| pLanguage := Tamil; pMode := love; pAttempt := 0;
                           pState := Pending; pWaiting := [] |})
    by (vm_compute; reflexivity).
  assert (Htapped : In 3 (tapped (browser w))) by (vm_compute; left; reflexivity).
  exact (frames_wait_for_session [11; 12; 13] 3 0 _ w Href Hnth eq_refl Htapped).
Defined.

Lemma cursor_never_goes_back_witness :
  tle (nextStartTimeRef (refs (samplePlaying [])))
      (nextStartTimeRef
         (refs (exec (onmessage (50%Z : @time frameTimeline)
                                (audioMessage "not base64!"))
                     (samplePlaying [])))).
Proof.
  apply cursor_never_goes_back. reflexivity.
Defined.

Lemma retry_keeps_language_and_mode_witness :
  let w0 := run [SelectLanguage Hindi; SelectMode mama]
                (started [] Tamil love sampleEnv) in
  let w1 := run [Elapse 10; ConnectRejected 0 unavailable] w0 in
  let w2 := run [TimerFired] w1 in
  selectedLanguage (ui w2) = Some Hindi
  /\ selectedMode (ui w2) = mama
  /\ hd_error (effectsSince w1 w2)
     = Some (LiveConnect 1 1 (sessionConfig Tamil love)).
Proof.
  apply (retry_keeps_language_and_mode (started [] Tamil love sampleEnv)
           Tamil Hindi love mama 0 10%N unavailable 0).
  - apply (started_attemptInFlight [] Tamil love sampleEnv "test-key"
             {| active := true; tracks := [7] |} eq_refl eq_refl eq_refl
             (fun _ _ => eq_refl)).
  - reflexivity.
  - reflexivity.
  - unfold MAX_RETRIES. lia.
Defined.

Lemma first_attempt_behind_setup_screen_witness :
  let w0 := started [] Tamil love sampleEnv in
  let w1 := run [Elapse 10; ConnectRejected 0 unavailable] w0 in
  let w2 := run [TimerFired] w1 in
  (screen (ui w0) = SetupScreen
   /\ offered (ui w0) EndCall = false
   /\ offered (ui w0) (StartConversation sampleEnv) = true)
  /\ (screen (ui w1) = SetupScreen
      /\ error (ui w1) = None
      /\ offered (ui w1) EndCall = false
      /\ length (timers (browser w1)) = 1)
  /\ (screen (ui w2) = SessionScreen
      /\ statusLine (ui w2)
         = "Reconnecting... (Connection lost. Retrying... (1/3))"%string
      /\ offered (ui w2) EndCall = true).
Proof.
  exact (first_attempt_behind_setup_screen [] Tamil love sampleEnv "test-key"
           {| active := true; tracks := [7] |} 10%N unavailable
           eq_refl eq_refl eq_refl (fun _ _ => eq_refl) eq_refl).
Defined.

Lemma onopen_rebuilds_capture_witness :
  let w := sampleActive [] in
  let w' := exec onopen w in
  processorRef (refs w) = Some 3
  /\ tapped (browser w) = [3]
  /\ processorRef (refs w') = Some (S (nextId (browser w)))
  /\ tapped (browser w') = [S (nextId (browser w))]
  /\ connected (ui w') = true.
Proof.
  intros w w'.
  assert (Hinput : inputAudioContextRef (refs w)
                   = Some {| ctxId := 0; sampleRate := 16000%N; state := running |})
    by (vm_compute; reflexivity).
  assert (Hstream : streamRef (refs w) = Some {| active := true; tracks := [7] |})
    by (vm_compute; reflexivity).
  assert (Hsound : forall id, existsb (Nat.eqb id) (faulty (browser w)) = false)
    by (intros id; vm_compute; reflexivity).
  assert (Htapped : forall id, In id (tapped (browser w)) ->
                               processorRef (refs w) = Some id).
  { assert (Htap0 : tapped (browser w) = [3]) by (vm_compute; reflexivity).
    assert (Hproc0 : processorRef (refs w) = Some 3) by (vm_compute; reflexivity).
    intros id Hin. rewrite Htap0 in Hin. destruct Hin as [<-|[]]. exact Hproc0. }
  destruct (onopen_rebuilds_capture w _ _ Hinput Hstream
              (fun id _ => Hsound id) (fun id _ => Hsound id) Htapped)
    as (_ & Hconnected & _ & _ & _ & Hprocessor & Htap & _).
  split; [vm_compute; reflexivity|]. split; [vm_compute; reflexivity|].
  split; [exact Hprocessor|]. split; [exact Htap | exact Hconnected].
Defined.

End LiveChatMore.
